(** * media-service-go: the token verification and authorization subsystem

    A shallow embedding of package [auth] (the key-set cache [GetKeySet], the
    token verifier [VerifyToken], the gin middlewares [AuthMiddleware] and
    [RequirePermissions]) together with the few Go library functions the
    package calls, and the properties of the specification proved or refuted
    on that embedding.

    Conventions.
    - A Go [string] and a Go [[]byte] are byte sequences: [string] and
      [list byte].
    - [map[string]interface{}] (token header, claims, [gin.H], the keys of a
      [gin.Context]) is a [gmap string _].
    - A [time.Time] is the number of nanoseconds since the epoch, a
      [time.Duration] a number of nanoseconds (an int64, wrapped where the
      code multiplies).
    - Go's [(value, error)] results are sums: [inl] carries the error.
    - What the outside world answers during one call (clock readings, the
      HTTP response) is the argument [World]; what the imported libraries
      compute (URL and JSON parsing, key-set parsing, the cryptography of the
      token library) is the record [Libs].  Every theorem quantifies over
      both.
    - A nil slice and an empty slice are both the empty list. *)

From Stdlib Require Import ZArith Ascii String.
From Stdlib.Strings Require Import Byte.
From stdpp Require Import gmap strings list pretty.

#[local] Set Warnings "-register-all,-clear-no-such-hyp".
#[local] Open Scope Z_scope.

(** ** Go standard library: package [strings] *)

Module strings.

(** [strings.Split(s, sep)] for a separator of one byte: the substrings
    between the separators, [n + 1] of them when [sep] occurs [n] times. *)
Fixpoint Split (s : string) (sep : ascii) : list string :=
  match s with
  | EmptyString => [EmptyString]
  | String ch rest =>
      if Ascii.eqb ch sep then EmptyString :: Split rest sep
      else match Split rest sep with
           | first :: others => String ch first :: others
           | [] => [String ch EmptyString]
           end
  end.

(** [strings.HasPrefix(s, prefix)]. *)
Fixpoint HasPrefix (s prefix : string) {struct prefix} : bool :=
  match prefix, s with
  | EmptyString, _ => true
  | String p prefix', String ch s' => Ascii.eqb ch p && HasPrefix s' prefix'
  | String _ _, EmptyString => false
  end.

Fixpoint drop (n : nat) (s : string) : string :=
  match n, s with
  | O, _ => s
  | S n', String _ s' => drop n' s'
  | S _, EmptyString => EmptyString
  end.

(** [strings.TrimPrefix(s, prefix)]: [s] without the leading [prefix], or
    [s] itself when it does not start with it. *)
Definition TrimPrefix (s prefix : string) : string :=
  if HasPrefix s prefix then drop (String.length prefix) s else s.

End strings.

(** ** Go standard library: [encoding/base64], [RawURLEncoding] *)

Module base64.

(** The URL-safe alphabet [A-Z a-z 0-9 - _] and the value of each of its
    characters. *)
Definition decodeMap (ch : ascii) : option N :=
  let n := N_of_ascii ch in
  if ((65 <=? n) && (n <=? 90))%N then Some (n - 65)%N
  else if ((97 <=? n) && (n <=? 122))%N then Some (n - 71)%N
  else if ((48 <=? n) && (n <=? 57))%N then Some (n + 4)%N
  else if (n =? 45)%N then Some 62%N
  else if (n =? 95)%N then Some 63%N
  else None.

Definition isNewline (ch : ascii) : bool :=
  let n := N_of_ascii ch in ((n =? 10) || (n =? 13))%N.

Definition byteOf (n : N) : byte := byte_of_ascii (ascii_of_N (n mod 256)).

(** The bytes of one quantum: four sextets give three bytes, a final
    quantum of three sextets two bytes and of two sextets one byte (the
    encoding is not strict: left-over bits are dropped). *)
Definition quantum (dbuf : list N) : list byte :=
  match dbuf with
  | [a; b] =>
      let val := N.lor (N.shiftl a 18) (N.shiftl b 12) in
      [byteOf (N.shiftr val 16)]
  | [a; b; c] =>
      let val := N.lor (N.lor (N.shiftl a 18) (N.shiftl b 12)) (N.shiftl c 6) in
      [byteOf (N.shiftr val 16); byteOf (N.shiftr val 8)]
  | [a; b; c; d] =>
      let val :=
        N.lor (N.lor (N.lor (N.shiftl a 18) (N.shiftl b 12)) (N.shiftl c 6)) d in
      [byteOf (N.shiftr val 16); byteOf (N.shiftr val 8); byteOf val]
  | _ => []
  end.

(** The decoding loop: [si] is the offset of the next input byte, [dbuf]
    the sextets of the quantum being read.  Carriage returns and line
    feeds are skipped; any other byte outside the alphabet (the padding
    character too: the raw encoding has none) is a [CorruptInputError] at
    its offset; an input that ends one sextet into a quantum is a
    [CorruptInputError] at the last offset. *)
Fixpoint decode (src : string) (si : N) (dbuf : list N) : N + list byte :=
  match src with
  | EmptyString =>
      match dbuf with
      | [] => inr []
      | [_] => inl (si - 1)%N
      | _ => inr (quantum dbuf)
      end
  | String ch rest =>
      match decodeMap ch with
      | Some out =>
          let dbuf' := dbuf ++ [out] in
          if (length dbuf' =? 4)%nat then
            match decode rest (si + 1)%N [] with
            | inl e => inl e
            | inr bytes => inr (quantum dbuf' ++ bytes)
            end
          else decode rest (si + 1)%N dbuf'
      | None =>
          if isNewline ch then decode rest (si + 1)%N dbuf
          else inl si
      end
  end.

(** [base64.RawURLEncoding.DecodeString(s)]; [inl n] is
    [CorruptInputError(n)]. *)
Definition DecodeString (s : string) : N + list byte := decode s 0%N [].

(** [CorruptInputError.Error()]. *)
Definition CorruptInputError_Error (n : N) : string :=
  "illegal base64 data at input byte " +:+ pretty n.

End base64.

(** ** Decoded JSON: the values of Go's [interface{}] after [json.Unmarshal]

    A JSON number is decoded to a float64; the model keeps integral numbers
    only. *)

Inductive json : Type :=
| JNull
| JBool (b : bool)
| JNum (n : Z)
| JStr (s : string)
| JArr (elems : list json)
| JObj (fields : gmap string json).

(** [fmt]'s [%v] of an interface value: a string prints as itself and a nil
    interface as [<nil>]; the formatting of the other values is left to
    [other]. *)
Definition fmt_v (other : json → string) (v : option json) : string :=
  match v with
  | None | Some JNull => "<nil>"
  | Some (JStr s) => s
  | Some (JBool true) => "true"
  | Some (JBool false) => "false"
  | Some j => other j
  end.

(** ** Time *)

Definition Time := Z.
Definition Duration := Z.

Module time.
Definition Nanosecond : Duration := 1.
Definition Second : Duration := 1000000000.
Definition Minute : Duration := 60 * Second.

(** int64 arithmetic wraps around. *)
Definition wrap64 (z : Z) : Z := (z + 2 ^ 63) mod 2 ^ 64 - 2 ^ 63.
Definition mul (a b : Duration) : Duration := wrap64 (a * b).

Definition Before (t u : Time) : bool := t <? u.
Definition Add (t : Time) (d : Duration) : Time := t + d.
End time.

(** ** Library types: [net/http], [jwx/jwk], [golang-jwt/jwt] *)

Module http.
Definition StatusOK : Z := 200.
Definition StatusUnauthorized : Z := 401.
Definition StatusForbidden : Z := 403.

Record Request := { Method : string; URL : string }.

(** What [httpClient.Do(req)] returns: an error (unreachable endpoint,
    timeout, cancelled context) or a response with its status code and
    its body. *)
Inductive DoResult :=
| DoError (err : string)
| DoResponse (StatusCode : Z) (Body : list byte).

(** [http.NewRequestWithContext(ctx, method, url, nil)] for a valid method
    and a non-nil context (package [context] forbids a nil one): the only
    error left is the one of [url.Parse], here [parse]. *)
Definition NewRequestWithContext (parse : string → option string)
    (method url : string) : string + Request :=
  match parse url with
  | Some err => inl err
  | None => inr {| Method := method; URL := url |}
  end.
End http.

Inductive PublicKey :=
| RSAPublicKey (modulus exponent : Z)
| ECDSAPublicKey (x y : Z)
| OctetKey (octets : list byte).

Module jwk.
(** A key of a set: its key identifier ([KeyID()] is the empty string when
    the key has none) and what [key.Raw(&publicKey)] gives for it. *)
Record Key := { KeyID : string; Raw : string + PublicKey }.

(** A [jwk.Set] is a sequence of keys. *)
Definition KeySet := list Key.

(** [set.LookupKeyID(kid)]: the first key of the set with that identifier. *)
Fixpoint LookupKeyID (set : KeySet) (kid : string) : option Key :=
  match set with
  | [] => None
  | key :: rest =>
      if String.eqb (KeyID key) kid then Some key else LookupKeyID rest kid
  end.
End jwk.

(** What a call does to the outside, in order: the fetches of the key-set
    endpoint, the key lookups and the signature verifications. *)
Inductive Event :=
| EvHttpGet (url : string)
| EvLookupKeyID (kid : string)
| EvVerifySignature (key : PublicKey).

Module jwt.

Inductive SigningMethod :=
| SigningMethodRSA (alg : string)
| SigningMethodRSAPSS (alg : string)
| SigningMethodECDSA (alg : string)
| SigningMethodHMAC (alg : string)
| SigningMethodEd25519
| SigningMethodNone.

(** A parsed token; [Claims] is a [jwt.MapClaims]. *)
Record Token := {
  Raw : string;
  Method : SigningMethod;
  Header : gmap string json;
  Claims : gmap string json;
  Signature : list byte
}.

Inductive ValidationError :=
| ErrTokenExpired
| ErrTokenNotValidYet
| ErrInvalidType (claim : string).

(** The errors of [jwt.Parse]; [KeyfuncError] is the type of the errors
    of the key function. *)
Inductive Error (KeyfuncError : Type) :=
| ErrTokenMalformed (cause : string)
| ErrTokenUnverifiable (cause : string)
| ErrKeyfunc (cause : KeyfuncError)
| ErrTokenSignatureInvalid (cause : string)
| ErrTokenInvalidClaims (causes : list ValidationError).
Arguments ErrTokenMalformed {_} _.
Arguments ErrTokenUnverifiable {_} _.
Arguments ErrKeyfunc {_} _.
Arguments ErrTokenSignatureInvalid {_} _.
Arguments ErrTokenInvalidClaims {_} _.

Definition map_cause {K K' : Type} (f : K → K') (e : Error K) : Error K' :=
  match e with
  | ErrTokenMalformed cause => ErrTokenMalformed cause
  | ErrTokenUnverifiable cause => ErrTokenUnverifiable cause
  | ErrKeyfunc cause => ErrKeyfunc (f cause)
  | ErrTokenSignatureInvalid cause => ErrTokenSignatureInvalid cause
  | ErrTokenInvalidClaims causes => ErrTokenInvalidClaims causes
  end.

Inductive UnverifiedError :=
| Malformed (cause : string)
| Unverifiable (cause : string).

(** The parts of the library that the model does not open: the decoding of
    the three segments into a [Token] with the signing method that the
    header declares ([ParseUnverified]), the cryptographic check of the
    signature ([Verify], [None] when the signature is good), and the text
    of the library's errors, given the text of the key function's. *)
Record Internals := {
  ParseUnverified : string → UnverifiedError + Token;
  Verify : Token → PublicKey → option string;
  Error_text : Error string → string
}.

(** [err.Error()] of an error of [jwt.Parse]. *)
Definition Error_Error {K : Type} (I : Internals) (text : K → string)
    (e : Error K) : string :=
  Error_text I (map_cause text e).

(** A NumericDate claim counts seconds. *)
Definition NumericDate (seconds : Z) : Time := seconds * time.Second.

(** Modelled from the spec: the validation of the registered time claims
    is done inside [jwt.Parse] of golang-jwt, whose code is not part of
    the repository.  The specification (4.2, design rationale) has the
    [exp] and [nbf] checks in the validation pass: a token whose [exp] is
    not in the future is rejected with TokenExpired; a token without [exp]
    is not. *)
Definition verifyExpiresAt (now : Time) (claims : gmap string json)
    : option ValidationError :=
  match claims !! "exp" with
  | None => None
  | Some (JNum exp) =>
      if time.Before now (NumericDate exp) then None else Some ErrTokenExpired
  | Some _ => Some (ErrInvalidType "exp")
  end.

(** Modelled from the spec: as [verifyExpiresAt], for [nbf]: a token whose
    [nbf] is in the future is rejected with TokenNotYetValid. *)
Definition verifyNotBefore (now : Time) (claims : gmap string json)
    : option ValidationError :=
  match claims !! "nbf" with
  | None => None
  | Some (JNum nbf) =>
      if time.Before now (NumericDate nbf) then Some ErrTokenNotValidYet else None
  | Some _ => Some (ErrInvalidType "nbf")
  end.

(** Modelled from the spec: the validation pass, which reports every
    failed check. *)
Definition Validate (now : Time) (claims : gmap string json)
    : list ValidationError :=
  option_list (verifyExpiresAt now claims)
    ++ option_list (verifyNotBefore now claims).

(** Modelled from the spec: [jwt.Parse(tokenString, keyFunc)] of
    golang-jwt, whose code is not part of the repository.  Following 4.2
    of the specification (steps 4 and 5, design rationale): the token is
    decoded, the key function chooses the key, the signature over header
    and payload is verified with it, and only then are the claims
    validated.  The result carries what the call did to the outside. *)
Definition Parse {KeyfuncError : Type} (I : Internals) (now : Time)
    (tokenString : string) (keyFunc : Token → KeyfuncError + PublicKey)
    : list Event * (Error KeyfuncError + Token) :=
  match ParseUnverified I tokenString with
  | inl (Malformed err) => ([], inl (ErrTokenMalformed err))
  | inl (Unverifiable err) => ([], inl (ErrTokenUnverifiable err))
  | inr token =>
      match keyFunc token with
      | inl err => ([], inl (ErrKeyfunc err))
      | inr key =>
          match Verify I token key with
          | Some err => ([EvVerifySignature key], inl (ErrTokenSignatureInvalid err))
          | None =>
              match Validate now (Claims token) with
              | [] => ([EvVerifySignature key], inr token)
              | errs => ([EvVerifySignature key], inl (ErrTokenInvalidClaims errs))
              end
          end
      end
  end.

End jwt.

(** ** The imported libraries and the outside world *)

Record Libs := {
  (** [net/url.Parse]: the error for a URL that does not parse. *)
  url_Parse : string → option string;
  (** [json.Unmarshal] into a [map[string]interface{}]. *)
  json_Unmarshal : list byte → string + gmap string json;
  (** [jwk.ParseReader(body, jwk.WithPEM(true))]. *)
  jwk_ParseReader : list byte → string + jwk.KeySet;
  (** [%v] of the values that are neither strings, booleans nor nil. *)
  fmt_other : json → string;
  jwt_internals : jwt.Internals
}.

Record World := {
  (** [time.Now()] at the freshness check under the read lock. *)
  now_read : Time;
  (** [time.Now()] at the freshness check under the write lock. *)
  now_write : Time;
  (** [time.Now()] when a fetched key set is stored. *)
  now_store : Time;
  (** The answer of the key-set endpoint, were it asked. *)
  http_Do : http.DoResult;
  (** [time.Now()] when the token library validates the claims. *)
  now_validate : Time
}.

(** ** Package [auth]: data *)

Record AuthContext := {
  UserID : string;
  OrgID : option string;
  Roles : list string;
  Permissions : list string;
  Email : option string;
  Name : option string
}.

Record Config := {
  JWKSUrl : string;
  Issuer : string;
  Audience : string;
  JWKSCacheTTL : Z
}.

Record cachedJWKS := {
  set : jwk.KeySet;
  expiresAt : Time
}.

Record JWKSClient := {
  url : string;
  cache : option cachedJWKS;
  cacheTTL : Duration;
  httpClient_Timeout : Duration
}.

(** The values that the package puts behind the interface type [any]: the
    values of a [gin.H] and of the keys of a [gin.Context]. *)
Inductive any :=
| VString (s : string)
| VStrings (l : list string)
| VAuthContext (ctx : AuthContext)
| VOther (j : json).

(** ** Library: gin *)

Module gin.
Abbreviation H := (gmap string any).

(** A [gin.Context]: the request headers (by canonical name), the keys
    set on the context, what was written to the response (status and JSON
    object, in order), whether the chain was aborted and whether the
    remaining handlers were run. *)
Record Context := {
  Request_Header : gmap string string;
  Keys : gmap string any;
  Written : list (Z * H);
  Aborted : bool;
  NextCalled : bool
}.

(** [c.GetHeader(key)]: the empty string when the header is absent. *)
Definition GetHeader (c : Context) (key : string) : string :=
  default EmptyString (Request_Header c !! key).

(** [c.JSON(code, obj)]. *)
Definition JSON (code : Z) (obj : H) (c : Context) : Context :=
  {| Request_Header := Request_Header c; Keys := Keys c;
     Written := Written c ++ [(code, obj)];
     Aborted := Aborted c; NextCalled := NextCalled c |}.

(** [c.Abort()]. *)
Definition Abort (c : Context) : Context :=
  {| Request_Header := Request_Header c; Keys := Keys c;
     Written := Written c; Aborted := true; NextCalled := NextCalled c |}.

(** [c.Next()]. *)
Definition Next (c : Context) : Context :=
  {| Request_Header := Request_Header c; Keys := Keys c;
     Written := Written c; Aborted := Aborted c; NextCalled := true |}.

(** [c.Set(key, value)]. *)
Definition Set_ (key : string) (value : any) (c : Context) : Context :=
  {| Request_Header := Request_Header c; Keys := <[key := value]> (Keys c);
     Written := Written c; Aborted := Aborted c; NextCalled := NextCalled c |}.

(** [c.Get(key)]. *)
Definition Get (c : Context) (key : string) : option any := Keys c !! key.
End gin.

(** ** Package [auth]: errors

    One constructor for each place where the package makes an error, with
    the causes it wraps. *)

Inductive KeyfuncError :=
| ErrUnexpectedSigningMethod (alg : option json).

Inductive error :=
| ErrCreateRequest (cause : string)
| ErrFetchJWKS (cause : string)
| ErrJWKSStatus (StatusCode : Z)
| ErrParseJWKS (cause : string)
| ErrInvalidTokenFormat
| ErrDecodeHeader (cause : N)
| ErrParseHeader (cause : string)
| ErrMissingKid
| ErrGetJWKS (cause : error)
| ErrKeyNotFound (kid : string)
| ErrPublicKey (cause : string)
| ErrVerificationFailed (cause : jwt.Error KeyfuncError)
| ErrInvalidIssuer
| ErrInvalidAudience
| ErrMissingSub.

Definition KeyfuncError_Error (L : Libs) (e : KeyfuncError) : string :=
  match e with
  | ErrUnexpectedSigningMethod alg =>
      "unexpected signing method: " +:+ fmt_v (fmt_other L) alg
  end.

(** [err.Error()]: the format strings of the package. *)
Fixpoint Error (L : Libs) (e : error) : string :=
  match e with
  | ErrCreateRequest cause => "failed to create request: " +:+ cause
  | ErrFetchJWKS cause => "failed to fetch JWKS: " +:+ cause
  | ErrJWKSStatus StatusCode => "JWKS endpoint returned status " +:+ pretty StatusCode
  | ErrParseJWKS cause => "failed to parse JWKS: " +:+ cause
  | ErrInvalidTokenFormat => "invalid token format"
  | ErrDecodeHeader cause =>
      "failed to decode token header: " +:+ base64.CorruptInputError_Error cause
  | ErrParseHeader cause => "failed to parse token header: " +:+ cause
  | ErrMissingKid => "token missing kid in header"
  | ErrGetJWKS cause => "failed to get JWKS: " +:+ Error L cause
  | ErrKeyNotFound kid => "key not found for kid: " +:+ kid
  | ErrPublicKey cause => "failed to get public key: " +:+ cause
  | ErrVerificationFailed cause =>
      "token verification failed: "
        +:+ jwt.Error_Error (jwt_internals L) (KeyfuncError_Error L) cause
  | ErrInvalidIssuer => "invalid issuer"
  | ErrInvalidAudience => "invalid audience"
  | ErrMissingSub => "token missing sub claim"
  end.

(** ** Package [auth]: the key-set cache *)

Definition NewJWKSClient (url : string) (cacheTTLSeconds : Z) : JWKSClient :=
  let ttl := time.mul cacheTTLSeconds time.Second in
  let ttl := if ttl =? 0 then 15 * time.Minute else ttl in
  {| url := url; cache := None; cacheTTL := ttl;
     httpClient_Timeout := 10 * time.Second |}.

(** [c.cache != nil && time.Now().Before(c.cache.expiresAt)], with the
    cached set when it holds. *)
Definition freshSet (c : JWKSClient) (now : Time) : option jwk.KeySet :=
  match cache c with
  | Some cached =>
      if time.Before now (expiresAt cached) then Some (set cached) else None
  | None => None
  end.

(** [if c.cache != nil { return c.cache.set, nil }; return nil, err]. *)
Definition staleOr (c : JWKSClient) (err : error) : error + jwk.KeySet :=
  match cache c with
  | Some cached => inr (set cached)
  | None => inl err
  end.

(** [(c *JWKSClient) GetKeySet(ctx)]: the client after the call, the fetches
    made, and the result.  The locks have no effect in a sequential run. *)
Definition GetKeySet (L : Libs) (w : World) (c : JWKSClient)
    : JWKSClient * list Event * (error + jwk.KeySet) :=
  match freshSet c (now_read w) with
  | Some set => (c, [], inr set)
  | None =>
  match freshSet c (now_write w) with
  | Some set => (c, [], inr set)
  | None =>
  match http.NewRequestWithContext (url_Parse L) "GET" (url c) with
  | inl err => (c, [], inl (ErrCreateRequest err))
  | inr req =>
  match http_Do w with
  | http.DoError err =>
      (c, [EvHttpGet (http.URL req)], staleOr c (ErrFetchJWKS err))
  | http.DoResponse StatusCode Body =>
      if negb (StatusCode =? http.StatusOK) then
        (c, [EvHttpGet (http.URL req)], staleOr c (ErrJWKSStatus StatusCode))
      else
        match jwk_ParseReader L Body with
        | inl err =>
            (c, [EvHttpGet (http.URL req)], staleOr c (ErrParseJWKS err))
        | inr set =>
            ({| url := url c;
                cache := Some {| set := set;
                                 expiresAt := time.Add (now_store w) (cacheTTL c) |};
                cacheTTL := cacheTTL c;
                httpClient_Timeout := httpClient_Timeout c |},
             [EvHttpGet (http.URL req)], inr set)
        end
  end end end end.

(** ** Package [auth]: the token verifier *)

(** A step of [VerifyToken]: it may replace the key-set client (through
    [GetKeySet]), adds to the events of the call, and either fails with an
    error (the early [return nil, err]) or gives a value. *)
Definition M (A : Type) : Type :=
  JWKSClient * list Event → JWKSClient * list Event * (error + A).

#[export] Instance M_ret : MRet M := λ A a st, (st, inr a).

#[export] Instance M_bind : MBind M := λ A B k m st,
  match m st with
  | (st', inl err) => (st', inl err)
  | (st', inr a) => k a st'
  end.

Definition fail {A : Type} (err : error) : M A := λ st, (st, inl err).

(** [v, err := f(); if err != nil { return nil, wrap(err) }]. *)
Definition try {E A : Type} (r : E + A) (wrap : E → error) : M A :=
  match r with
  | inl err => fail (wrap err)
  | inr a => mret a
  end.

Definition emit (evs : list Event) : M unit := λ st, ((st.1, st.2 ++ evs), inr tt).

(** The call [jwksClient.GetKeySet(ctx)]. *)
Definition callGetKeySet (L : Libs) (w : World) : M jwk.KeySet := λ st,
  let '(c, evs, r) := GetKeySet L w st.1 in ((c, st.2 ++ evs), r).

(** The key function given to [jwt.Parse]: only the RSA signing methods
    ([*jwt.SigningMethodRSA]) get the key. *)
Definition keyFunc (publicKey : PublicKey) (token : jwt.Token)
    : KeyfuncError + PublicKey :=
  match jwt.Method token with
  | jwt.SigningMethodRSA _ => inr publicKey
  | _ => inl (ErrUnexpectedSigningMethod (jwt.Header token !! "alg"))
  end.

(** The loop over [audArr]: is some element the string [Audience]? *)
Fixpoint audienceFound (audArr : list json) (Audience : string) : bool :=
  match audArr with
  | [] => false
  | JStr aStr :: rest =>
      if String.eqb aStr Audience then true else audienceFound rest Audience
  | _ :: rest => audienceFound rest Audience
  end.

(** The audience check:
    [if aud, ok := claims["aud"].(string); ok && aud != config.Audience
     { return error } else if audArr, ok := claims["aud"].([]interface{}); ok
     { ... if !found { return error } }]. *)
Definition checkAudience (claims : gmap string json) (config : Config) : M unit :=
  match claims !! "aud" with
  | Some (JStr aud) =>
      if negb (String.eqb aud (Audience config)) then fail ErrInvalidAudience
      else mret tt
  | Some (JArr audArr) =>
      if negb (audienceFound audArr (Audience config)) then fail ErrInvalidAudience
      else mret tt
  | _ => mret tt
  end.

(** The loops over [roles] and [permissions]: the elements that are
    strings, in order. *)
Fixpoint stringsOf (values : list json) : list string :=
  match values with
  | [] => []
  | JStr s :: rest => s :: stringsOf rest
  | _ :: rest => stringsOf rest
  end.

(** [if l, ok := v.([]interface{}); ok { ... append the strings ... }]. *)
Definition stringList (v : option json) : list string :=
  match v with
  | Some (JArr values) => stringsOf values
  | _ => []
  end.

(** [if s, ok := v.(string); ok && s != "" { ptr = &s }]. *)
Definition stringPtr (v : option json) : option string :=
  match v with
  | Some (JStr s) => if String.eqb s EmptyString then None else Some s
  | _ => None
  end.

(** The second half of [VerifyToken], after [jwt.Parse]: the checks of the
    issuer, the audience and the subject, and the construction of the
    [AuthContext] from the claims.  The assertion
    [verifiedToken.Claims.(jwt.MapClaims)] cannot fail: [jwt.Parse] makes
    the claims a [MapClaims]. *)
Definition authContextOf (claims : gmap string json) (config : Config)
    : M AuthContext :=
  match claims !! "iss" with
  | Some (JStr iss) =>
      if negb (String.eqb iss (Issuer config)) then fail ErrInvalidIssuer
      else
        checkAudience claims config;;
        match claims !! "sub" with
        | Some (JStr sub) =>
            if String.eqb sub EmptyString then fail ErrMissingSub
            else
              mret {| UserID := sub;
                      OrgID := stringPtr (claims !! "org_id");
                      Roles := stringList (claims !! "roles");
                      Permissions := stringList (claims !! "permissions");
                      Email := stringPtr (claims !! "email");
                      Name := stringPtr (claims !! "name") |}
        | _ => fail ErrMissingSub
        end
  | _ => fail ErrInvalidIssuer
  end.

(** [VerifyToken(ctx, tokenString, jwksClient, config)]. *)
Definition VerifyToken (L : Libs) (w : World) (tokenString : string)
    (config : Config) : M AuthContext :=
  match strings.Split tokenString "." with
  | [part0; _; _] =>
      headerBytes ← try (base64.DecodeString part0) ErrDecodeHeader;
      header ← try (json_Unmarshal L headerBytes) ErrParseHeader;
      match header !! "kid" with
      | Some (JStr kid) =>
          keySet ← (λ st, match callGetKeySet L w st with
                          | (st', inl err) => (st', inl (ErrGetJWKS err))
                          | ok => ok
                          end);
          emit [EvLookupKeyID kid];;
          match jwk.LookupKeyID keySet kid with
          | Some key =>
              publicKey ← try (jwk.Raw key) ErrPublicKey;
              let '(evs, parsed) :=
                jwt.Parse (jwt_internals L) (now_validate w) tokenString
                  (keyFunc publicKey) in
              emit evs;;
              verifiedToken ← try parsed ErrVerificationFailed;
              authContextOf (jwt.Claims verifiedToken) config
          | None => fail (ErrKeyNotFound kid)
          end
      | _ => fail ErrMissingKid
      end
  | _ => fail ErrInvalidTokenFormat
  end.

(** A call of [VerifyToken] on a client: the client after the call, what
    the call did to the outside, and its result. *)
Definition runVerifyToken (L : Libs) (w : World) (tokenString : string)
    (jwksClient : JWKSClient) (config : Config)
    : JWKSClient * list Event * (error + AuthContext) :=
  VerifyToken L w tokenString config (jwksClient, []).

(** ** Package [auth]: the middlewares *)

(** The handler that [AuthMiddleware(jwksClient, config)] returns, run on a
    request context. *)
Definition AuthMiddleware (L : Libs) (w : World) (jwksClient : JWKSClient)
    (config : Config) (c : gin.Context) : JWKSClient * list Event * gin.Context :=
  let authHeader := gin.GetHeader c "Authorization" in
  if String.eqb authHeader EmptyString
     || negb (strings.HasPrefix authHeader "Bearer ") then
    (jwksClient, [],
     gin.Abort
       (gin.JSON http.StatusUnauthorized
          {[ "error" := VString "Missing or invalid authorization header" ]} c))
  else
    let token := strings.TrimPrefix authHeader "Bearer " in
    match runVerifyToken L w token jwksClient config with
    | (jwksClient', evs, inl err) =>
        (jwksClient', evs,
         gin.Abort
           (gin.JSON http.StatusUnauthorized
              {[ "error" := VString "Invalid token";
                 "details" := VString (Error L err) ]} c))
    | (jwksClient', evs, inr authContext) =>
        (jwksClient', evs,
         gin.Next (gin.Set_ "auth" (VAuthContext authContext) c))
    end.

(** The inner loop of [RequirePermissions]: is [required] one of [perms]? *)
Fixpoint permissionFound (perms : list string) (required : string) : bool :=
  match perms with
  | [] => false
  | perm :: rest =>
      if String.eqb perm required then true else permissionFound rest required
  end.

(** The outer loop of [RequirePermissions]: [hasAll]. *)
Fixpoint hasAll (requiredPermissions perms : list string) : bool :=
  match requiredPermissions with
  | [] => true
  | required :: rest =>
      if negb (permissionFound perms required) then false else hasAll rest perms
  end.

(** The handler that [RequirePermissions(requiredPermissions)] returns. *)
Definition RequirePermissions (requiredPermissions : list string)
    (c : gin.Context) : gin.Context :=
  match gin.Get c "auth" with
  | None =>
      gin.Abort
        (gin.JSON http.StatusUnauthorized
           {[ "error" := VString "Not authenticated" ]} c)
  | Some (VAuthContext ctx) =>
      if negb (hasAll requiredPermissions (Permissions ctx)) then
        gin.Abort
          (gin.JSON http.StatusForbidden
             {[ "error" := VString "Insufficient permissions";
                "required" := VStrings requiredPermissions;
                "has" := VStrings (Permissions ctx) ]} c)
      else gin.Next c
  | Some _ =>
      gin.Abort
        (gin.JSON http.StatusUnauthorized
           {[ "error" := VString "Invalid auth context" ]} c)
  end.

(** [GetAuthContext(c)]. *)
Definition GetAuthContext (c : gin.Context) : option AuthContext :=
  match gin.Get c "auth" with
  | Some (VAuthContext ctx) => Some ctx
  | _ => None
  end.

(** ** The specification's words *)

(** A segment that is "base64url-encoded without padding": the decoder
    accepts it. *)
Definition base64urlSegment (segment : string) : bool :=
  match base64.DecodeString segment with
  | inr _ => true
  | inl _ => false
  end.

(** A token "composed of exactly three dot-separated segments, each
    base64url-encoded without padding". *)
Definition wellFormedToken (tokenString : string) : bool :=
  match strings.Split tokenString "." with
  | [header; payload; signature] =>
      base64urlSegment header && base64urlSegment payload
      && base64urlSegment signature
  | _ => false
  end.

(** The [aud] claim "is either the exact configured audience string or an
    array containing that string". *)
Definition audienceNamed (aud : option json) (Audience : string) : Prop :=
  aud = Some (JStr Audience)
  ∨ ∃ audArr, aud = Some (JArr audArr) ∧ JStr Audience ∈ audArr.

(** The number of fetches of the key-set endpoint among the events of a
    call. *)
Fixpoint fetches (evs : list Event) : nat :=
  match evs with
  | [] => O
  | EvHttpGet _ :: rest => S (fetches rest)
  | _ :: rest => fetches rest
  end.

(** The client states that the program can be in: the one that
    [NewJWKSClient] makes, and those that calls of [GetKeySet] (the only
    code that writes the cache) lead to. *)
Inductive reachable (L : Libs) (url0 : string) (ttl0 : Z) : JWKSClient → Prop :=
| reachable_new : reachable L url0 ttl0 (NewJWKSClient url0 ttl0)
| reachable_call c w :
    reachable L url0 ttl0 c → reachable L url0 ttl0 (GetKeySet L w c).1.1.

(** The fetch "fails by network error, non-2xx status, or unparseable
    body". *)
Definition fetchFails (L : Libs) (w : World) : Prop :=
  match http_Do w with
  | http.DoError _ => True
  | http.DoResponse StatusCode Body =>
      ¬ (200 ≤ StatusCode < 300) ∨ ∃ err, jwk_ParseReader L Body = inl err
  end.

(** [token] is what the library decodes from [tokenString], and the call
    of [VerifyToken] gets as far as a successful verification of its
    signature: the header names a key of the retrieved key set, the
    declared signing method is an RSA one, and the signature is good. *)
Definition signatureVerified (L : Libs) (w : World) (tokenString : string)
    (jwksClient : JWKSClient) (token : jwt.Token) : Prop :=
  ∃ part0 part1 part2 headerBytes header kid keySet key publicKey alg,
    strings.Split tokenString "." = [part0; part1; part2]
    ∧ base64.DecodeString part0 = inr headerBytes
    ∧ json_Unmarshal L headerBytes = inr header
    ∧ header !! "kid" = Some (JStr kid)
    ∧ (GetKeySet L w jwksClient).2 = inr keySet
    ∧ jwk.LookupKeyID keySet kid = Some key
    ∧ jwk.Raw key = inr publicKey
    ∧ jwt.ParseUnverified (jwt_internals L) tokenString = inr token
    ∧ jwt.Method token = jwt.SigningMethodRSA alg
    ∧ jwt.Verify (jwt_internals L) token publicKey = None.

(** The errors of [VerifyToken] about the structure of the token. *)
Definition formatError (err : error) : Prop :=
  err = ErrInvalidTokenFormat ∨ ∃ n, err = ErrDecodeHeader n.

(** ** Sample libraries, key sets and tokens, to run the model *)

Module Sample.

Definition bytes_eqb (a b : list byte) : bool :=
  String.eqb (string_of_list_byte a) (string_of_list_byte b).

Definition decoded (segment : string) : list byte :=
  match base64.DecodeString segment with
  | inr bytes => bytes
  | inl _ => []
  end.

Definition issuer : string := "https://issuer.example".
Definition audience : string := "media-service".

Definition config : Config :=
  {| JWKSUrl := "https://issuer.example/.well-known/jwks.json";
     Issuer := issuer; Audience := audience; JWKSCacheTTL := 900 |}.

(** The header [{alg: RS256, kid: k1}] and the same with [kid: k9]. *)
Definition header_k1 : string := "eyJhbGciOiJSUzI1NiIsImtpZCI6ImsxIn0".
Definition header_k9 : string := "eyJhbGciOiJSUzI1NiIsImtpZCI6Ims5In0".

Definition headerOf (segment : string) : option (gmap string json) :=
  if String.eqb segment header_k1
  then Some {[ "alg" := JStr "RS256"; "kid" := JStr "k1" ]}
  else if String.eqb segment header_k9
  then Some {[ "alg" := JStr "RS256"; "kid" := JStr "k9" ]}
  else None.

(** Payload segments and the claims they encode. *)
Definition payload_upload : string :=
  "eyJpc3MiOiJodHRwczovL2lzc3Vlci5leGFtcGxlIiwiYXVkIjoibWVkaWEtc2VydmljZSIsInN1YiI6InVzZXItMSIsInBlcm1pc3Npb25zIjpbImZpbGVzOnVwbG9hZCJdfQ".
Definition payload_no_aud : string :=
  "eyJpc3MiOiJodHRwczovL2lzc3Vlci5leGFtcGxlIiwic3ViIjoidXNlci0xIn0".
Definition payload_number_aud : string :=
  "eyJpc3MiOiJodHRwczovL2lzc3Vlci5leGFtcGxlIiwiYXVkIjo0Miwic3ViIjoidXNlci0xIn0".
Definition payload_other_aud : string :=
  "eyJpc3MiOiJodHRwczovL2lzc3Vlci5leGFtcGxlIiwiYXVkIjoib3RoZXItc2VydmljZSIsInN1YiI6InVzZXItMSJ9".
Definition payload_exp : string :=
  "eyJpc3MiOiJodHRwczovL2lzc3Vlci5leGFtcGxlIiwiYXVkIjoibWVkaWEtc2VydmljZSIsInN1YiI6InVzZXItMSIsImV4cCI6MTAwMH0".
Definition payload_nbf : string :=
  "eyJpc3MiOiJodHRwczovL2lzc3Vlci5leGFtcGxlIiwiYXVkIjoibWVkaWEtc2VydmljZSIsInN1YiI6InVzZXItMSIsIm5iZiI6NTAwMH0".

Definition identity : gmap string json :=
  {[ "iss" := JStr issuer; "sub" := JStr "user-1" ]}.

Definition claims_upload : gmap string json :=
  <["aud" := JStr audience]>
    (<["permissions" := JArr [JStr "files:upload"]]> identity).
Definition claims_number_aud : gmap string json := <["aud" := JNum 42]> identity.
Definition claims_other_aud : gmap string json :=
  <["aud" := JStr "other-service"]> identity.
Definition claims_exp : gmap string json :=
  <["aud" := JStr audience]> (<["exp" := JNum 1000]> identity).
Definition claims_nbf : gmap string json :=
  <["aud" := JStr audience]> (<["nbf" := JNum 5000]> identity).

Definition claimsOf (segment : string) : option (gmap string json) :=
  if String.eqb segment payload_upload then Some claims_upload
  else if String.eqb segment payload_no_aud then Some identity
  else if String.eqb segment payload_number_aud then Some claims_number_aud
  else if String.eqb segment payload_other_aud then Some claims_other_aud
  else if String.eqb segment payload_exp then Some claims_exp
  else if String.eqb segment payload_nbf then Some claims_nbf
  else None.

(** The signature segment that the sample [Verify] accepts. *)
Definition good_signature : string := "c2ln".

Definition token (header payload signature : string) : string :=
  header +:+ "." +:+ payload +:+ "." +:+ signature.

Definition ParseUnverified (tokenString : string)
    : jwt.UnverifiedError + jwt.Token :=
  match strings.Split tokenString "." with
  | [header; payload; signature] =>
      match headerOf header, claimsOf payload, base64.DecodeString signature with
      | Some h, Some claims, inr sig =>
          inr {| jwt.Raw := tokenString;
                 jwt.Method := jwt.SigningMethodRSA "RS256";
                 jwt.Header := h; jwt.Claims := claims;
                 jwt.Signature := sig |}
      | _, _, _ => inl (jwt.Malformed "could not decode segment")
      end
  | _ => inl (jwt.Malformed "token contains an invalid number of segments")
  end.

(** The decoded token of header [k1], a payload with the given claims and
    the good signature. *)
Definition signed (payload : string) (claims : gmap string json) : jwt.Token :=
  {| jwt.Raw := token header_k1 payload good_signature;
     jwt.Method := jwt.SigningMethodRSA "RS256";
     jwt.Header := {[ "alg" := JStr "RS256"; "kid" := JStr "k1" ]};
     jwt.Claims := claims;
     jwt.Signature := decoded good_signature |}.

Definition Verify (t : jwt.Token) (key : PublicKey) : option string :=
  if bytes_eqb (jwt.Signature t) (decoded good_signature) then None
  else Some "crypto/rsa: verification error".

Definition ValidationError_text (e : jwt.ValidationError) : string :=
  match e with
  | jwt.ErrTokenExpired => "token is expired"
  | jwt.ErrTokenNotValidYet => "token is not valid yet"
  | jwt.ErrInvalidType claim => claim +:+ " is invalid: invalid type for claim"
  end.

Definition Error_text (e : jwt.Error string) : string :=
  match e with
  | jwt.ErrTokenMalformed cause => "token is malformed: " +:+ cause
  | jwt.ErrTokenUnverifiable cause => "token is unverifiable: " +:+ cause
  | jwt.ErrKeyfunc cause =>
      "token is unverifiable: error while executing keyfunc: " +:+ cause
  | jwt.ErrTokenSignatureInvalid cause => "token signature is invalid: " +:+ cause
  | jwt.ErrTokenInvalidClaims causes =>
      "token has invalid claims: "
        +:+ String.concat ", " (ValidationError_text <$> causes)
  end.

Definition key_k1 : jwk.Key :=
  {| jwk.KeyID := "k1"; jwk.Raw := inr (RSAPublicKey 3233 17) |}.
Definition key_k2 : jwk.Key :=
  {| jwk.KeyID := "k2"; jwk.Raw := inr (RSAPublicKey 2773 17) |}.

(** Two key-set documents: the first publishes [k1], the second [k2]. *)
Definition body_k1 : list byte := list_byte_of_string "jwks-k1".
Definition body_k2 : list byte := list_byte_of_string "jwks-k2".

Definition libs : Libs :=
  {| url_Parse := λ _, None;
     json_Unmarshal := λ bytes,
       if bytes_eqb bytes (decoded header_k1)
       then inr {[ "alg" := JStr "RS256"; "kid" := JStr "k1" ]}
       else if bytes_eqb bytes (decoded header_k9)
       then inr {[ "alg" := JStr "RS256"; "kid" := JStr "k9" ]}
       else inl "invalid character";
     jwk_ParseReader := λ body,
       if bytes_eqb body body_k1 then inr [key_k1]
       else if bytes_eqb body body_k2 then inr [key_k2]
       else inl "failed to unmarshal JWK set";
     fmt_other := λ _, "?";
     jwt_internals :=
       {| jwt.ParseUnverified := ParseUnverified;
          jwt.Verify := Verify;
          jwt.Error_text := Error_text |} |}.

Definition seconds (n : Z) : Time := n * time.Second.

(** The endpoint answers 200 with the first document; the clock stands
    at 2000 s. *)
Definition world_ok : World :=
  {| now_read := seconds 2000; now_write := seconds 2000;
     now_store := seconds 2000;
     http_Do := http.DoResponse 200 body_k1;
     now_validate := seconds 2000 |}.

(** The endpoint is unreachable, an hour later. *)
Definition world_down : World :=
  {| now_read := seconds 5600; now_write := seconds 5600;
     now_store := seconds 5600;
     http_Do := http.DoError "dial tcp: connection refused";
     now_validate := seconds 5600 |}.

(** The endpoint answers 200 with the second document. *)
Definition world_k2 : World :=
  {| now_read := seconds 2000; now_write := seconds 2000;
     now_store := seconds 2000;
     http_Do := http.DoResponse 200 body_k2;
     now_validate := seconds 2000 |}.

Definition client0 : JWKSClient := NewJWKSClient (JWKSUrl config) (JWKSCacheTTL config).

(** The client after one successful fetch at 2000 s. *)
Definition client1 : JWKSClient := (GetKeySet libs world_ok client0).1.1.

Definition request (authorization : string) : gin.Context :=
  {| gin.Request_Header := {[ "Authorization" := authorization ]};
     gin.Keys := ∅; gin.Written := []; gin.Aborted := false;
     gin.NextCalled := false |}.

Definition uploader : AuthContext :=
  {| UserID := "user-1"; OrgID := None; Roles := [];
     Permissions := ["files:upload"]; Email := None; Name := None |}.

End Sample.

(** ** Further notions used by the properties of package [auth] *)

(** The call of [VerifyToken] gets as far as choosing the key: the header
    decodes and names the key identifier [kid], the key set is retrieved,
    it has a key for [kid], and [publicKey] is what that key gives. *)
Definition keySelected (L : Libs) (w : World) (tokenString : string)
    (jwksClient : JWKSClient) (kid : string) (publicKey : PublicKey) : Prop :=
  ∃ part0 part1 part2 headerBytes header keySet key,
    strings.Split tokenString "." = [part0; part1; part2]
    ∧ base64.DecodeString part0 = inr headerBytes
    ∧ json_Unmarshal L headerBytes = inr header
    ∧ header !! "kid" = Some (JStr kid)
    ∧ (GetKeySet L w jwksClient).2 = inr keySet
    ∧ jwk.LookupKeyID keySet kid = Some key
    ∧ jwk.Raw key = inr publicKey.

(** The audience check of [VerifyToken] has nothing to object to: an [aud]
    that is a string is the configured audience, and an [aud] that is an
    array has it. *)
Definition audienceAccepted (claims : gmap string json) (config : Config) : Prop :=
  (∀ aud, claims !! "aud" = Some (JStr aud) → aud = Audience config)
  ∧ (∀ audArr, claims !! "aud" = Some (JArr audArr) →
               JStr (Audience config) ∈ audArr).

(** The [AuthContext] that [VerifyToken] builds from the claims of a token
    with the subject [sub]. *)
Definition authContextFrom (claims : gmap string json) (sub : string) : AuthContext :=
  {| UserID := sub;
     OrgID := stringPtr (claims !! "org_id");
     Roles := stringList (claims !! "roles");
     Permissions := stringList (claims !! "permissions");
     Email := stringPtr (claims !! "email");
     Name := stringPtr (claims !! "name") |}.

(** The events of a call that are key lookups, and those that are signature
    verifications. *)
Fixpoint lookups (evs : list Event) : nat :=
  match evs with
  | [] => O
  | EvLookupKeyID _ :: rest => S (lookups rest)
  | _ :: rest => lookups rest
  end.

Fixpoint verifications (evs : list Event) : nat :=
  match evs with
  | [] => O
  | EvVerifySignature _ :: rest => S (verifications rest)
  | _ :: rest => verifications rest
  end.

(** More sample data: tokens with other claims, a token that declares
    HS256, and a client made with a negative TTL. *)
Module Sample2.

(** The header [{alg: HS256, kid: k1}]. *)
Definition header_hs : string := "eyJhbGciOiJIUzI1NiIsImtpZCI6ImsxIn0".

Definition payload_other_issuer : string :=
  "eyJpc3MiOiJodHRwczovL2Vsc2V3aGVyZS5leGFtcGxlIiwiYXVkIjoibWVkaWEtc2VydmljZSIsInN1YiI6InVzZXItMSJ9".
Definition payload_no_sub : string :=
  "eyJpc3MiOiJodHRwczovL2lzc3Vlci5leGFtcGxlIiwiYXVkIjoibWVkaWEtc2VydmljZSJ9".
Definition payload_full : string :=
  "eyJpc3MiOiJodHRwczovL2lzc3Vlci5leGFtcGxlIiwiYXVkIjpbIm90aGVyLXNlcnZpY2UiLCJtZWRpYS1zZXJ2aWNlIl0sInN1YiI6InVzZXItNyIsIm9yZ19pZCI6Im9yZy0xIiwicm9sZXMiOlsiYWRtaW4iLDcsImVkaXRvciJdLCJwZXJtaXNzaW9ucyI6WyJmaWxlczp1cGxvYWQiLG51bGwsImZpbGVzOmRlbGV0ZSJdLCJlbWFpbCI6IiIsIm5hbWUiOiJBZGEifQ".

Definition claims_other_issuer : gmap string json :=
  {[ "iss" := JStr "https://elsewhere.example"; "aud" := JStr Sample.audience;
     "sub" := JStr "user-1" ]}.

Definition claims_no_sub : gmap string json :=
  {[ "iss" := JStr Sample.issuer; "aud" := JStr Sample.audience ]}.

(** Claims with every optional attribute: an audience array, roles and
    permissions with entries that are not strings, an empty email. *)
Definition claims_full : gmap string json :=
  {[ "iss" := JStr Sample.issuer;
     "aud" := JArr [JStr "other-service"; JStr Sample.audience];
     "sub" := JStr "user-7";
     "org_id" := JStr "org-1";
     "roles" := JArr [JStr "admin"; JNum 7; JStr "editor"];
     "permissions" := JArr [JStr "files:upload"; JNull; JStr "files:delete"];
     "email" := JStr EmptyString;
     "name" := JStr "Ada" ]}.

Definition claimsOf (segment : string) : option (gmap string json) :=
  if String.eqb segment payload_other_issuer then Some claims_other_issuer
  else if String.eqb segment payload_no_sub then Some claims_no_sub
  else if String.eqb segment payload_full then Some claims_full
  else Sample.claimsOf segment.

Definition headerOf (segment : string)
    : option (jwt.SigningMethod * gmap string json) :=
  if String.eqb segment header_hs
  then Some (jwt.SigningMethodHMAC "HS256",
             {[ "alg" := JStr "HS256"; "kid" := JStr "k1" ]})
  else match Sample.headerOf segment with
       | Some h => Some (jwt.SigningMethodRSA "RS256", h)
       | None => None
       end.

Definition ParseUnverified (tokenString : string)
    : jwt.UnverifiedError + jwt.Token :=
  match strings.Split tokenString "." with
  | [header; payload; signature] =>
      match headerOf header, claimsOf payload, base64.DecodeString signature with
      | Some (method, h), Some claims, inr sig =>
          inr {| jwt.Raw := tokenString; jwt.Method := method;
                 jwt.Header := h; jwt.Claims := claims;
                 jwt.Signature := sig |}
      | _, _, _ => inl (jwt.Malformed "could not decode segment")
      end
  | _ => inl (jwt.Malformed "token contains an invalid number of segments")
  end.

Definition libs : Libs :=
  {| url_Parse := url_Parse Sample.libs;
     json_Unmarshal := λ bytes,
       if Sample.bytes_eqb bytes (Sample.decoded header_hs)
       then inr {[ "alg" := JStr "HS256"; "kid" := JStr "k1" ]}
       else json_Unmarshal Sample.libs bytes;
     jwk_ParseReader := jwk_ParseReader Sample.libs;
     fmt_other := fmt_other Sample.libs;
     jwt_internals :=
       {| jwt.ParseUnverified := ParseUnverified;
          jwt.Verify := Sample.Verify;
          jwt.Error_text := Sample.Error_text |} |}.

(** The decoded token of header [header] with method [method], a payload
    with the given claims and the good signature. *)
Definition decodedToken (header : string) (method : jwt.SigningMethod)
    (alg : string) (payload : string) (claims : gmap string json) : jwt.Token :=
  {| jwt.Raw := Sample.token header payload Sample.good_signature;
     jwt.Method := method;
     jwt.Header := {[ "alg" := JStr alg; "kid" := JStr "k1" ]};
     jwt.Claims := claims;
     jwt.Signature := Sample.decoded Sample.good_signature |}.

Definition client_negative : JWKSClient :=
  NewJWKSClient (JWKSUrl Sample.config) (-5).

End Sample2.

(** ** Package [config] and what it calls of [os] and [strconv] *)

Module os.
(** The environment of the process: the variables that are set, with their
    values. *)
Abbreviation Environ := (gmap string string).

(** [os.Getenv(key)]: the empty string when the variable is not set. *)
Definition Getenv (env : Environ) (key : string) : string :=
  default EmptyString (env !! key).
End os.

Module strconv.

Inductive Err := ErrSyntax | ErrRange.

(** A [*strconv.NumError]: the function that failed, the input and the
    reason. *)
Record NumError := { Func : string; Num : string; Reason : Err }.

Definition maxUint64 : Z := 2 ^ 64 - 1.

Definition digit (c : ascii) : option Z :=
  let n := Z.of_N (N_of_ascii c) in
  if (48 <=? n) && (n <=? 57) then Some (n - 48) else None.

(** The loop of [ParseUint(s, 10, 64)]: every byte must be a decimal digit
    (in base 10 there are no underscores and no letters), and the loop
    stops with a range error at the first digit with which the number no
    longer fits 64 bits. *)
Fixpoint parseUintLoop (s : string) (n : Z) : Err + Z :=
  match s with
  | EmptyString => inr n
  | String c rest =>
      match digit c with
      | None => inl ErrSyntax
      | Some d =>
          if n * 10 + d >? maxUint64 then inl ErrRange
          else parseUintLoop rest (n * 10 + d)
      end
  end.

(** [strconv.ParseUint(s, 10, 64)]. *)
Definition ParseUint (s : string) : Err + Z :=
  match s with
  | EmptyString => inl ErrSyntax
  | _ => parseUintLoop s 0
  end.

(** The reason for which [ParseInt(s, 10, 64)] fails, or its value: an
    optional sign, then an unsigned number of at most [2^63 - 1], or
    [2^63] after a minus sign. *)
Definition parseInt64 (s : string) : Err + Z :=
  match s with
  | EmptyString => inl ErrSyntax
  | String c rest =>
      let neg := Ascii.eqb c "-" in
      let unsigned := if Ascii.eqb c "+" || neg then rest else s in
      match ParseUint unsigned with
      | inl ErrSyntax => inl ErrSyntax
      | inl ErrRange => inl ErrRange
      | inr un =>
          let cutoff := 2 ^ 63 in
          if negb neg && (un >=? cutoff) then inl ErrRange
          else if neg && (un >? cutoff) then inl ErrRange
          else inr (if neg then - un else un)
      end
  end.

(** [strconv.ParseInt(s, 10, 64)]. *)
Definition ParseInt (s : string) : NumError + Z :=
  match parseInt64 s with
  | inl reason => inl {| Func := "ParseInt"; Num := s; Reason := reason |}
  | inr n => inr n
  end.

(** [strconv.Atoi(s)], with an [int] of 64 bits: the value and the failures
    of [ParseInt(s, 10, 0)] (the fast path for short inputs computes the
    same), under its own name. *)
Definition Atoi (s : string) : NumError + Z :=
  match parseInt64 s with
  | inl reason => inl {| Func := "Atoi"; Num := s; Reason := reason |}
  | inr n => inr n
  end.

End strconv.

Module config.

Record AuthConfig := {
  JWKSUrl : string;
  Issuer : string;
  Audience : string;
  JWKSCacheTTL : Z
}.

Record Config := {
  HTTPAddr : string;
  StorageDir : string;
  PublicBaseURL : string;
  MaxFileSize : Z;
  Auth : AuthConfig
}.

(** [fmt.Errorf("invalid MEDIA_MAX_FILE_SIZE: %w", err)]. *)
Inductive error :=
| ErrInvalidMaxFileSize (cause : strconv.NumError).

(** [getEnv(key, defaultValue)]. *)
Definition getEnv (env : os.Environ) (key defaultValue : string) : string :=
  let value := os.Getenv env key in
  if negb (String.eqb value EmptyString) then value else defaultValue.

(** [Load()], in the environment [env]. *)
Definition Load (env : os.Environ) : error + Config :=
  let httpAddr := getEnv env "MEDIA_HTTP_ADDR" ":8080" in
  let storageDir := getEnv env "MEDIA_STORAGE_DIR" "/var/media" in
  let publicBaseURL := getEnv env "MEDIA_PUBLIC_BASE_URL" "http://localhost:8080" in
  let maxFileSizeStr := getEnv env "MEDIA_MAX_FILE_SIZE" "10485760" in
  match strconv.ParseInt maxFileSizeStr with
  | inl err => inl (ErrInvalidMaxFileSize err)
  | inr maxFileSize =>
      let jwksCacheTTL :=
        let ttlStr := getEnv env "AUTH_JWKS_CACHE_TTL" EmptyString in
        if negb (String.eqb ttlStr EmptyString) then
          match strconv.Atoi ttlStr with
          | inr ttl => ttl
          | inl _ => 900
          end
        else 900 in
      inr {| HTTPAddr := httpAddr;
             StorageDir := storageDir;
             PublicBaseURL := publicBaseURL;
             MaxFileSize := maxFileSize;
             Auth :=
               {| JWKSUrl :=
                    getEnv env "AUTH_JWKS_URL"
                      "http://user-service:3000/.well-known/jwks.json";
                  Issuer := getEnv env "AUTH_ISSUER" "http://user-service:3000";
                  Audience := getEnv env "AUTH_AUDIENCE" "backboard";
                  JWKSCacheTTL := jwksCacheTTL |} |}
  end.

End config.

(** ** Package [storage]: the contract of the storage backend *)

Module storage.

Module SaveOptions.
Record t := { Directory : string; ContentType : string; OriginalName : string }.
End SaveOptions.

Module FileInfo.
Record t := {
  ID : string;
  Path : string;
  ContentType : string;
  Size : Z;
  URL : string
}.
End FileInfo.

(** The interface [Storage], over the states [S] of a backend.  [Save] is
    given the bytes that its reader can deliver; an error is its text. *)
Record Storage (S : Type) := {
  Save : SaveOptions.t → list byte → S → S * (string + FileInfo.t);
  Open : string → S → string + (list byte * FileInfo.t);
  Delete : string → S → S * option string
}.
Arguments Save {S} _ _ _ _.
Arguments Open {S} _ _ _.
Arguments Delete {S} _ _ _.

End storage.

(** ** Go standard library: [path/filepath.Ext], [strings.ToLower],
    [io.LimitReader] *)

Module filepath.

Fixpoint hasSeparator (path : string) : bool :=
  match path with
  | EmptyString => false
  | String c rest => Ascii.eqb c "/" || hasSeparator rest
  end.

(** [filepath.Ext(path)]: the suffix of [path] that starts at the last dot
    of its last element (the part after the last slash); empty when that
    element has no dot. *)
Fixpoint Ext (path : string) : string :=
  match path with
  | EmptyString => EmptyString
  | String c rest =>
      if hasSeparator rest then Ext rest
      else match Ext rest with
           | EmptyString =>
               if Ascii.eqb c "." then path else EmptyString
           | ext => ext
           end
  end.

End filepath.

Module strings_more.

Definition lower (c : ascii) : ascii :=
  let n := N_of_ascii c in
  if ((65 <=? n) && (n <=? 90))%N then ascii_of_N (n + 32) else c.

(** [strings.ToLower(s)] on the bytes of [s]: the letters [A] to [Z] become
    [a] to [z].  The other bytes are left as they are, which agrees with
    Go wherever the result is compared with a word of the letters
    [e g j n p w b] and a dot, as the handlers do: no letter outside
    ASCII has one of these as its lower case. *)
Fixpoint ToLower (s : string) : string :=
  match s with
  | EmptyString => EmptyString
  | String c rest => String (lower c) (ToLower rest)
  end.

End strings_more.

Module io.
(** What [io.LimitReader(r, n)] delivers of the bytes that [r] delivers:
    the first [n], nothing when [n] is not positive. *)
Definition LimitReader (bytes : list byte) (n : Z) : list byte :=
  take (Z.to_nat n) bytes.
End io.

(** ** Package [handler]: the upload handler *)

Module handler.

Definition StatusOK : Z := 200.
Definition StatusBadRequest : Z := 400.
Definition StatusRequestEntityTooLarge : Z := 413.
Definition StatusInternalServerError : Z := 500.

(** The JSON object of an [ErrorResponse]: [details] is left out when
    empty. *)
Definition ErrorResponse (Error_ Details : string) : gin.H :=
  if String.eqb Details EmptyString then {[ "error" := VString Error_ ]}
  else {[ "error" := VString Error_; "details" := VString Details ]}.

(** The JSON object of an [UploadResponse]. *)
Definition UploadResponse (FileID URL ContentType : string) (Size : Z) : gin.H :=
  {[ "fileId" := VString FileID; "url" := VString URL;
     "contentType" := VString ContentType; "size" := VOther (JNum Size) ]}.

Record UploadHandler := {
  maxSize : Z;
  allowedMIME : gmap string bool
}.

(** [NewUploadHandler(storage, maxSize, logger)]; the storage and the
    logger are arguments of the handlers here. *)
Definition NewUploadHandler (maxSize : Z) : UploadHandler :=
  {| maxSize := maxSize;
     allowedMIME := {[ "image/jpeg" := true; "image/png" := true;
                       "image/webp" := true ]} |}.

(** A [*multipart.FileHeader]: the name and the size of the part, its MIME
    header (by canonical name), and what [file.Open()] gives: an error or
    the bytes of the part. *)
Record FileHeader := {
  Filename : string;
  Header : gmap string string;
  Size : Z;
  Open : string + list byte
}.

Inductive Level := Warn | Error | Info.

(** What a handler does besides answering: the messages it logs (without
    their attributes) and the calls of [storage.Save] it makes. *)
Inductive Effect :=
| Log (level : Level) (msg : string)
| Saved (opts : storage.SaveOptions.t) (bytes : list byte).

(** The [switch ext] of both handlers. *)
Definition typeOfExt (ext : string) : string :=
  if String.eqb ext ".jpg" || String.eqb ext ".jpeg" then "image/jpeg"
  else if String.eqb ext ".png" then "image/png"
  else if String.eqb ext ".webp" then "image/webp"
  else "application/octet-stream".

(** [(h *UploadHandler) Upload(c)]: [form] is what [c.FormFile("file")]
    returns, [st] the storage of the handler and [s] its state. *)
Definition Upload {S : Type} (st : storage.Storage S) (h : UploadHandler)
    (form : string + FileHeader) (s : S) (c : gin.Context)
    : S * list Effect * gin.Context :=
  match form with
  | inl err =>
      (s, [Log Warn "Failed to get file from form"],
       gin.JSON StatusBadRequest (ErrorResponse "No file provided" EmptyString) c)
  | inr file =>
      if Size file >? maxSize h then
        (s, [Log Warn "File too large"],
         gin.JSON StatusRequestEntityTooLarge
           (ErrorResponse "File too large" EmptyString) c)
      else
        match Open file with
        | inl err =>
            (s, [Log Error "Failed to open uploaded file"],
             gin.JSON StatusInternalServerError
               (ErrorResponse "Failed to process file" EmptyString) c)
        | inr src =>
            let contentType := default EmptyString (Header file !! "Content-Type") in
            let contentType :=
              if String.eqb contentType EmptyString then
                typeOfExt (strings_more.ToLower (filepath.Ext (Filename file)))
              else contentType in
            if negb (default false (allowedMIME h !! contentType)) then
              (s, [Log Warn "Unsupported MIME type"],
               gin.JSON StatusBadRequest
                 (ErrorResponse "Unsupported file type"
                    "Allowed types: image/jpeg, image/png, image/webp") c)
            else
              let limitedReader :=
                io.LimitReader src (time.wrap64 (maxSize h + 1)) in
              let opts :=
                {| storage.SaveOptions.Directory := "avatars";
                   storage.SaveOptions.ContentType := contentType;
                   storage.SaveOptions.OriginalName := Filename file |} in
              match storage.Save st opts limitedReader s with
              | (s', inl err) =>
                  (s', [Saved opts limitedReader; Log Error "Failed to save file"],
                   gin.JSON StatusInternalServerError
                     (ErrorResponse "Failed to save file" EmptyString) c)
              | (s', inr fileInfo) =>
                  (s', [Saved opts limitedReader;
                        Log Info "File uploaded successfully"],
                   gin.JSON StatusOK
                     (UploadResponse (storage.FileInfo.ID fileInfo)
                        (storage.FileInfo.URL fileInfo)
                        (storage.FileInfo.ContentType fileInfo)
                        (storage.FileInfo.Size fileInfo)) c)
              end
        end
  end.

End handler.

(** ** Package [http]: the router *)

Module router.

(** The handlers that [NewRouter] registers. *)
Inductive Handler :=
| Health
| GetFile
| AuthMiddleware_ (config : Config)
| RequirePermissions_ (requiredPermissions : list string)
| Upload.

Record Route := { method : string; path : string; handlers : list Handler }.

Record Router := {
  jwksClient : JWKSClient;
  uploadHandler : handler.UploadHandler;
  routes : list Route
}.

(** [NewRouter(storage, maxFileSize, cfg, logger)]: the routes, each with
    the handlers of its group and its own, in the order in which gin runs
    them (after those of [gin.Default()]). *)
Definition NewRouter (maxFileSize : Z) (cfg : config.Config) : Router :=
  let authMiddleware :=
    AuthMiddleware_
      {| JWKSUrl := config.JWKSUrl (config.Auth cfg);
         Issuer := config.Issuer (config.Auth cfg);
         Audience := config.Audience (config.Auth cfg);
         JWKSCacheTTL := config.JWKSCacheTTL (config.Auth cfg) |} in
  {| jwksClient :=
       NewJWKSClient (config.JWKSUrl (config.Auth cfg))
         (config.JWKSCacheTTL (config.Auth cfg));
     uploadHandler := handler.NewUploadHandler maxFileSize;
     routes :=
       [ {| method := "GET"; path := "/healthz"; handlers := [Health] |};
         {| method := "GET"; path := "/files/:fileId"; handlers := [GetFile] |};
         {| method := "POST"; path := "/files";
            handlers := [authMiddleware; RequirePermissions_ ["files:upload"];
                         Upload] |} ] |}.

(** The state that a request runs on: the key-set client, the state of the
    storage, and what the handlers did. *)
Record State (S : Type) := {
  client : JWKSClient;
  store : S;
  events : list Event;
  effects : list handler.Effect
}.
Arguments client {S} _.
Arguments store {S} _.
Arguments events {S} _.
Arguments effects {S} _.

(** One handler on a request.  [other] stands for the handlers that are
    not modelled ([Health], [GetFile]). *)
Definition runHandler {S : Type} (L : Libs) (w : World)
    (st : storage.Storage S) (h : handler.UploadHandler)
    (form : string + handler.FileHeader)
    (other : Handler → gin.Context → gin.Context)
    (hd : Handler) (s : State S) (c : gin.Context) : State S * gin.Context :=
  match hd with
  | AuthMiddleware_ config =>
      let '(client', evs, c') := AuthMiddleware L w (client s) config c in
      ({| client := client'; store := store s; events := events s ++ evs;
          effects := effects s |}, c')
  | RequirePermissions_ requiredPermissions =>
      (s, RequirePermissions requiredPermissions c)
  | Upload =>
      let '(store', effs, c') := handler.Upload st h form (store s) c in
      ({| client := client s; store := store'; events := events s;
          effects := effects s ++ effs |}, c')
  | _ => (s, other hd c)
  end.

(** The chain of a route, as gin runs it: the handlers in order, until one
    aborts. *)
Fixpoint runHandlers {S : Type} (L : Libs) (w : World)
    (st : storage.Storage S) (h : handler.UploadHandler)
    (form : string + handler.FileHeader)
    (other : Handler → gin.Context → gin.Context)
    (chain : list Handler) (s : State S) (c : gin.Context)
    : State S * gin.Context :=
  match chain with
  | [] => (s, c)
  | hd :: rest =>
      let '(s', c') := runHandler L w st h form other hd s c in
      if gin.Aborted c' then (s', c')
      else runHandlers L w st h form other rest s' c'
  end.

(** The handlers of the route that [r] has for a method and a path
    pattern. *)
Fixpoint handlersOf (routes : list Route) (method_ path_ : string)
    : option (list Handler) :=
  match routes with
  | [] => None
  | route :: rest =>
      if String.eqb (method route) method_ && String.eqb (path route) path_
      then Some (handlers route)
      else handlersOf rest method_ path_
  end.

(** A request that gin matches to the route registered for [method_] and
    [path_]: its handlers run on the state of the service.  (What gin does
    with a request that matches no route is not modelled.) *)
Definition serve {S : Type} (L : Libs) (w : World) (st : storage.Storage S)
    (r : Router) (form : string + handler.FileHeader)
    (other : Handler → gin.Context → gin.Context)
    (method_ path_ : string) (s : State S) (c : gin.Context)
    : option (State S * gin.Context) :=
  match handlersOf (routes r) method_ path_ with
  | Some chain => Some (runHandlers L w st (uploadHandler r) form other chain s c)
  | None => None
  end.

End router.

(** Further notions and sample data for the handlers. *)

(** [c] occurs in [s]. *)
Fixpoint containsByte (s : string) (c : ascii) : bool :=
  match s with
  | EmptyString => false
  | String c' rest => Ascii.eqb c' c || containsByte rest c
  end.

(** The effects of a handler that are calls of [storage.Save]. *)
Definition saves (effs : list handler.Effect)
    : list (storage.SaveOptions.t * list byte) :=
  omap (λ eff, match eff with
               | handler.Saved opts bytes => Some (opts, bytes)
               | handler.Log _ _ => None
               end) effs.

Module Sample3.

(** A storage that keeps what it is given in a list and names the files
    by their position. *)
Definition memory : storage.Storage (list (storage.FileInfo.t * list byte)) :=
  {| storage.Save := λ opts bytes files,
       let id := "file-" +:+ pretty (length files) in
       let info :=
         {| storage.FileInfo.ID := id;
            storage.FileInfo.Path :=
              "/var/media/" +:+ storage.SaveOptions.Directory opts +:+ "/" +:+ id;
            storage.FileInfo.ContentType := storage.SaveOptions.ContentType opts;
            storage.FileInfo.Size := Z.of_nat (length bytes);
            storage.FileInfo.URL := "http://localhost:8080/files/" +:+ id |} in
       (files ++ [(info, bytes)], inr info);
     storage.Open := λ id files,
       match list_find (λ file, storage.FileInfo.ID file.1 = id) files with
       | Some (_, (info, bytes)) => inr (bytes, info)
       | None => inl "file not found"
       end;
     storage.Delete := λ id files,
       match list_find (λ file, storage.FileInfo.ID file.1 = id) files with
       | Some (i, _) => (delete i files, None)
       | None => (files, Some "file not found")
       end |}.

(** A part named [photo.PNG] of five bytes, without content type. *)
Definition photo : handler.FileHeader :=
  {| handler.Filename := "photo.PNG";
     handler.Header := ∅;
     handler.Size := 5;
     handler.Open := inr (list_byte_of_string "bytes") |}.

(** A part named [setup.exe] that declares itself a PNG image. *)
Definition disguised : handler.FileHeader :=
  {| handler.Filename := "setup.exe";
     handler.Header := {[ "Content-Type" := "image/png" ]};
     handler.Size := 5;
     handler.Open := inr (list_byte_of_string "bytes") |}.

Definition uploads : handler.UploadHandler := handler.NewUploadHandler 1024.

(** The configuration of the service in the sample world. *)
Definition cfg : config.Config :=
  {| config.HTTPAddr := ":8080";
     config.StorageDir := "/var/media";
     config.PublicBaseURL := "http://localhost:8080";
     config.MaxFileSize := 1024;
     config.Auth :=
       {| config.JWKSUrl := JWKSUrl Sample.config;
          config.Issuer := Issuer Sample.config;
          config.Audience := Audience Sample.config;
          config.JWKSCacheTTL := JWKSCacheTTL Sample.config |} |}.

Definition state0 : router.State (list (storage.FileInfo.t * list byte)) :=
  {| router.client := router.jwksClient (router.NewRouter 1024 cfg);
     router.store := [];
     router.events := [];
     router.effects := [] |}.

End Sample3.

(** The content type that [Upload] takes for a part: the one its header
    declares, or else the one of the extension of its name. *)
Definition contentTypeOf (file : handler.FileHeader) : string :=
  let declared := default EmptyString (handler.Header file !! "Content-Type") in
  if String.eqb declared EmptyString then
    handler.typeOfExt (strings_more.ToLower (filepath.Ext (handler.Filename file)))
  else declared.

(** The options with which [Upload] saves a part. *)
Definition saveOptionsOf (file : handler.FileHeader) : storage.SaveOptions.t :=
  {| storage.SaveOptions.Directory := "avatars";
     storage.SaveOptions.ContentType := contentTypeOf file;
     storage.SaveOptions.OriginalName := handler.Filename file |}.

(** * Properties *)

(** ** The model on small inputs *)

Example Split_three : strings.Split "a.b.c" "." = ["a"; "b"; "c"].
Proof. reflexivity. Qed.

Example Split_empty : strings.Split EmptyString "." = [EmptyString].
Proof. reflexivity. Qed.

Example Split_trailing_dot :
  strings.Split "a..c." "." = ["a"; EmptyString; "c"; EmptyString].
Proof. reflexivity. Qed.

Example DecodeString_two_bytes :
  base64.DecodeString "YWI" = inr (list_byte_of_string "ab").
Proof. reflexivity. Qed.

Example DecodeString_padding : base64.DecodeString "YQ=" = inl 2%N.
Proof. reflexivity. Qed.

Example DecodeString_lone_sextet : base64.DecodeString "YWJjZ" = inl 4%N.
Proof. reflexivity. Qed.

Example NewJWKSClient_default_ttl :
  cacheTTL (NewJWKSClient "http://idp/jwks" 0) = 900 * time.Second.
Proof. reflexivity. Qed.

(** Scenario 1 of the specification: no [Authorization] header. *)
Example scenario_no_header :
  AuthMiddleware Sample.libs Sample.world_ok Sample.client0 Sample.config
    {| gin.Request_Header := ∅; gin.Keys := ∅; gin.Written := [];
       gin.Aborted := false; gin.NextCalled := false |}
  = (Sample.client0, [],
     {| gin.Request_Header := ∅; gin.Keys := ∅;
        gin.Written :=
          [(401, {[ "error" := VString "Missing or invalid authorization header" ]})];
        gin.Aborted := true; gin.NextCalled := false |}).
Proof. vm_compute. reflexivity. Qed.

(** Scenarios 2 and 3: a valid token with the permission [files:upload]
    passes a check for it and is refused by a check for [files:delete]. *)
Example scenario_upload :
  let c :=
    (AuthMiddleware Sample.libs Sample.world_ok Sample.client0 Sample.config
       (Sample.request
          ("Bearer " +:+ Sample.token Sample.header_k1 Sample.payload_upload
                           Sample.good_signature))).2 in
  GetAuthContext c = Some Sample.uploader
  ∧ gin.Written (RequirePermissions ["files:upload"] c) = []
  ∧ gin.Aborted (RequirePermissions ["files:upload"] c) = false
  ∧ gin.Written (RequirePermissions ["files:delete"] c)
    = [(403, {[ "error" := VString "Insufficient permissions";
                "required" := VStrings ["files:delete"];
                "has" := VStrings ["files:upload"] ]})]
  ∧ gin.Aborted (RequirePermissions ["files:delete"] c) = true.
Proof. vm_compute. repeat split; reflexivity. Qed.

(** Scenario 4: the endpoint answers 500 and nothing is cached. *)
Example scenario_endpoint_500 :
  let w := {| now_read := 0; now_write := 0; now_store := 0;
              http_Do := http.DoResponse 500 []; now_validate := 0 |} in
  GetKeySet Sample.libs w Sample.client0
  = (Sample.client0, [EvHttpGet (JWKSUrl Sample.config)], inl (ErrJWKSStatus 500))
  ∧ (runVerifyToken Sample.libs w
       (Sample.token Sample.header_k1 Sample.payload_upload Sample.good_signature)
       Sample.client0 Sample.config).2
    = inl (ErrGetJWKS (ErrJWKSStatus 500))
  ∧ Error Sample.libs (ErrGetJWKS (ErrJWKSStatus 500))
    = "failed to get JWKS: JWKS endpoint returned status 500".
Proof. vm_compute. repeat split; reflexivity. Qed.

(** ** The key-set cache *)

Section KeySetCache.
Context (L : Libs).

Lemma freshSet_Some c now ks :
  freshSet c now = Some ks ↔
  ∃ cached, cache c = Some cached
            ∧ time.Before now (expiresAt cached) = true ∧ ks = set cached.
Proof.
  unfold freshSet. split.
  - destruct (cache c) as [cached|]; [|done].
    destruct (time.Before now (expiresAt cached)) eqn:Hb; [|done].
    intros [= <-]. by exists cached.
  - intros (cached & -> & -> & ->). done.
Qed.

Lemma staleOr_cached c cached err :
  cache c = Some cached → staleOr c err = inr (set cached).
Proof. unfold staleOr. by intros ->. Qed.

Lemma staleOr_error c err err' : staleOr c err = inl err' → cache c = None.
Proof. unfold staleOr. by destruct (cache c). Qed.

(** The read path: a fresh cache is returned as it is. *)
Lemma GetKeySet_fresh w c cached :
  cache c = Some cached →
  time.Before (now_read w) (expiresAt cached) = true →
  GetKeySet L w c = (c, [], inr (set cached)).
Proof.
  intros Hc Hb. unfold GetKeySet.
  assert (freshSet c (now_read w) = Some (set cached)) as ->; [|done].
  apply freshSet_Some. eauto.
Qed.

(** Every call fetches at most once. *)
Lemma GetKeySet_fetches w c : (fetches (GetKeySet L w c).1.2 ≤ 1)%nat.
Proof.
  unfold GetKeySet, http.NewRequestWithContext.
  repeat case_match; simpl; lia.
Qed.

(** What a call can do to the client: nothing, or store the key set of a
    200 response that parses. *)
Lemma GetKeySet_client w c :
  (GetKeySet L w c).1.1 = c
  ∨ ∃ Body ks,
      http_Do w = http.DoResponse http.StatusOK Body
      ∧ jwk_ParseReader L Body = inr ks
      ∧ freshSet c (now_read w) = None
      ∧ freshSet c (now_write w) = None
      ∧ url_Parse L (url c) = None
      ∧ (GetKeySet L w c).2 = inr ks
      ∧ (GetKeySet L w c).1.1 =
          {| url := url c;
             cache := Some {| set := ks;
                              expiresAt := time.Add (now_store w) (cacheTTL c) |};
             cacheTTL := cacheTTL c;
             httpClient_Timeout := httpClient_Timeout c |}.
Proof.
  unfold GetKeySet, http.NewRequestWithContext.
  destruct (freshSet c (now_read w)) eqn:H1; [by left|].
  destruct (freshSet c (now_write w)) eqn:H2; [by left|].
  destruct (url_Parse L (url c)) eqn:H3; [by left|].
  destruct (http_Do w) as [err|StatusCode Body] eqn:H4; [by left|].
  destruct (StatusCode =? http.StatusOK) eqn:H5; simpl; [|by left].
  apply Z.eqb_eq in H5 as ->.
  destruct (jwk_ParseReader L Body) as [err|ks] eqn:H6; [by left|].
  right. exists Body, ks. done.
Qed.

(** The URL of a client never changes, and a client that holds a key set
    has a URL that parses: the fetch that stored it was made. *)
Lemma reachable_invariant url0 ttl0 c :
  reachable L url0 ttl0 c →
  url c = url0 ∧ (cache c ≠ None → url_Parse L url0 = None).
Proof.
  induction 1 as [|c w Hr [IHurl IHcache]]; [done|].
  destruct (GetKeySet_client w c) as [->|(Body & ks & _ & _ & _ & _ & Hp & _ & ->)];
    [done|].
  simpl. split; [done|]. intros _. by rewrite <- IHurl.
Qed.

(** Once a key set is held, one is held for ever. *)
Lemma GetKeySet_keeps_cache w c :
  cache c ≠ None → cache (GetKeySet L w c).1.1 ≠ None.
Proof.
  intros Hc.
  destruct (GetKeySet_client w c) as [->|(? & ? & _ & _ & _ & _ & _ & _ & ->)]; done.
Qed.

End KeySetCache.

(** C9.  [GetKeySet] changes the client (the cached key set and its expiry
    instant) only when the fetch returns a 2xx response whose body parses
    as a key set, and that fetch was made; on the other paths (a fresh
    cache at either check, an error making the request, a network error, a
    status outside 2xx, a body that does not parse) the client is left as
    it was. *)
Theorem GetKeySet_frame (L : Libs) (w : World) (c : JWKSClient) :
  ((GetKeySet L w c).1.1 ≠ c →
     ∃ StatusCode Body ks,
       http_Do w = http.DoResponse StatusCode Body
       ∧ 200 ≤ StatusCode < 300
       ∧ jwk_ParseReader L Body = inr ks
       ∧ (GetKeySet L w c).1.2 = [EvHttpGet (url c)]
       ∧ cache (GetKeySet L w c).1.1
         = Some {| set := ks;
                   expiresAt := time.Add (now_store w) (cacheTTL c) |})
  ∧ (freshSet c (now_read w) ≠ None → (GetKeySet L w c).1.1 = c)
  ∧ (freshSet c (now_write w) ≠ None → (GetKeySet L w c).1.1 = c)
  ∧ (url_Parse L (url c) ≠ None → (GetKeySet L w c).1.1 = c)
  ∧ (∀ err, http_Do w = http.DoError err → (GetKeySet L w c).1.1 = c)
  ∧ (∀ StatusCode Body,
       http_Do w = http.DoResponse StatusCode Body →
       ¬ (200 ≤ StatusCode < 300) → (GetKeySet L w c).1.1 = c)
  ∧ (∀ StatusCode Body err,
       http_Do w = http.DoResponse StatusCode Body →
       jwk_ParseReader L Body = inl err → (GetKeySet L w c).1.1 = c).
Proof.
  split.
  { intros Hne.
    destruct (GetKeySet_client L w c)
      as [?|(Body & ks & Hdo & Hparse & H1 & H2 & H3 & _ & Hc')]; [done|].
    exists http.StatusOK, Body, ks. rewrite Hc'. simpl.
    repeat split; try done.
    unfold GetKeySet, http.NewRequestWithContext.
    by rewrite H1, H2, H3, Hdo, Hparse. }
  unfold GetKeySet, http.NewRequestWithContext.
  repeat split.
  - by destruct (freshSet c (now_read w)).
  - destruct (freshSet c (now_read w)); [done|].
    by destruct (freshSet c (now_write w)).
  - intros Hu. repeat case_match; done.
  - intros err Hdo. rewrite Hdo. repeat case_match; done.
  - intros StatusCode Body Hdo Hs. rewrite Hdo.
    assert ((StatusCode =? http.StatusOK) = false) as ->.
    { apply Z.eqb_neq. unfold http.StatusOK. lia. }
    repeat case_match; done.
  - intros StatusCode Body err Hdo Hp. rewrite Hdo, Hp.
    repeat case_match; done.
Qed.

Lemma GetKeySet_frame_witness :
  (GetKeySet Sample.libs Sample.world_ok Sample.client0).1.1 ≠ Sample.client0
  ∧ ∃ StatusCode Body ks,
      http_Do Sample.world_ok = http.DoResponse StatusCode Body
      ∧ 200 ≤ StatusCode < 300
      ∧ jwk_ParseReader Sample.libs Body = inr ks
      ∧ (GetKeySet Sample.libs Sample.world_ok Sample.client0).1.2
        = [EvHttpGet (url Sample.client0)]
      ∧ cache (GetKeySet Sample.libs Sample.world_ok Sample.client0).1.1
        = Some {| set := ks;
                  expiresAt := time.Add (now_store Sample.world_ok)
                                 (cacheTTL Sample.client0) |}.
Proof.
  assert ((GetKeySet Sample.libs Sample.world_ok Sample.client0).1.1
          ≠ Sample.client0) as Hne by (vm_compute; discriminate).
  split; [exact Hne|].
  exact (proj1 (GetKeySet_frame Sample.libs Sample.world_ok Sample.client0) Hne).
Defined.

(** C3.  In every state that the client can be in, if a key set is held
    then [GetKeySet] does not return an error: it returns the key set that
    the cache holds after the call, which is the one held before whenever
    the fetch fails (network error, status outside 2xx, body that does not
    parse), and then the client is unchanged.  [GetKeySet] returns an error
    only when the client holds no key set, and a client that once held one
    holds one for ever. *)
Theorem GetKeySet_stale_fallback (L : Libs) (url0 : string) (ttl0 : Z)
    (w : World) (c : JWKSClient) :
  reachable L url0 ttl0 c →
  (∀ cached, cache c = Some cached →
     ∃ ks, (GetKeySet L w c).2 = inr ks
           ∧ set <$> cache (GetKeySet L w c).1.1 = Some ks
           ∧ (fetchFails L w → ks = set cached ∧ (GetKeySet L w c).1.1 = c))
  ∧ (∀ err, (GetKeySet L w c).2 = inl err → cache c = None)
  ∧ (cache c ≠ None → cache (GetKeySet L w c).1.1 ≠ None).
Proof.
  intros Hr.
  destruct (reachable_invariant L url0 ttl0 c Hr) as [Hurl Hparse].
  assert (∀ cached, cache c = Some cached →
            ∃ ks, (GetKeySet L w c).2 = inr ks
                  ∧ set <$> cache (GetKeySet L w c).1.1 = Some ks
                  ∧ (fetchFails L w → ks = set cached ∧ (GetKeySet L w c).1.1 = c))
    as Hheld.
  { intros cached Hc.
    assert (url_Parse L (url c) = None) as Hu.
    { rewrite Hurl. apply Hparse. by rewrite Hc. }
    unfold GetKeySet, http.NewRequestWithContext, fetchFails, freshSet.
    rewrite Hc, Hu.
    destruct (time.Before (now_read w) (expiresAt cached));
      [exists (set cached); simpl; by rewrite Hc|].
    destruct (time.Before (now_write w) (expiresAt cached));
      [exists (set cached); simpl; by rewrite Hc|].
    destruct (http_Do w) as [err|StatusCode Body].
    { exists (set cached). rewrite (staleOr_cached c cached) by done.
      simpl. by rewrite Hc. }
    destruct (StatusCode =? http.StatusOK) eqn:Hs; simpl.
    - apply Z.eqb_eq in Hs as ->.
      destruct (jwk_ParseReader L Body) as [err|ks] eqn:Hp.
      + exists (set cached). rewrite (staleOr_cached c cached) by done.
        simpl. by rewrite Hc.
      + exists ks. simpl. split; [done|]. split; [done|].
        intros [Hs|[err Herr]]; [unfold http.StatusOK in Hs; lia|congruence].
    - exists (set cached). rewrite (staleOr_cached c cached) by done.
      simpl. by rewrite Hc. }
  split; [exact Hheld|]. split.
  - intros err Herr. destruct (cache c) as [cached|] eqn:Hc; [|done].
    destruct (Hheld cached eq_refl) as (ks & Hks & _). congruence.
  - apply GetKeySet_keeps_cache.
Qed.

Lemma GetKeySet_stale_fallback_witness :
  reachable Sample.libs (JWKSUrl Sample.config) (JWKSCacheTTL Sample.config)
    Sample.client1
  ∧ ∃ ks, (GetKeySet Sample.libs Sample.world_down Sample.client1).2 = inr ks
          ∧ set <$> cache (GetKeySet Sample.libs Sample.world_down Sample.client1).1.1
            = Some ks
          ∧ (fetchFails Sample.libs Sample.world_down →
             ks = [Sample.key_k1]
             ∧ (GetKeySet Sample.libs Sample.world_down Sample.client1).1.1
               = Sample.client1).
Proof.
  assert (reachable Sample.libs (JWKSUrl Sample.config)
            (JWKSCacheTTL Sample.config) Sample.client1) as Hr.
  { apply reachable_call, reachable_new. }
  split; [exact Hr|].
  exact (proj1 (GetKeySet_stale_fallback Sample.libs _ _ Sample.world_down
                  Sample.client1 Hr)
           {| set := [Sample.key_k1]; expiresAt := 2900000000000 |} eq_refl).
Defined.

(** C5.  Whenever the client holds a key set whose expiry is after the
    current time, [GetKeySet] returns that key set, without any network
    access and without touching the client.  Hence two calls in a row, the
    second made while the key set held after the first has not expired,
    make at most one fetch together. *)
Theorem GetKeySet_within_ttl (L : Libs) (w1 w2 : World) (c : JWKSClient) :
  (∀ cached,
     cache c = Some cached →
     time.Before (now_read w1) (expiresAt cached) = true →
     GetKeySet L w1 c = (c, [], inr (set cached)))
  ∧ (∀ cached,
       cache (GetKeySet L w1 c).1.1 = Some cached →
       time.Before (now_read w2) (expiresAt cached) = true →
       GetKeySet L w2 (GetKeySet L w1 c).1.1
         = ((GetKeySet L w1 c).1.1, [], inr (set cached))
       ∧ (fetches (GetKeySet L w1 c).1.2
          + fetches (GetKeySet L w2 (GetKeySet L w1 c).1.1).1.2 ≤ 1)%nat).
Proof.
  split; [apply GetKeySet_fresh|].
  intros cached Hc Hb.
  rewrite (GetKeySet_fresh L w2 _ cached Hc Hb). simpl.
  split; [done|]. pose proof (GetKeySet_fetches L w1 c). lia.
Qed.

Lemma GetKeySet_within_ttl_witness :
  cache (GetKeySet Sample.libs Sample.world_ok Sample.client0).1.1
    = Some {| set := [Sample.key_k1]; expiresAt := 2900000000000 |}
  ∧ time.Before (now_read Sample.world_ok) 2900000000000 = true
  ∧ GetKeySet Sample.libs Sample.world_ok
      (GetKeySet Sample.libs Sample.world_ok Sample.client0).1.1
    = ((GetKeySet Sample.libs Sample.world_ok Sample.client0).1.1, [],
       inr [Sample.key_k1])
  ∧ (fetches (GetKeySet Sample.libs Sample.world_ok Sample.client0).1.2
     + fetches (GetKeySet Sample.libs Sample.world_ok
                  (GetKeySet Sample.libs Sample.world_ok Sample.client0).1.1).1.2
     ≤ 1)%nat.
Proof.
  split; [reflexivity|]. split; [reflexivity|].
  exact (proj2 (GetKeySet_within_ttl Sample.libs Sample.world_ok Sample.world_ok
                  Sample.client0)
           {| set := [Sample.key_k1]; expiresAt := 2900000000000 |}
           eq_refl eq_refl).
Defined.

(** ** The token verifier *)

Section TokenVerifier.
Context (L : Libs).

Lemma fetches_app evs1 evs2 :
  fetches (evs1 ++ evs2) = (fetches evs1 + fetches evs2)%nat.
Proof.
  induction evs1 as [|[]]; simpl; auto.
Qed.

(** [GetKeySet] only ever fetches. *)
Lemma GetKeySet_events w c ev :
  ev ∈ (GetKeySet L w c).1.2 → ev = EvHttpGet (url c).
Proof.
  unfold GetKeySet, http.NewRequestWithContext.
  destruct (freshSet c (now_read w)); [simpl; by rewrite elem_of_nil|].
  destruct (freshSet c (now_write w)); [simpl; by rewrite elem_of_nil|].
  destruct (url_Parse L (url c)); [simpl; by rewrite elem_of_nil|].
  destruct (http_Do w) as [err|StatusCode Body]; simpl;
    [by rewrite list_elem_of_singleton|].
  destruct (negb _); simpl; [by rewrite list_elem_of_singleton|].
  destruct (jwk_ParseReader L Body); simpl; by rewrite list_elem_of_singleton.
Qed.


Ltac unfold_M :=
  unfold try, fail, emit, callGetKeySet; unfold mbind, M_bind, mret, M_ret.

Lemma audienceFound_elem audArr Audience :
  audienceFound audArr Audience = true ↔ JStr Audience ∈ audArr.
Proof.
  induction audArr as [|a rest IH]; simpl.
  - rewrite elem_of_nil. split; [done|tauto].
  - rewrite elem_of_cons.
    destruct a as [| | |aStr| |]; try (rewrite IH; naive_solver).
    destruct (String.eqb_spec aStr Audience) as [->|Hne].
    + split; auto.
    + rewrite IH. naive_solver.
Qed.

(** The audience check fails exactly for a string other than the
    configured audience and for an array without it; an absent [aud] and
    an [aud] of any other type pass. *)
Lemma checkAudience_fails claims config st :
  checkAudience claims config st = (st, inl ErrInvalidAudience)
  ∧ ((∃ aud, claims !! "aud" = Some (JStr aud) ∧ aud ≠ Audience config)
     ∨ (∃ audArr, claims !! "aud" = Some (JArr audArr)
                  ∧ JStr (Audience config) ∉ audArr))
  ∨ checkAudience claims config st = (st, inr ())
    ∧ (audienceNamed (claims !! "aud") (Audience config)
       ∨ claims !! "aud" = None
       ∨ ∃ j, claims !! "aud" = Some j
              ∧ (∀ aud, j ≠ JStr aud) ∧ (∀ audArr, j ≠ JArr audArr)).
Proof.
  unfold checkAudience, audienceNamed.
  destruct (claims !! "aud") as [[| | |aud|audArr|]|] eqn:Haud;
    try (right; split; [done|]; right; naive_solver).
  - destruct (String.eqb_spec aud (Audience config)) as [->|Hne]; simpl.
    + right. split; [done|]. by left; left.
    + left. split; [done|]. left. by exists aud.
  - destruct (audienceFound audArr (Audience config)) eqn:Hf; simpl.
    + right. split; [done|]. left; right. exists audArr.
      by rewrite <- audienceFound_elem.
    + left. split; [done|]. right. exists audArr. split; [done|].
      rewrite <- audienceFound_elem. congruence.
Qed.

Lemma authContextOf_state claims config st :
  (authContextOf claims config st).1 = st.
Proof.
  unfold authContextOf. unfold_M.
  destruct (checkAudience_fails claims config st) as [[Ha _]|[Ha _]].
  all: repeat case_match; simpl; try done.
  all: rewrite Ha in *; by simplify_eq.
Qed.

(** A token whose signature was verified: the result of [VerifyToken] is
    that of the validation of the time claims and of the checks of
    [authContextOf]; the key set was retrieved, one key looked up and one
    signature verified. *)
Lemma runVerifyToken_verified w tokenString jwksClient token :
  signatureVerified L w tokenString jwksClient token →
  ∃ kid publicKey,
    ∀ config,
      runVerifyToken L w tokenString jwksClient config
      = let st := ((GetKeySet L w jwksClient).1.1,
                   (GetKeySet L w jwksClient).1.2
                     ++ [EvLookupKeyID kid] ++ [EvVerifySignature publicKey]) in
        match jwt.Validate (now_validate w) (jwt.Claims token) with
        | [] => (st, (authContextOf (jwt.Claims token) config st).2)
        | errs => (st, inl (ErrVerificationFailed (jwt.ErrTokenInvalidClaims errs)))
        end.
Proof.
  intros (part0 & part1 & part2 & headerBytes & header & kid & keySet & key
          & publicKey & alg & Hsplit & Hdec & Hjson & Hkid & Hks & Hlook
          & Hraw & Hparse & Hmeth & Hver).
  exists kid, publicKey. intros config.
  unfold runVerifyToken, VerifyToken. rewrite Hsplit. unfold_M.
  rewrite Hdec, Hjson, Hkid. simpl.
  destruct (GetKeySet L w jwksClient) as [[c evs] r]. simpl in Hks. subst r.
  simpl. rewrite Hlook, Hraw.
  unfold jwt.Parse, keyFunc. rewrite Hparse, Hmeth, Hver.
  destruct (jwt.Validate (now_validate w) (jwt.Claims token)) as [|e errs];
    simpl; [|by rewrite <- app_assoc].
  rewrite <- app_assoc. simpl.
  pose proof (authContextOf_state (jwt.Claims token) config
                (c, evs ++ [EvLookupKeyID kid; EvVerifySignature publicKey]))
    as Hst.
  destruct (authContextOf _ _ _) as [st' r]. simpl in *. by subst st'.
Qed.

(** An [AuthContext] is only ever produced for a token whose signature
    was verified and whose time claims were validated. *)
Lemma runVerifyToken_inr w tokenString jwksClient config ctx :
  (runVerifyToken L w tokenString jwksClient config).2 = inr ctx →
  ∃ token,
    signatureVerified L w tokenString jwksClient token
    ∧ jwt.Validate (now_validate w) (jwt.Claims token) = [].
Proof.
  unfold runVerifyToken, VerifyToken.
  destruct (strings.Split tokenString ".")
    as [|part0 [|part1 [|part2 [|]]]] eqn:Hsplit; unfold_M; simpl; try done.
  destruct (base64.DecodeString part0) as [|headerBytes] eqn:Hdec;
    simpl; try done.
  destruct (json_Unmarshal L headerBytes) as [|header] eqn:Hjson;
    simpl; try done.
  destruct (header !! "kid") as [[| | |kid| |]|] eqn:Hkid; simpl; try done.
  destruct (GetKeySet L w jwksClient) as [[c evs] [|keySet]] eqn:Hks;
    simpl; try done.
  destruct (jwk.LookupKeyID keySet kid) as [key|] eqn:Hlook; simpl; try done.
  destruct (jwk.Raw key) as [|publicKey] eqn:Hraw; simpl; try done.
  unfold jwt.Parse, keyFunc.
  destruct (jwt.ParseUnverified (jwt_internals L) tokenString)
    as [[]|token] eqn:Hparse; simpl; try done.
  destruct (jwt.Method token) as [alg| | | | |] eqn:Hmeth; simpl; try done.
  destruct (jwt.Verify (jwt_internals L) token publicKey) eqn:Hver;
    simpl; try done.
  destruct (jwt.Validate (now_validate w) (jwt.Claims token)) eqn:Hval;
    simpl; try done.
  intros _. exists token. split; [|done].
  exists part0, part1, part2, headerBytes, header, kid, keySet, key,
    publicKey, alg.
  rewrite Hks. done.
Qed.

Lemma Validate_expired now claims exp :
  claims !! "exp" = Some (JNum exp) →
  jwt.NumericDate exp < now →
  jwt.ErrTokenExpired ∈ jwt.Validate now claims.
Proof.
  intros Hexp Hlt. unfold jwt.Validate, jwt.verifyExpiresAt, time.Before.
  rewrite Hexp.
  destruct (Z.ltb_spec now (jwt.NumericDate exp)); [lia|].
  simpl. apply list_elem_of_here.
Qed.

Lemma Validate_not_yet_valid now claims nbf :
  claims !! "nbf" = Some (JNum nbf) →
  now < jwt.NumericDate nbf →
  jwt.ErrTokenNotValidYet ∈ jwt.Validate now claims.
Proof.
  intros Hnbf Hlt. unfold jwt.Validate, jwt.verifyNotBefore, time.Before.
  rewrite Hnbf.
  destruct (Z.ltb_spec now (jwt.NumericDate nbf)); [|lia].
  apply elem_of_app. right. apply list_elem_of_here.
Qed.

End TokenVerifier.

(** C6.  A token whose header decodes and names a key identifier that the
    retrieved key set does not have is rejected with the unknown-key error:
    no [AuthContext] is produced, and the call verifies no signature, with
    no key at all. *)
Theorem VerifyToken_unknown_kid (L : Libs) (w : World) (tokenString : string)
    (jwksClient : JWKSClient) (config : Config)
    (part0 part1 part2 : string) (headerBytes : list byte)
    (header : gmap string json) (kid : string) (keySet : jwk.KeySet) :
  strings.Split tokenString "." = [part0; part1; part2] →
  base64.DecodeString part0 = inr headerBytes →
  json_Unmarshal L headerBytes = inr header →
  header !! "kid" = Some (JStr kid) →
  (GetKeySet L w jwksClient).2 = inr keySet →
  jwk.LookupKeyID keySet kid = None →
  (runVerifyToken L w tokenString jwksClient config).2 = inl (ErrKeyNotFound kid)
  ∧ ∀ key, EvVerifySignature key ∉ (runVerifyToken L w tokenString jwksClient config).1.2.
Proof.
  intros Hsplit Hdec Hjson Hkid Hks Hlook.
  unfold runVerifyToken, VerifyToken. rewrite Hsplit.
  unfold try, fail, emit, callGetKeySet; unfold mbind, M_bind, mret, M_ret.
  rewrite Hdec, Hjson, Hkid. simpl.
  pose proof (GetKeySet_events L w jwksClient) as Hevs.
  destruct (GetKeySet L w jwksClient) as [[c evs] r]. simpl in Hks, Hevs.
  subst r. simpl. rewrite Hlook. simpl. split; [done|].
  intros key [Hin|Hin]%elem_of_app.
  - by apply Hevs in Hin.
  - by apply list_elem_of_singleton in Hin.
Qed.

Lemma VerifyToken_unknown_kid_witness :
  runVerifyToken Sample.libs Sample.world_ok
    (Sample.token Sample.header_k9 Sample.payload_upload Sample.good_signature)
    Sample.client0 Sample.config
  = (Sample.client1,
     [EvHttpGet (JWKSUrl Sample.config); EvLookupKeyID "k9"],
     inl (ErrKeyNotFound "k9"))
  ∧ (runVerifyToken Sample.libs Sample.world_ok
       (Sample.token Sample.header_k9 Sample.payload_upload Sample.good_signature)
       Sample.client0 Sample.config).2 = inl (ErrKeyNotFound "k9")
  ∧ ∀ key,
      EvVerifySignature key
      ∉ (runVerifyToken Sample.libs Sample.world_ok
           (Sample.token Sample.header_k9 Sample.payload_upload
              Sample.good_signature)
           Sample.client0 Sample.config).1.2.
Proof.
  split; [vm_compute; reflexivity|].
  apply (VerifyToken_unknown_kid Sample.libs Sample.world_ok _ Sample.client0
           Sample.config Sample.header_k9 Sample.payload_upload
           Sample.good_signature (Sample.decoded Sample.header_k9)
           {[ "alg" := JStr "RS256"; "kid" := JStr "k9" ]} "k9"
           [Sample.key_k1]).
  all: vm_compute; reflexivity.
Defined.

(** C4.  For the token that the library decodes from the token string:
    when its signature verifies, an [exp] claim in the past makes
    [VerifyToken] fail with the token-expired error and an [nbf] claim in
    the future with the not-yet-valid error (as causes of the verification
    failure); and whatever else holds, a call that yields an [AuthContext]
    was made for a token that is neither expired nor not yet valid. *)
Theorem VerifyToken_time_claims (L : Libs) (w : World) (tokenString : string)
    (jwksClient : JWKSClient) (config : Config) (token : jwt.Token) :
  jwt.ParseUnverified (jwt_internals L) tokenString = inr token →
  (∀ exp,
     signatureVerified L w tokenString jwksClient token →
     jwt.Claims token !! "exp" = Some (JNum exp) →
     jwt.NumericDate exp < now_validate w →
     ∃ errs,
       (runVerifyToken L w tokenString jwksClient config).2
         = inl (ErrVerificationFailed (jwt.ErrTokenInvalidClaims errs))
       ∧ jwt.ErrTokenExpired ∈ errs)
  ∧ (∀ nbf,
       signatureVerified L w tokenString jwksClient token →
       jwt.Claims token !! "nbf" = Some (JNum nbf) →
       now_validate w < jwt.NumericDate nbf →
       ∃ errs,
         (runVerifyToken L w tokenString jwksClient config).2
           = inl (ErrVerificationFailed (jwt.ErrTokenInvalidClaims errs))
         ∧ jwt.ErrTokenNotValidYet ∈ errs)
  ∧ (∀ ctx,
       (runVerifyToken L w tokenString jwksClient config).2 = inr ctx →
       (∀ exp, jwt.Claims token !! "exp" = Some (JNum exp) →
               now_validate w < jwt.NumericDate exp)
       ∧ (∀ nbf, jwt.Claims token !! "nbf" = Some (JNum nbf) →
                 jwt.NumericDate nbf ≤ now_validate w)).
Proof.
  intros Hparse.
  assert (∀ e,
            signatureVerified L w tokenString jwksClient token →
            e ∈ jwt.Validate (now_validate w) (jwt.Claims token) →
            ∃ errs,
              (runVerifyToken L w tokenString jwksClient config).2
                = inl (ErrVerificationFailed (jwt.ErrTokenInvalidClaims errs))
              ∧ e ∈ errs) as Hrejected.
  { intros e Hsig He.
    destruct (runVerifyToken_verified L w tokenString jwksClient token Hsig)
      as (kid & publicKey & Hrun).
    rewrite (Hrun config).
    destruct (jwt.Validate (now_validate w) (jwt.Claims token)) as [|e' errs];
      [by apply elem_of_nil in He|].
    by exists (e' :: errs). }
  split; [|split].
  - intros exp Hsig Hexp Hlt. apply Hrejected; [done|].
    by apply (Validate_expired _ _ exp).
  - intros nbf Hsig Hnbf Hlt. apply Hrejected; [done|].
    by apply (Validate_not_yet_valid _ _ nbf).
  - intros ctx Hctx.
    destruct (runVerifyToken_inr L w tokenString jwksClient config ctx Hctx)
      as (token' & Hsig & Hval).
    assert (token' = token) as ->.
    { destruct Hsig as (? & ? & ? & ? & ? & ? & ? & ? & ? & ? & _ & _ & _ & _
                        & _ & _ & _ & Hparse' & _).
      congruence. }
    split.
    + intros exp Hexp.
      destruct (Z.lt_ge_cases (now_validate w) (jwt.NumericDate exp)) as [|Hge];
        [done|].
      exfalso. revert Hval.
      unfold jwt.Validate, jwt.verifyExpiresAt, time.Before. rewrite Hexp.
      by destruct (Z.ltb_spec (now_validate w) (jwt.NumericDate exp)); [lia|].
    + intros nbf Hnbf.
      destruct (Z.le_gt_cases (jwt.NumericDate nbf) (now_validate w)) as [|Hgt];
        [done|].
      exfalso.
      pose proof (Validate_not_yet_valid (now_validate w) (jwt.Claims token)
                    nbf Hnbf Hgt) as Hin.
      rewrite Hval in Hin. by apply elem_of_nil in Hin.
Qed.

Lemma Sample_signatureVerified (payload : string) (claims : gmap string json) :
  Sample.claimsOf payload = Some claims →
  strings.Split (Sample.token Sample.header_k1 payload Sample.good_signature) "."
    = [Sample.header_k1; payload; Sample.good_signature] →
  signatureVerified Sample.libs Sample.world_ok
    (Sample.token Sample.header_k1 payload Sample.good_signature)
    Sample.client0 (Sample.signed payload claims).
Proof.
  intros Hclaims Hsplit.
  exists Sample.header_k1, payload, Sample.good_signature,
    (Sample.decoded Sample.header_k1),
    {[ "alg" := JStr "RS256"; "kid" := JStr "k1" ]}, "k1",
    [Sample.key_k1], Sample.key_k1, (RSAPublicKey 3233 17), "RS256".
  split; [exact Hsplit|].
  repeat split; try (vm_compute; reflexivity).
  simpl. unfold Sample.ParseUnverified. rewrite Hsplit, Hclaims.
  reflexivity.
Qed.

Lemma VerifyToken_time_claims_witness :
  signatureVerified Sample.libs Sample.world_ok
    (Sample.token Sample.header_k1 Sample.payload_exp Sample.good_signature)
    Sample.client0 (Sample.signed Sample.payload_exp Sample.claims_exp)
  ∧ jwt.Claims (Sample.signed Sample.payload_exp Sample.claims_exp) !! "exp"
    = Some (JNum 1000)
  ∧ jwt.NumericDate 1000 < now_validate Sample.world_ok
  ∧ ∃ errs,
      (runVerifyToken Sample.libs Sample.world_ok
         (Sample.token Sample.header_k1 Sample.payload_exp Sample.good_signature)
         Sample.client0 Sample.config).2
        = inl (ErrVerificationFailed (jwt.ErrTokenInvalidClaims errs))
      ∧ jwt.ErrTokenExpired ∈ errs.
Proof.
  assert (signatureVerified Sample.libs Sample.world_ok
            (Sample.token Sample.header_k1 Sample.payload_exp
               Sample.good_signature)
            Sample.client0 (Sample.signed Sample.payload_exp Sample.claims_exp))
    as Hsig by (apply Sample_signatureVerified; vm_compute; reflexivity).
  split; [exact Hsig|]. split; [vm_compute; reflexivity|].
  split; [vm_compute; reflexivity|].
  assert (jwt.ParseUnverified (jwt_internals Sample.libs)
            (Sample.token Sample.header_k1 Sample.payload_exp
               Sample.good_signature)
          = inr (Sample.signed Sample.payload_exp Sample.claims_exp))
    as Hparse by (vm_compute; reflexivity).
  apply (proj1 (VerifyToken_time_claims Sample.libs Sample.world_ok _
                  Sample.client0 Sample.config _ Hparse) 1000).
  - exact Hsig.
  - vm_compute; reflexivity.
  - vm_compute; reflexivity.
Defined.

Section TokenFormat.
Context (L : Libs).

(** The errors of the second half of [VerifyToken]. *)
Lemma authContextOf_errors claims config st err :
  (authContextOf claims config st).2 = inl err →
  err = ErrInvalidIssuer ∨ err = ErrInvalidAudience ∨ err = ErrMissingSub.
Proof.
  unfold authContextOf.
  unfold try, fail, emit, callGetKeySet; unfold mbind, M_bind, mret, M_ret.
  destruct (checkAudience_fails claims config st) as [[Ha _]|[Ha _]].
  all: repeat case_match; simpl; try done.
  all: try (intros [= <-]; auto; fail).
  all: rewrite Ha in *; simplify_eq.
  all: intros [= <-]; auto.
Qed.

(** The two structural checks of [VerifyToken] come first and touch
    nothing; no later step reports a structural error. *)
Lemma runVerifyToken_header_cases w tokenString jwksClient config :
  match strings.Split tokenString "." with
  | [part0; _; _] =>
      match base64.DecodeString part0 with
      | inl n =>
          runVerifyToken L w tokenString jwksClient config
          = (jwksClient, [], inl (ErrDecodeHeader n))
      | inr _ =>
          ∀ err, (runVerifyToken L w tokenString jwksClient config).2 = inl err →
                 ¬ formatError err
      end
  | _ =>
      runVerifyToken L w tokenString jwksClient config
      = (jwksClient, [], inl ErrInvalidTokenFormat)
  end.
Proof.
  unfold runVerifyToken, VerifyToken.
  destruct (strings.Split tokenString ".")
    as [|part0 [|part1 [|part2 [|]]]] eqn:Hsplit; try done.
  unfold try, fail, emit, callGetKeySet; unfold mbind, M_bind, mret, M_ret.
  destruct (base64.DecodeString part0) as [|headerBytes] eqn:Hdec;
    simpl; try done.
  intros err Herr Hformat. revert Herr.
  destruct (json_Unmarshal L headerBytes) as [|header] eqn:Hjson; simpl.
  { intros [= <-]. destruct Hformat as [|[? ?]]; done. }
  destruct (header !! "kid") as [[| | |kid| |]|] eqn:Hkid; simpl.
  all: try (intros [= <-]; destruct Hformat as [|[? ?]]; done).
  destruct (GetKeySet L w jwksClient) as [[c evs] [|keySet]] eqn:Hks; simpl.
  { intros [= <-]. destruct Hformat as [|[? ?]]; done. }
  destruct (jwk.LookupKeyID keySet kid) as [key|] eqn:Hlook; simpl.
  2: { intros [= <-]. destruct Hformat as [|[? ?]]; done. }
  destruct (jwk.Raw key) as [|publicKey] eqn:Hraw; simpl.
  { intros [= <-]. destruct Hformat as [|[? ?]]; done. }
  destruct (jwt.Parse _ _ _ _) as [evs' [|verifiedToken]]; simpl.
  { intros [= <-]. destruct Hformat as [|[? ?]]; done. }
  intros Herr.
  destruct (authContextOf_errors _ _ _ _ Herr) as [ -> | [ -> | -> ] ];
    destruct Hformat as [|[? ?]]; done.
Qed.

Lemma length_three {A : Type} (l : list A) :
  length l = 3%nat ↔ ∃ a b c, l = [a; b; c].
Proof.
  split.
  - destruct l as [|a [|b [|c [|]]]]; try done. intros _. by exists a, b, c.
  - by intros (a & b & c & ->).
Qed.

End TokenFormat.

(** C8, as the code has it.  [VerifyToken] fails with the invalid-format
    error exactly when the token does not split into three dot-separated
    segments, and with the header-decoding error exactly when it has three
    segments of which the first is not unpadded base64url; both happen
    before any retrieval of the key set, key lookup or signature
    verification, and leave the client as it was.  [VerifyToken] itself
    does not decode the payload and signature segments. *)
Theorem VerifyToken_format (L : Libs) (w : World) (tokenString : string)
    (jwksClient : JWKSClient) (config : Config) :
  ((runVerifyToken L w tokenString jwksClient config).2 = inl ErrInvalidTokenFormat
   ↔ length (strings.Split tokenString ".") ≠ 3%nat)
  ∧ (∀ n,
       (runVerifyToken L w tokenString jwksClient config).2 = inl (ErrDecodeHeader n)
       ↔ ∃ part0 part1 part2,
           strings.Split tokenString "." = [part0; part1; part2]
           ∧ base64.DecodeString part0 = inl n)
  ∧ (∀ err,
       (runVerifyToken L w tokenString jwksClient config).2 = inl err →
       formatError err →
       (runVerifyToken L w tokenString jwksClient config).1 = (jwksClient, [])).
Proof.
  pose proof (runVerifyToken_header_cases L w tokenString jwksClient config)
    as Hcases.
  rewrite length_three.
  destruct (strings.Split tokenString ".")
    as [|part0 [|part1 [|part2 [|]]]] eqn:Hsplit.
  1-3,5: rewrite Hcases; simpl; split; [|split].
  1,4,7,10: split; [intros _ (? & ? & ? & [=])|done].
  1,3,5,7: intros n; split; [done|intros (? & ? & ? & [=] & _)].
  1-4: done.
  destruct (base64.DecodeString part0) as [n|headerBytes] eqn:Hdec.
  - rewrite Hcases. simpl. split; [|split].
    + split; [done|]. intros []. by exists part0, part1, part2.
    + intros n'. split.
      * intros [= <-]. by exists part0, part1, part2.
      * intros (? & ? & ? & [= <- _ _] & Hn). congruence.
    + done.
  - split; [|split].
    + split.
      * intros Herr. destruct (Hcases _ Herr). by left.
      * intros []. by exists part0, part1, part2.
    + intros n. split.
      * intros Herr. destruct (Hcases _ Herr). right. by exists n.
      * intros (? & ? & ? & [= <- _ _] & Hn). congruence.
    + intros err Herr Hformat. by destruct (Hcases _ Herr).
Qed.

Lemma VerifyToken_format_witness :
  length (strings.Split "abc" ".") ≠ 3%nat
  ∧ (runVerifyToken Sample.libs Sample.world_ok "abc" Sample.client0
       Sample.config).2 = inl ErrInvalidTokenFormat.
Proof.
  assert (length (strings.Split "abc" ".") ≠ 3%nat) as Hlen
    by (vm_compute; discriminate).
  split; [exact Hlen|].
  exact (proj2 (proj1 (VerifyToken_format Sample.libs Sample.world_ok "abc"
                         Sample.client0 Sample.config)) Hlen).
Defined.

(** C8, as stated, fails.  The token below has three segments, the second of
    which is not base64url.  Against a key set without its key identifier,
    [VerifyToken] fetches the key set, looks the key up and fails with the
    unknown-key error, not a structural one; against a key set with it, the
    segment is rejected only inside [jwt.Parse], after the fetch and the
    lookup. *)
Lemma VerifyToken_format_counterexample :
  wellFormedToken (Sample.token Sample.header_k1 "!!!" Sample.good_signature)
    = false
  ∧ runVerifyToken Sample.libs Sample.world_k2
      (Sample.token Sample.header_k1 "!!!" Sample.good_signature)
      Sample.client0 Sample.config
    = ((GetKeySet Sample.libs Sample.world_k2 Sample.client0).1.1,
       [EvHttpGet (JWKSUrl Sample.config); EvLookupKeyID "k1"],
       inl (ErrKeyNotFound "k1"))
  ∧ ¬ formatError (ErrKeyNotFound "k1")
  ∧ runVerifyToken Sample.libs Sample.world_ok
      (Sample.token Sample.header_k1 "!!!" Sample.good_signature)
      Sample.client0 Sample.config
    = (Sample.client1,
       [EvHttpGet (JWKSUrl Sample.config); EvLookupKeyID "k1"],
       inl (ErrVerificationFailed
              (jwt.ErrTokenMalformed "could not decode segment"))).
Proof.
  split; [vm_compute; reflexivity|].
  split; [vm_compute; reflexivity|].
  split; [intros [|[? ?]]; discriminate|].
  vm_compute; reflexivity.
Qed.

(** ** The audience check *)

(** X11.  What [VerifyToken] does with the audience of a token whose
    signature verified, whose time claims are valid and whose issuer is the
    configured one: it fails with the audience error exactly when [aud] is a string
    other than the configured audience or an array without it. *)
Lemma VerifyToken_audience_check (L : Libs) (w : World) (tokenString : string)
    (jwksClient : JWKSClient) (config : Config) (token : jwt.Token) :
  signatureVerified L w tokenString jwksClient token →
  jwt.Validate (now_validate w) (jwt.Claims token) = [] →
  jwt.Claims token !! "iss" = Some (JStr (Issuer config)) →
  (runVerifyToken L w tokenString jwksClient config).2 = inl ErrInvalidAudience
  ↔ (∃ aud, jwt.Claims token !! "aud" = Some (JStr aud) ∧ aud ≠ Audience config)
    ∨ (∃ audArr, jwt.Claims token !! "aud" = Some (JArr audArr)
                 ∧ JStr (Audience config) ∉ audArr).
Proof.
  intros Hsig Hval Hiss.
  destruct (runVerifyToken_verified L w tokenString jwksClient token Hsig)
    as (kid & publicKey & Hrun).
  rewrite (Hrun config), Hval. simpl.
  unfold authContextOf. rewrite Hiss, String.eqb_refl. simpl.
  unfold fail; unfold mbind, M_bind, mret, M_ret.
  match goal with
  | |- context [checkAudience ?cl ?cf ?st] =>
      destruct (checkAudience_fails cl cf st)
        as [[-> Hwhy]|[-> [Hnamed|[Hnone|(j & Hj & Hs & Ha)]]]]
  end.
  - done.
  - split; [repeat case_match; done|]. intros Hwrong. exfalso.
    destruct Hnamed as [Hn|(audArr & Hn & Hin)].
    + destruct Hwrong as [(aud & Haud & Hne)|(audArr & Haud & _)]; congruence.
    + destruct Hwrong as [(aud & Haud & _)|(audArr' & Haud & Hnin)]; congruence.
  - split; [repeat case_match; done|].
    intros [(aud & Haud & _)|(audArr & Haud & _)]; congruence.
  - split; [repeat case_match; done|]. intros Hwrong. exfalso.
    destruct Hwrong as [(aud & Haud & _)|(audArr & Haud & _)].
    + apply (Hs aud). congruence.
    + apply (Ha audArr). congruence.
Qed.

(** C1 fails on the code.  A token with a good signature, the configured
    issuer and a subject, but no [aud] claim at all, is accepted: the
    audience check is skipped and an [AuthContext] is returned.  The same
    happens when [aud] is a number. *)
Theorem VerifyToken_accepts_missing_audience :
  signatureVerified Sample.libs Sample.world_ok
    (Sample.token Sample.header_k1 Sample.payload_no_aud Sample.good_signature)
    Sample.client0 (Sample.signed Sample.payload_no_aud Sample.identity)
  ∧ Sample.identity !! "aud" = None
  ∧ ¬ audienceNamed (Sample.identity !! "aud") (Audience Sample.config)
  ∧ (runVerifyToken Sample.libs Sample.world_ok
       (Sample.token Sample.header_k1 Sample.payload_no_aud Sample.good_signature)
       Sample.client0 Sample.config).2
    = inr {| UserID := "user-1"; OrgID := None; Roles := []; Permissions := [];
             Email := None; Name := None |}
  ∧ Sample.claims_number_aud !! "aud" = Some (JNum 42)
  ∧ ¬ audienceNamed (Sample.claims_number_aud !! "aud") (Audience Sample.config)
  ∧ (runVerifyToken Sample.libs Sample.world_ok
       (Sample.token Sample.header_k1 Sample.payload_number_aud
          Sample.good_signature)
       Sample.client0 Sample.config).2
    = inr {| UserID := "user-1"; OrgID := None; Roles := []; Permissions := [];
             Email := None; Name := None |}.
Proof.
  split; [apply Sample_signatureVerified; vm_compute; reflexivity|].
  split; [vm_compute; reflexivity|].
  split.
  { assert (Sample.identity !! "aud" = None) as -> by (vm_compute; reflexivity).
    intros [|(? & ? & _)]; discriminate. }
  split; [vm_compute; reflexivity|].
  split; [vm_compute; reflexivity|].
  split.
  { assert (Sample.claims_number_aud !! "aud" = Some (JNum 42)) as ->
      by (vm_compute; reflexivity).
    intros [|(? & ? & _)]; discriminate. }
  vm_compute; reflexivity.
Qed.

(** ** The middlewares *)

Section Middlewares.

Lemma permissionFound_elem perms required :
  permissionFound perms required = true ↔ required ∈ perms.
Proof.
  induction perms as [|perm rest IH]; simpl.
  - rewrite elem_of_nil. split; [done|tauto].
  - rewrite elem_of_cons.
    destruct (String.eqb_spec perm required) as [->|Hne].
    + split; auto.
    + rewrite IH. split; [auto|]. intros [|]; [congruence|done].
Qed.

Lemma hasAll_Forall requiredPermissions perms :
  hasAll requiredPermissions perms = true
  ↔ ∀ required, required ∈ requiredPermissions → required ∈ perms.
Proof.
  induction requiredPermissions as [|r rest IH]; simpl.
  - split; [|done]. intros _ required Hin. by apply elem_of_nil in Hin.
  - destruct (permissionFound perms r) eqn:Hf; simpl.
    + rewrite IH. apply permissionFound_elem in Hf.
      split.
      * intros Hall required [->|Hin]%elem_of_cons; auto.
      * intros Hall required Hin. apply Hall, elem_of_cons. auto.
    + split; [done|]. intros Hall.
      assert (r ∈ perms) as Hin by (apply Hall, list_elem_of_here).
      apply permissionFound_elem in Hin. congruence.
Qed.

Lemma JSON_not_Next code obj c c' :
  gin.Written c' = gin.Written c →
  gin.Abort (gin.JSON code obj c) ≠ c'.
Proof.
  intros Hw Heq. apply (f_equal gin.Written) in Heq. simpl in Heq.
  rewrite Hw in Heq. apply (f_equal length) in Heq.
  rewrite length_app in Heq. simpl in Heq. lia.
Qed.

Lemma bearer_header token :
  String.eqb ("Bearer " +:+ token) EmptyString = false
  ∧ strings.HasPrefix ("Bearer " +:+ token) "Bearer " = true
  ∧ strings.TrimPrefix ("Bearer " +:+ token) "Bearer " = token.
Proof. split; [reflexivity|]. split; reflexivity. Qed.

End Middlewares.

(** C7.  With an [AuthContext] attached, the permission check lets the
    request proceed (runs the remaining handlers and writes nothing) if and
    only if every required permission is, as a string, among the
    permissions of the [AuthContext]; otherwise it answers 403 with a body
    that carries the required list and the held list, and aborts. *)
Theorem RequirePermissions_conjunction (requiredPermissions : list string)
    (c : gin.Context) (ctx : AuthContext) :
  gin.Get c "auth" = Some (VAuthContext ctx) →
  (RequirePermissions requiredPermissions c = gin.Next c
   ↔ ∀ required, required ∈ requiredPermissions → required ∈ Permissions ctx)
  ∧ (¬ (∀ required, required ∈ requiredPermissions → required ∈ Permissions ctx) →
     RequirePermissions requiredPermissions c
     = gin.Abort
         (gin.JSON http.StatusForbidden
            {[ "error" := VString "Insufficient permissions";
               "required" := VStrings requiredPermissions;
               "has" := VStrings (Permissions ctx) ]} c)).
Proof.
  intros Hauth. unfold RequirePermissions. rewrite Hauth.
  rewrite <- hasAll_Forall.
  destruct (hasAll requiredPermissions (Permissions ctx)); simpl.
  - split; [done|]. intros []. done.
  - split; [|done]. split; [|done].
    intros Heq. by apply JSON_not_Next in Heq.
Qed.

Lemma RequirePermissions_conjunction_witness :
  gin.Get (gin.Set_ "auth" (VAuthContext Sample.uploader) (Sample.request "Bearer t"))
    "auth" = Some (VAuthContext Sample.uploader)
  ∧ ¬ (∀ required, required ∈ ["files:delete"] →
                   required ∈ Permissions Sample.uploader)
  ∧ RequirePermissions ["files:delete"]
      (gin.Set_ "auth" (VAuthContext Sample.uploader) (Sample.request "Bearer t"))
    = gin.Abort
        (gin.JSON http.StatusForbidden
           {[ "error" := VString "Insufficient permissions";
              "required" := VStrings ["files:delete"];
              "has" := VStrings ["files:upload"] ]}
           (gin.Set_ "auth" (VAuthContext Sample.uploader)
              (Sample.request "Bearer t"))).
Proof.
  assert (¬ (∀ required, required ∈ ["files:delete"] →
                         required ∈ Permissions Sample.uploader)) as Hnot.
  { intros Hall.
    assert ("files:delete" ∈ Permissions Sample.uploader) as Hin
      by (apply Hall, list_elem_of_here).
    apply list_elem_of_singleton in Hin. discriminate. }
  split; [vm_compute; reflexivity|]. split; [exact Hnot|].
  exact (proj2 (RequirePermissions_conjunction ["files:delete"]
                  (gin.Set_ "auth" (VAuthContext Sample.uploader)
                     (Sample.request "Bearer t"))
                  Sample.uploader eq_refl) Hnot).
Defined.

(** C10.  With an [AuthContext] attached, whatever permissions it holds, the
    permission check with an empty list of required permissions lets the
    request proceed. *)
Theorem RequirePermissions_empty (c : gin.Context) (ctx : AuthContext) :
  gin.Get c "auth" = Some (VAuthContext ctx) →
  RequirePermissions [] c = gin.Next c.
Proof.
  intros Hauth. unfold RequirePermissions. by rewrite Hauth.
Qed.

Lemma RequirePermissions_empty_witness :
  gin.Get (gin.Set_ "auth" (VAuthContext Sample.uploader) (Sample.request "Bearer t"))
    "auth" = Some (VAuthContext Sample.uploader)
  ∧ RequirePermissions []
      (gin.Set_ "auth" (VAuthContext Sample.uploader) (Sample.request "Bearer t"))
    = gin.Next
        (gin.Set_ "auth" (VAuthContext Sample.uploader) (Sample.request "Bearer t")).
Proof.
  split; [vm_compute; reflexivity|].
  exact (RequirePermissions_empty
           (gin.Set_ "auth" (VAuthContext Sample.uploader)
              (Sample.request "Bearer t"))
           Sample.uploader eq_refl).
Defined.

(** C2, as the code has it.  When the token of a bearer request fails
    verification, the gate answers 401 with a body that carries the generic
    message and, under [details], the text of the verification error, and
    aborts: nothing is attached to the context and the remaining handlers
    are not run. *)
Theorem AuthMiddleware_rejects (L : Libs) (w : World) (jwksClient : JWKSClient)
    (config : Config) (c : gin.Context) (token : string) (err : error) :
  gin.GetHeader c "Authorization" = "Bearer " +:+ token →
  (runVerifyToken L w token jwksClient config).2 = inl err →
  (AuthMiddleware L w jwksClient config c).2
  = gin.Abort
      (gin.JSON http.StatusUnauthorized
         {[ "error" := VString "Invalid token";
            "details" := VString (Error L err) ]} c).
Proof.
  intros Hheader Herr. unfold AuthMiddleware. rewrite Hheader.
  destruct (bearer_header token) as (-> & -> & ->). simpl.
  destruct (runVerifyToken L w token jwksClient config) as [[c' evs] r].
  simpl in Herr. by subst r.
Qed.

Lemma AuthMiddleware_rejects_witness :
  gin.GetHeader (Sample.request "Bearer abc") "Authorization" = "Bearer abc"
  ∧ (runVerifyToken Sample.libs Sample.world_ok "abc" Sample.client0
       Sample.config).2 = inl ErrInvalidTokenFormat
  ∧ (AuthMiddleware Sample.libs Sample.world_ok Sample.client0 Sample.config
       (Sample.request "Bearer abc")).2
    = gin.Abort
        (gin.JSON http.StatusUnauthorized
           {[ "error" := VString "Invalid token";
              "details" := VString "invalid token format" ]}
           (Sample.request "Bearer abc")).
Proof.
  split; [vm_compute; reflexivity|]. split; [vm_compute; reflexivity|].
  exact (AuthMiddleware_rejects Sample.libs Sample.world_ok Sample.client0
           Sample.config (Sample.request "Bearer abc") "abc"
           ErrInvalidTokenFormat eq_refl eq_refl).
Defined.

(** C2, as stated, fails.  Two requests whose tokens fail verification for
    different reasons get different answers: each body carries, under
    [details], the text of the internal error. *)
Lemma AuthMiddleware_rejects_counterexample :
  gin.Written
    (AuthMiddleware Sample.libs Sample.world_ok Sample.client0 Sample.config
       (Sample.request "Bearer abc")).2
  = [(401, {[ "error" := VString "Invalid token";
              "details" := VString "invalid token format" ]})]
  ∧ gin.Written
      (AuthMiddleware Sample.libs Sample.world_ok Sample.client0 Sample.config
         (Sample.request
            ("Bearer " +:+ Sample.token Sample.header_k1 Sample.payload_other_aud
                             Sample.good_signature))).2
    = [(401, {[ "error" := VString "Invalid token";
                "details" := VString "invalid audience" ]})]
  ∧ gin.Written
      (AuthMiddleware Sample.libs Sample.world_ok Sample.client0 Sample.config
         (Sample.request "Bearer abc")).2
    ≠ gin.Written
        (AuthMiddleware Sample.libs Sample.world_ok Sample.client0 Sample.config
           (Sample.request
              ("Bearer " +:+ Sample.token Sample.header_k1
                               Sample.payload_other_aud Sample.good_signature))).2.
Proof.
  split; [vm_compute; reflexivity|].
  split; [vm_compute; reflexivity|].
  vm_compute. discriminate.
Qed.

(** * Further properties of the code *)

(** ** The key-set cache, continued *)

Lemma wrap64_small (z : Z) : - 2 ^ 63 ≤ z < 2 ^ 63 → time.wrap64 z = z.
Proof.
  intros Hz. unfold time.wrap64. rewrite Z.mod_small; lia.
Qed.

Lemma wrap64_range (z : Z) : - 2 ^ 63 ≤ time.wrap64 z < 2 ^ 63.
Proof.
  unfold time.wrap64.
  pose proof (Z.mod_pos_bound (z + 2 ^ 63) (2 ^ 64) ltac:(lia)). lia.
Qed.

(** X1.  A new client holds no key set, and its cache TTL is an int64 that
    is never zero: zero seconds (and a number of seconds whose product
    with a second wraps to zero) gives 15 minutes, and any other number of
    seconds of at most 9223372036 in absolute value gives that many
    seconds. *)
Theorem NewJWKSClient_ttl (url0 : string) (cacheTTLSeconds : Z) :
  cache (NewJWKSClient url0 cacheTTLSeconds) = None
  ∧ url (NewJWKSClient url0 cacheTTLSeconds) = url0
  ∧ cacheTTL (NewJWKSClient url0 cacheTTLSeconds) ≠ 0
  ∧ - 2 ^ 63 ≤ cacheTTL (NewJWKSClient url0 cacheTTLSeconds) < 2 ^ 63
  ∧ (cacheTTLSeconds = 0 →
     cacheTTL (NewJWKSClient url0 cacheTTLSeconds) = 900 * time.Second)
  ∧ (cacheTTLSeconds ≠ 0 →
     - 9223372036 ≤ cacheTTLSeconds ≤ 9223372036 →
     cacheTTL (NewJWKSClient url0 cacheTTLSeconds)
     = cacheTTLSeconds * time.Second).
Proof.
  unfold NewJWKSClient, time.mul. simpl.
  pose proof (wrap64_range (cacheTTLSeconds * time.Second)) as Hrange.
  split; [done|]. split; [done|]. split; [|split; [|split]].
  - destruct (Z.eqb_spec (time.wrap64 (cacheTTLSeconds * time.Second)) 0);
      [unfold time.Minute, time.Second; lia|done].
  - destruct (Z.eqb_spec (time.wrap64 (cacheTTLSeconds * time.Second)) 0);
      [unfold time.Minute, time.Second; lia|done].
  - intros ->. reflexivity.
  - intros Hne Hs.
    rewrite wrap64_small by (unfold time.Second; lia).
    destruct (Z.eqb_spec (cacheTTLSeconds * time.Second) 0) as [Hz|];
      [unfold time.Second in Hz; lia|done].
Qed.

(** X2.  In every state that the client can be in, the URL, the TTL and the
    HTTP timeout are those that [NewJWKSClient] set, and a key set that
    the client holds was parsed from the body of a response of the
    endpoint (whose URL therefore parses) and expires one TTL after some
    instant at which it was stored. *)
Theorem reachable_client (L : Libs) (url0 : string) (ttl0 : Z) (c : JWKSClient) :
  reachable L url0 ttl0 c →
  url c = url0
  ∧ cacheTTL c = cacheTTL (NewJWKSClient url0 ttl0)
  ∧ httpClient_Timeout c = 10 * time.Second
  ∧ (∀ cached,
       cache c = Some cached →
       url_Parse L url0 = None
       ∧ ∃ Body stored,
           jwk_ParseReader L Body = inr (set cached)
           ∧ expiresAt cached = time.Add stored (cacheTTL c)).
Proof.
  induction 1 as [|c w Hr (IHurl & IHttl & IHtimeout & IHcache)].
  { repeat split; try done. }
  destruct (GetKeySet_client L w c)
    as [->|(Body & ks & _ & Hparse & _ & _ & Hu & _ & ->)]; [done|].
  simpl. split; [done|]. split; [done|]. split; [done|].
  intros cached [= <-]. simpl. split; [by rewrite <- IHurl|].
  by exists Body, (now_store w).
Qed.

Lemma reachable_client_witness :
  reachable Sample.libs (JWKSUrl Sample.config) (JWKSCacheTTL Sample.config)
    Sample.client1
  ∧ url Sample.client1 = JWKSUrl Sample.config
  ∧ cacheTTL Sample.client1 = 900 * time.Second
  ∧ httpClient_Timeout Sample.client1 = 10 * time.Second.
Proof.
  assert (reachable Sample.libs (JWKSUrl Sample.config)
            (JWKSCacheTTL Sample.config) Sample.client1) as Hr.
  { apply reachable_call, reachable_new. }
  split; [exact Hr|].
  destruct (reachable_client Sample.libs _ _ _ Hr) as (Hurl & Httl & Htimeout & _).
  split; [exact Hurl|]. split; [exact Httl|exact Htimeout].
Defined.

(** X3.  A key set that [GetKeySet] returns is the one that the client
    holds after the call. *)
Theorem GetKeySet_returns_cached (L : Libs) (w : World) (c : JWKSClient)
    (ks : jwk.KeySet) :
  (GetKeySet L w c).2 = inr ks →
  set <$> cache (GetKeySet L w c).1.1 = Some ks.
Proof.
  unfold GetKeySet, http.NewRequestWithContext, freshSet, staleOr.
  destruct (cache c) as [cached|] eqn:Hc.
  - destruct (time.Before (now_read w) (expiresAt cached)); simpl;
      [rewrite Hc; by intros [= <-]|].
    destruct (time.Before (now_write w) (expiresAt cached)); simpl;
      [rewrite Hc; by intros [= <-]|].
    destruct (url_Parse L (url c)); simpl; [done|].
    destruct (http_Do w) as [err|StatusCode Body]; simpl;
      [rewrite Hc; by intros [= <-]|].
    destruct (negb (StatusCode =? http.StatusOK)); simpl;
      [rewrite Hc; by intros [= <-]|].
    destruct (jwk_ParseReader L Body); simpl;
      [rewrite Hc; by intros [= <-]|by intros [= <-]].
  - destruct (url_Parse L (url c)); simpl; [done|].
    destruct (http_Do w) as [err|StatusCode Body]; simpl; [done|].
    destruct (negb (StatusCode =? http.StatusOK)); simpl; [done|].
    destruct (jwk_ParseReader L Body); simpl; [done|by intros [= <-]].
Qed.

Lemma GetKeySet_returns_cached_witness :
  (GetKeySet Sample.libs Sample.world_ok Sample.client0).2 = inr [Sample.key_k1]
  ∧ set <$> cache (GetKeySet Sample.libs Sample.world_ok Sample.client0).1.1
    = Some [Sample.key_k1].
Proof.
  split; [reflexivity|].
  exact (GetKeySet_returns_cached Sample.libs Sample.world_ok Sample.client0
           [Sample.key_k1] eq_refl).
Defined.

(** X4.  On a client that holds no key set, [GetKeySet] succeeds exactly
    when the URL parses and the endpoint answers with status 200 (no other
    status, 2xx or not, will do) and a body that parses, and then returns
    the parsed key set; the failures are told apart: an error making the
    request (without any fetch), a network error, a status other than 200,
    a body that does not parse. *)
Theorem GetKeySet_empty_cache (L : Libs) (w : World) (c : JWKSClient) :
  cache c = None →
  (∀ ks,
     (GetKeySet L w c).2 = inr ks
     ↔ url_Parse L (url c) = None
       ∧ ∃ Body, http_Do w = http.DoResponse 200 Body
                 ∧ jwk_ParseReader L Body = inr ks)
  ∧ (∀ err, url_Parse L (url c) = Some err →
            GetKeySet L w c = (c, [], inl (ErrCreateRequest err)))
  ∧ (∀ err, url_Parse L (url c) = None → http_Do w = http.DoError err →
            GetKeySet L w c = (c, [EvHttpGet (url c)], inl (ErrFetchJWKS err)))
  ∧ (∀ StatusCode Body,
       url_Parse L (url c) = None →
       http_Do w = http.DoResponse StatusCode Body → StatusCode ≠ 200 →
       GetKeySet L w c = (c, [EvHttpGet (url c)], inl (ErrJWKSStatus StatusCode)))
  ∧ (∀ Body err,
       url_Parse L (url c) = None →
       http_Do w = http.DoResponse 200 Body → jwk_ParseReader L Body = inl err →
       GetKeySet L w c = (c, [EvHttpGet (url c)], inl (ErrParseJWKS err))).
Proof.
  intros Hc.
  unfold GetKeySet, http.NewRequestWithContext, freshSet, staleOr.
  rewrite Hc. split; [|split; [|split; [|split]]].
  - intros ks. split.
    + destruct (url_Parse L (url c)); simpl; [done|].
      destruct (http_Do w) as [err|StatusCode Body]; simpl; [done|].
      destruct (Z.eqb_spec StatusCode http.StatusOK) as [->|]; simpl; [|done].
      destruct (jwk_ParseReader L Body) eqn:Hp; simpl; [done|].
      intros [= <-]. split; [done|]. by exists Body.
    + intros (-> & Body & -> & ->). done.
  - by intros err ->.
  - by intros err -> ->.
  - intros StatusCode Body -> -> Hs. simpl.
    by destruct (Z.eqb_spec StatusCode http.StatusOK).
  - by intros Body err -> -> ->.
Qed.

Lemma GetKeySet_empty_cache_witness :
  cache Sample.client0 = None
  ∧ GetKeySet Sample.libs
      {| now_read := 0; now_write := 0; now_store := 0;
         http_Do := http.DoResponse 204 Sample.body_k1; now_validate := 0 |}
      Sample.client0
    = (Sample.client0, [EvHttpGet (url Sample.client0)], inl (ErrJWKSStatus 204)).
Proof.
  split; [reflexivity|].
  refine (proj1 (proj2 (proj2 (proj2
            (GetKeySet_empty_cache Sample.libs
               {| now_read := 0; now_write := 0; now_store := 0;
                  http_Do := http.DoResponse 204 Sample.body_k1;
                  now_validate := 0 |}
               Sample.client0 eq_refl))))
            204 Sample.body_k1 eq_refl eq_refl _).
  discriminate.
Defined.

(** A call that finds no fresh key set, with a URL that parses, fetches. *)
Lemma GetKeySet_stale_events (L : Libs) (w : World) (c : JWKSClient) :
  url_Parse L (url c) = None →
  (∀ cached, cache c = Some cached →
             expiresAt cached ≤ now_read w ∧ expiresAt cached ≤ now_write w) →
  (GetKeySet L w c).1.2 = [EvHttpGet (url c)].
Proof.
  intros Hu Hstale.
  unfold GetKeySet, http.NewRequestWithContext, freshSet, time.Before.
  rewrite Hu.
  destruct (cache c) as [cached|].
  - destruct (Hstale cached eq_refl) as [Hr Hw].
    destruct (Z.ltb_spec (now_read w) (expiresAt cached)); [lia|].
    destruct (Z.ltb_spec (now_write w) (expiresAt cached)); [lia|].
    repeat case_match; done.
  - repeat case_match; done.
Qed.

(** X5.  From the instant of its expiry on (the expiry instant included)
    a held key set is stale: a call made then, with a URL that parses,
    asks the endpoint exactly once, as does a call on a client that holds
    nothing. *)
Theorem GetKeySet_stale_fetches (L : Libs) (w : World) (c : JWKSClient) :
  url_Parse L (url c) = None →
  (∀ cached, cache c = Some cached →
             expiresAt cached ≤ now_read w ∧ expiresAt cached ≤ now_write w) →
  (GetKeySet L w c).1.2 = [EvHttpGet (url c)].
Proof. apply GetKeySet_stale_events. Qed.

Lemma GetKeySet_stale_fetches_witness :
  url_Parse Sample.libs (url Sample.client1) = None
  ∧ (∀ cached, cache Sample.client1 = Some cached →
               expiresAt cached ≤ now_read Sample.world_down
               ∧ expiresAt cached ≤ now_write Sample.world_down)
  ∧ (GetKeySet Sample.libs Sample.world_down Sample.client1).1.2
    = [EvHttpGet (url Sample.client1)].
Proof.
  assert (∀ cached, cache Sample.client1 = Some cached →
                    expiresAt cached ≤ now_read Sample.world_down
                    ∧ expiresAt cached ≤ now_write Sample.world_down) as Hstale.
  { intros cached [= <-]. vm_compute. split; discriminate. }
  split; [reflexivity|]. split; [exact Hstale|].
  exact (GetKeySet_stale_fetches Sample.libs Sample.world_down Sample.client1
           eq_refl Hstale).
Defined.

(** X6.  A client with a negative TTL never serves from its cache: when a
    call has stored a key set, any later call (its clock not behind the
    instant of the store) asks the endpoint again. *)
Theorem GetKeySet_negative_ttl (L : Libs) (w1 w2 : World) (c : JWKSClient) :
  cacheTTL c < 0 →
  (GetKeySet L w1 c).1.1 ≠ c →
  now_store w1 ≤ now_read w2 →
  now_store w1 ≤ now_write w2 →
  (GetKeySet L w2 (GetKeySet L w1 c).1.1).1.2 = [EvHttpGet (url c)].
Proof.
  intros Httl Hstored Hread Hwrite.
  destruct (GetKeySet_client L w1 c)
    as [?|(Body & ks & _ & _ & _ & _ & Hu & _ & Hc')]; [done|].
  rewrite Hc'.
  rewrite (GetKeySet_stale_events L w2); [done|done|].
  simpl. intros cached [= <-]. simpl. unfold time.Add. lia.
Qed.

Lemma GetKeySet_negative_ttl_witness :
  cacheTTL Sample2.client_negative < 0
  ∧ (GetKeySet Sample.libs Sample.world_ok Sample2.client_negative).1.1
    ≠ Sample2.client_negative
  ∧ now_store Sample.world_ok ≤ now_read Sample.world_ok
  ∧ now_store Sample.world_ok ≤ now_write Sample.world_ok
  ∧ (GetKeySet Sample.libs Sample.world_ok
       (GetKeySet Sample.libs Sample.world_ok Sample2.client_negative).1.1).1.2
    = [EvHttpGet (url Sample2.client_negative)].
Proof.
  assert ((GetKeySet Sample.libs Sample.world_ok Sample2.client_negative).1.1
          ≠ Sample2.client_negative) as Hne by (vm_compute; discriminate).
  split; [reflexivity|]. split; [exact Hne|].
  split; [vm_compute; discriminate|]. split; [vm_compute; discriminate|].
  apply (GetKeySet_negative_ttl Sample.libs Sample.world_ok Sample.world_ok
           Sample2.client_negative); [reflexivity|exact Hne| |].
  all: vm_compute; discriminate.
Defined.

(** ** The token verifier, continued *)

Section ClaimChecks.
Context (L : Libs).

Lemma audienceAccepted_checkAudience claims config st :
  audienceAccepted claims config ↔ checkAudience claims config st = (st, inr ()).
Proof.
  unfold audienceAccepted.
  destruct (checkAudience_fails claims config st)
    as [[Hc [(aud & Haud & Hne)|(audArr & Haud & Hnin)]]
       |[Hc [[Hn|(audArr & Hn & Hin)]|[Hnone|(j & Hj & Hs & Ha)]]]];
    rewrite Hc.
  - split; [|done]. intros [Hstr _]. destruct Hne. by apply Hstr.
  - split; [|done]. intros [_ Harr]. destruct Hnin. by apply Harr.
  - split; [done|intros _]. rewrite Hn. split.
    + by intros aud [= <-].
    + by intros audArr [=].
  - split; [done|intros _]. rewrite Hn. split.
    + by intros aud [=].
    + by intros audArr' [= <-].
  - split; [done|intros _]. rewrite Hnone. split; by intros.
  - split; [done|intros _]. rewrite Hj. split.
    + intros aud [= ->]. by destruct (Hs aud).
    + intros audArr [= ->]. by destruct (Ha audArr).
Qed.

(** The outcome of the second half of [VerifyToken], check by check. *)
Lemma authContextOf_result claims config st :
  (authContextOf claims config st).2
  = match claims !! "iss" with
    | Some (JStr iss) =>
        if String.eqb iss (Issuer config) then
          match (checkAudience claims config st).2 with
          | inl err => inl err
          | inr _ =>
              match claims !! "sub" with
              | Some (JStr sub) =>
                  if String.eqb sub EmptyString then inl ErrMissingSub
                  else inr (authContextFrom claims sub)
              | _ => inl ErrMissingSub
              end
          end
        else inl ErrInvalidIssuer
    | _ => inl ErrInvalidIssuer
    end.
Proof.
  unfold authContextOf, authContextFrom.
  unfold fail; unfold mbind, M_bind, mret, M_ret.
  destruct (claims !! "iss") as [[| | |iss| |]|]; try done.
  destruct (String.eqb iss (Issuer config)); simpl; [|done].
  destruct (checkAudience_fails claims config st) as [[-> _]|[-> _]]; simpl;
    [done|].
  destruct (claims !! "sub") as [[| | |sub| |]|]; try done.
  by destruct (String.eqb sub EmptyString).
Qed.

(** The first steps of [VerifyToken] up to the choice of the key, then
    [jwt.Parse] with the key function, then the checks of the claims. *)
Lemma runVerifyToken_keySelected w tokenString jwksClient config kid publicKey :
  keySelected L w tokenString jwksClient kid publicKey →
  runVerifyToken L w tokenString jwksClient config
  = let c := (GetKeySet L w jwksClient).1.1 in
    let evs := (GetKeySet L w jwksClient).1.2 ++ [EvLookupKeyID kid] in
    match jwt.Parse (jwt_internals L) (now_validate w) tokenString
            (keyFunc publicKey) with
    | (evs', inl err) => (c, evs ++ evs', inl (ErrVerificationFailed err))
    | (evs', inr verifiedToken) =>
        (c, evs ++ evs',
         (authContextOf (jwt.Claims verifiedToken) config (c, evs ++ evs')).2)
    end.
Proof.
  intros (part0 & part1 & part2 & headerBytes & header & keySet & key
          & Hsplit & Hdec & Hjson & Hkid & Hks & Hlook & Hraw).
  unfold runVerifyToken, VerifyToken. rewrite Hsplit.
  unfold try, fail, emit, callGetKeySet; unfold mbind, M_bind, mret, M_ret.
  rewrite Hdec, Hjson, Hkid. simpl.
  destruct (GetKeySet L w jwksClient) as [[c evs] r]. simpl in Hks. subst r.
  simpl. rewrite Hlook, Hraw.
  destruct (jwt.Parse _ _ _ _) as [evs' [err|verifiedToken]]; simpl; [done|].
  pose proof (authContextOf_state (jwt.Claims verifiedToken) config
                (c, (evs ++ [EvLookupKeyID kid]) ++ evs')) as Hst.
  destruct (authContextOf _ _ _) as [st' r]. simpl in *. by subst st'.
Qed.

Lemma signatureVerified_keySelected w tokenString jwksClient token :
  signatureVerified L w tokenString jwksClient token →
  ∃ kid publicKey alg,
    keySelected L w tokenString jwksClient kid publicKey
    ∧ jwt.ParseUnverified (jwt_internals L) tokenString = inr token
    ∧ jwt.Method token = jwt.SigningMethodRSA alg
    ∧ jwt.Verify (jwt_internals L) token publicKey = None.
Proof.
  intros (part0 & part1 & part2 & headerBytes & header & kid & keySet & key
          & publicKey & alg & Hsplit & Hdec & Hjson & Hkid & Hks & Hlook
          & Hraw & Hparse & Hmeth & Hver).
  exists kid, publicKey, alg. split; [|done].
  by exists part0, part1, part2, headerBytes, header, keySet, key.
Qed.

(** The result of [VerifyToken] for a token whose signature verified and
    whose time claims are valid is that of the checks of the claims. *)
Lemma runVerifyToken_claims w tokenString jwksClient config token :
  signatureVerified L w tokenString jwksClient token →
  jwt.Validate (now_validate w) (jwt.Claims token) = [] →
  ∃ st, (runVerifyToken L w tokenString jwksClient config).2
        = (authContextOf (jwt.Claims token) config st).2.
Proof.
  intros Hsig Hval.
  destruct (runVerifyToken_verified L w tokenString jwksClient token Hsig)
    as (kid & publicKey & Hrun).
  rewrite (Hrun config), Hval. simpl. eauto.
Qed.

End ClaimChecks.

(** What a call that returns an [AuthContext] went through. *)
Lemma runVerifyToken_accepted (L : Libs) (w : World) (tokenString : string)
    (jwksClient : JWKSClient) (config : Config) (ctx : AuthContext) :
  (runVerifyToken L w tokenString jwksClient config).2 = inr ctx →
  ∃ token,
    signatureVerified L w tokenString jwksClient token
    ∧ jwt.Validate (now_validate w) (jwt.Claims token) = []
    ∧ jwt.Claims token !! "iss" = Some (JStr (Issuer config))
    ∧ audienceAccepted (jwt.Claims token) config
    ∧ jwt.Claims token !! "sub" = Some (JStr (UserID ctx))
    ∧ UserID ctx ≠ EmptyString
    ∧ ctx = authContextFrom (jwt.Claims token) (UserID ctx).
Proof.
  intros Hctx.
  destruct (runVerifyToken_inr L w tokenString jwksClient config ctx Hctx)
    as (token & Hsig & Hval).
  exists token. split; [done|]. split; [done|].
  destruct (runVerifyToken_claims L w tokenString jwksClient config token
              Hsig Hval) as (st & Hrun).
  rewrite Hrun, authContextOf_result in Hctx. revert Hctx.
  destruct (jwt.Claims token !! "iss") as [[| | |iss| |]|]; try done.
  destruct (String.eqb_spec iss (Issuer config)) as [Heq|]; [|done].
  destruct (checkAudience (jwt.Claims token) config st) as [st' [err|[]]] eqn:Ha;
    simpl; [done|].
  assert (st' = st) as ->.
  { destruct (checkAudience_fails (jwt.Claims token) config st)
      as [[Hc _]|[Hc _]]; congruence. }
  destruct (jwt.Claims token !! "sub") as [[| | |sub| |]|]; try done.
  destruct (String.eqb_spec sub EmptyString) as [Hsub|Hne]; [done|].
  intros [= <-]. simpl.
  split; [by rewrite Heq|].
  split; [by apply (audienceAccepted_checkAudience _ _ st)|].
  done.
Qed.

(** X7.  [VerifyToken] returns an [AuthContext] only for a token whose
    signature was verified with the key that the retrieved key set has for
    the key identifier of the header, under an RSA signing method, whose
    time claims are valid, whose issuer is the configured one, whose
    audience the check has nothing to object to, and whose subject is a
    string that is not empty; the [AuthContext] is the one built from the
    claims, with the subject as user identifier. *)
Theorem VerifyToken_sound (L : Libs) (w : World) (tokenString : string)
    (jwksClient : JWKSClient) (config : Config) (ctx : AuthContext) :
  (runVerifyToken L w tokenString jwksClient config).2 = inr ctx →
  ∃ token,
    signatureVerified L w tokenString jwksClient token
    ∧ jwt.Validate (now_validate w) (jwt.Claims token) = []
    ∧ jwt.Claims token !! "iss" = Some (JStr (Issuer config))
    ∧ audienceAccepted (jwt.Claims token) config
    ∧ jwt.Claims token !! "sub" = Some (JStr (UserID ctx))
    ∧ UserID ctx ≠ EmptyString
    ∧ ctx = authContextFrom (jwt.Claims token) (UserID ctx).
Proof. apply runVerifyToken_accepted. Qed.

Lemma VerifyToken_sound_witness :
  (runVerifyToken Sample.libs Sample.world_ok
     (Sample.token Sample.header_k1 Sample.payload_upload Sample.good_signature)
     Sample.client0 Sample.config).2 = inr Sample.uploader
  ∧ ∃ token,
      signatureVerified Sample.libs Sample.world_ok
        (Sample.token Sample.header_k1 Sample.payload_upload
           Sample.good_signature)
        Sample.client0 token
      ∧ jwt.Validate (now_validate Sample.world_ok) (jwt.Claims token) = []
      ∧ jwt.Claims token !! "iss" = Some (JStr (Issuer Sample.config))
      ∧ audienceAccepted (jwt.Claims token) Sample.config
      ∧ jwt.Claims token !! "sub" = Some (JStr (UserID Sample.uploader))
      ∧ UserID Sample.uploader ≠ EmptyString
      ∧ Sample.uploader
        = authContextFrom (jwt.Claims token) (UserID Sample.uploader).
Proof.
  assert ((runVerifyToken Sample.libs Sample.world_ok
             (Sample.token Sample.header_k1 Sample.payload_upload
                Sample.good_signature)
             Sample.client0 Sample.config).2 = inr Sample.uploader) as Hrun
    by (vm_compute; reflexivity).
  split; [exact Hrun|].
  exact (VerifyToken_sound Sample.libs Sample.world_ok _ Sample.client0
           Sample.config Sample.uploader Hrun).
Defined.

(** X8.  A token whose signature verified and whose time claims are valid
    is accepted as soon as its issuer is the configured one, the audience
    check has nothing to object to and its subject is a string that is not
    empty: [VerifyToken] returns the [AuthContext] built from its claims. *)
Theorem VerifyToken_accepts (L : Libs) (w : World) (tokenString : string)
    (jwksClient : JWKSClient) (config : Config) (token : jwt.Token)
    (sub : string) :
  signatureVerified L w tokenString jwksClient token →
  jwt.Validate (now_validate w) (jwt.Claims token) = [] →
  jwt.Claims token !! "iss" = Some (JStr (Issuer config)) →
  audienceAccepted (jwt.Claims token) config →
  jwt.Claims token !! "sub" = Some (JStr sub) →
  sub ≠ EmptyString →
  (runVerifyToken L w tokenString jwksClient config).2
  = inr (authContextFrom (jwt.Claims token) sub).
Proof.
  intros Hsig Hval Hiss Haud Hsub Hne.
  destruct (runVerifyToken_claims L w tokenString jwksClient config token
              Hsig Hval) as (st & ->).
  rewrite authContextOf_result, Hiss, String.eqb_refl, Hsub.
  apply (audienceAccepted_checkAudience _ _ st) in Haud as ->. simpl.
  by destruct (String.eqb_spec sub EmptyString).
Qed.

Lemma Sample2_signatureVerified (payload : string) (claims : gmap string json) :
  Sample2.claimsOf payload = Some claims →
  strings.Split (Sample.token Sample.header_k1 payload Sample.good_signature) "."
    = [Sample.header_k1; payload; Sample.good_signature] →
  signatureVerified Sample2.libs Sample.world_ok
    (Sample.token Sample.header_k1 payload Sample.good_signature)
    Sample.client0 (Sample.signed payload claims).
Proof.
  intros Hclaims Hsplit.
  exists Sample.header_k1, payload, Sample.good_signature,
    (Sample.decoded Sample.header_k1),
    {[ "alg" := JStr "RS256"; "kid" := JStr "k1" ]}, "k1",
    [Sample.key_k1], Sample.key_k1, (RSAPublicKey 3233 17), "RS256".
  split; [exact Hsplit|].
  repeat split; try (vm_compute; reflexivity).
  simpl. unfold Sample2.ParseUnverified. rewrite Hsplit, Hclaims.
  reflexivity.
Qed.

Lemma VerifyToken_accepts_witness :
  signatureVerified Sample2.libs Sample.world_ok
    (Sample.token Sample.header_k1 Sample2.payload_full Sample.good_signature)
    Sample.client0 (Sample.signed Sample2.payload_full Sample2.claims_full)
  ∧ (runVerifyToken Sample2.libs Sample.world_ok
       (Sample.token Sample.header_k1 Sample2.payload_full Sample.good_signature)
       Sample.client0 Sample.config).2
    = inr {| UserID := "user-7"; OrgID := Some "org-1";
             Roles := ["admin"; "editor"];
             Permissions := ["files:upload"; "files:delete"];
             Email := None; Name := Some "Ada" |}.
Proof.
  assert (signatureVerified Sample2.libs Sample.world_ok
            (Sample.token Sample.header_k1 Sample2.payload_full
               Sample.good_signature)
            Sample.client0
            (Sample.signed Sample2.payload_full Sample2.claims_full)) as Hsig
    by (apply Sample2_signatureVerified; vm_compute; reflexivity).
  split; [exact Hsig|].
  refine (VerifyToken_accepts Sample2.libs Sample.world_ok _ Sample.client0
            Sample.config _ "user-7" Hsig _ _ _ _ _).
  - vm_compute; reflexivity.
  - vm_compute; reflexivity.
  - split.
    + intros aud Haud. vm_compute in Haud. discriminate.
    + intros audArr Haud. vm_compute in Haud. injection Haud as <-.
      apply list_elem_of_further, list_elem_of_here.
  - vm_compute; reflexivity.
  - discriminate.
Defined.

(** X9.  A token whose signature verified and whose time claims are valid,
    but whose [iss] claim is absent, not a string or not the configured
    issuer, is rejected with the issuer error, whatever its other claims. *)
Theorem VerifyToken_issuer (L : Libs) (w : World) (tokenString : string)
    (jwksClient : JWKSClient) (config : Config) (token : jwt.Token) :
  signatureVerified L w tokenString jwksClient token →
  jwt.Validate (now_validate w) (jwt.Claims token) = [] →
  jwt.Claims token !! "iss" ≠ Some (JStr (Issuer config)) →
  (runVerifyToken L w tokenString jwksClient config).2 = inl ErrInvalidIssuer.
Proof.
  intros Hsig Hval Hiss.
  destruct (runVerifyToken_claims L w tokenString jwksClient config token
              Hsig Hval) as (st & ->).
  rewrite authContextOf_result.
  destruct (jwt.Claims token !! "iss") as [[| | |iss| |]|]; try done.
  destruct (String.eqb_spec iss (Issuer config)) as [Heq|]; [|done].
  destruct Hiss. by rewrite Heq.
Qed.

Lemma VerifyToken_issuer_witness :
  signatureVerified Sample2.libs Sample.world_ok
    (Sample.token Sample.header_k1 Sample2.payload_other_issuer
       Sample.good_signature)
    Sample.client0
    (Sample.signed Sample2.payload_other_issuer Sample2.claims_other_issuer)
  ∧ (runVerifyToken Sample2.libs Sample.world_ok
       (Sample.token Sample.header_k1 Sample2.payload_other_issuer
          Sample.good_signature)
       Sample.client0 Sample.config).2 = inl ErrInvalidIssuer.
Proof.
  assert (signatureVerified Sample2.libs Sample.world_ok
            (Sample.token Sample.header_k1 Sample2.payload_other_issuer
               Sample.good_signature)
            Sample.client0
            (Sample.signed Sample2.payload_other_issuer
               Sample2.claims_other_issuer)) as Hsig
    by (apply Sample2_signatureVerified; vm_compute; reflexivity).
  split; [exact Hsig|].
  refine (VerifyToken_issuer Sample2.libs Sample.world_ok _ Sample.client0
            Sample.config _ Hsig _ _).
  - vm_compute; reflexivity.
  - vm_compute. discriminate.
Defined.

(** X10.  A token whose signature verified, whose time claims are valid,
    whose issuer is the configured one and to whose audience the check has
    nothing to object, but whose [sub] claim is absent, not a string or
    the empty string, is rejected with the missing-subject error. *)
Theorem VerifyToken_subject (L : Libs) (w : World) (tokenString : string)
    (jwksClient : JWKSClient) (config : Config) (token : jwt.Token) :
  signatureVerified L w tokenString jwksClient token →
  jwt.Validate (now_validate w) (jwt.Claims token) = [] →
  jwt.Claims token !! "iss" = Some (JStr (Issuer config)) →
  audienceAccepted (jwt.Claims token) config →
  (∀ sub, jwt.Claims token !! "sub" = Some (JStr sub) → sub = EmptyString) →
  (runVerifyToken L w tokenString jwksClient config).2 = inl ErrMissingSub.
Proof.
  intros Hsig Hval Hiss Haud Hsub.
  destruct (runVerifyToken_claims L w tokenString jwksClient config token
              Hsig Hval) as (st & ->).
  rewrite authContextOf_result, Hiss, String.eqb_refl.
  apply (audienceAccepted_checkAudience _ _ st) in Haud as ->. simpl.
  destruct (jwt.Claims token !! "sub") as [[| | |sub| |]|]; try done.
  by rewrite (Hsub sub eq_refl).
Qed.

Lemma VerifyToken_subject_witness :
  signatureVerified Sample2.libs Sample.world_ok
    (Sample.token Sample.header_k1 Sample2.payload_no_sub Sample.good_signature)
    Sample.client0 (Sample.signed Sample2.payload_no_sub Sample2.claims_no_sub)
  ∧ (runVerifyToken Sample2.libs Sample.world_ok
       (Sample.token Sample.header_k1 Sample2.payload_no_sub
          Sample.good_signature)
       Sample.client0 Sample.config).2 = inl ErrMissingSub.
Proof.
  assert (signatureVerified Sample2.libs Sample.world_ok
            (Sample.token Sample.header_k1 Sample2.payload_no_sub
               Sample.good_signature)
            Sample.client0
            (Sample.signed Sample2.payload_no_sub Sample2.claims_no_sub)) as Hsig
    by (apply Sample2_signatureVerified; vm_compute; reflexivity).
  split; [exact Hsig|].
  refine (VerifyToken_subject Sample2.libs Sample.world_ok _ Sample.client0
            Sample.config _ Hsig _ _ _ _).
  - vm_compute; reflexivity.
  - vm_compute; reflexivity.
  - split.
    + intros aud Haud. vm_compute in Haud. by injection Haud as <-.
    + intros audArr Haud. vm_compute in Haud. discriminate.
  - intros sub Hsub. vm_compute in Hsub. discriminate.
Defined.

Lemma VerifyToken_audience_check_witness :
  signatureVerified Sample.libs Sample.world_ok
    (Sample.token Sample.header_k1 Sample.payload_other_aud Sample.good_signature)
    Sample.client0 (Sample.signed Sample.payload_other_aud Sample.claims_other_aud)
  ∧ (runVerifyToken Sample.libs Sample.world_ok
       (Sample.token Sample.header_k1 Sample.payload_other_aud
          Sample.good_signature)
       Sample.client0 Sample.config).2 = inl ErrInvalidAudience.
Proof.
  assert (signatureVerified Sample.libs Sample.world_ok
            (Sample.token Sample.header_k1 Sample.payload_other_aud
               Sample.good_signature)
            Sample.client0
            (Sample.signed Sample.payload_other_aud Sample.claims_other_aud))
    as Hsig by (apply Sample_signatureVerified; vm_compute; reflexivity).
  split; [exact Hsig|].
  apply (VerifyToken_audience_check Sample.libs Sample.world_ok _ Sample.client0
           Sample.config _ Hsig).
  - vm_compute; reflexivity.
  - vm_compute; reflexivity.
  - left. exists "other-service". split; [vm_compute; reflexivity|discriminate].
Defined.

Section Extraction.

Lemma stringsOf_elem values s : s ∈ stringsOf values ↔ JStr s ∈ values.
Proof.
  induction values as [|v rest IH]; simpl.
  - by rewrite !elem_of_nil.
  - destruct v; rewrite ?elem_of_cons, IH; naive_solver.
Qed.

Lemma stringsOf_sublist values : JStr <$> stringsOf values `sublist_of` values.
Proof.
  induction values as [|v rest IH]; simpl; [constructor|].
  destruct v; simpl; by constructor.
Qed.

Lemma stringPtr_Some v s :
  stringPtr v = Some s ↔ v = Some (JStr s) ∧ s ≠ EmptyString.
Proof.
  unfold stringPtr. destruct v as [[| | |s'| |]|]; try naive_solver.
  destruct (String.eqb_spec s' EmptyString); naive_solver.
Qed.

End Extraction.

(** X12.  The attributes of the [AuthContext] that [VerifyToken] returns,
    against the claims of the token that the library decoded: the
    permissions (and likewise the roles) are the elements of the claim that
    are strings, in the order of the claim, and there are none when the
    claim is not an array; the organization, the email and the name are
    present exactly when the claim is a string that is not empty. *)
Theorem VerifyToken_attributes (L : Libs) (w : World) (tokenString : string)
    (jwksClient : JWKSClient) (config : Config) (ctx : AuthContext)
    (token : jwt.Token) :
  (runVerifyToken L w tokenString jwksClient config).2 = inr ctx →
  jwt.ParseUnverified (jwt_internals L) tokenString = inr token →
  (∀ values, jwt.Claims token !! "permissions" = Some (JArr values) →
     JStr <$> Permissions ctx `sublist_of` values
     ∧ ∀ p, p ∈ Permissions ctx ↔ JStr p ∈ values)
  ∧ ((∀ values, jwt.Claims token !! "permissions" ≠ Some (JArr values)) →
     Permissions ctx = [])
  ∧ (∀ values, jwt.Claims token !! "roles" = Some (JArr values) →
       JStr <$> Roles ctx `sublist_of` values
       ∧ ∀ r, r ∈ Roles ctx ↔ JStr r ∈ values)
  ∧ ((∀ values, jwt.Claims token !! "roles" ≠ Some (JArr values)) →
     Roles ctx = [])
  ∧ (∀ s, OrgID ctx = Some s
          ↔ jwt.Claims token !! "org_id" = Some (JStr s) ∧ s ≠ EmptyString)
  ∧ (∀ s, Email ctx = Some s
          ↔ jwt.Claims token !! "email" = Some (JStr s) ∧ s ≠ EmptyString)
  ∧ (∀ s, Name ctx = Some s
          ↔ jwt.Claims token !! "name" = Some (JStr s) ∧ s ≠ EmptyString).
Proof.
  intros Hctx Hparse.
  destruct (runVerifyToken_accepted L w tokenString jwksClient config ctx Hctx)
    as (token' & Hsig & _ & _ & _ & _ & _ & ->).
  assert (token' = token) as ->.
  { destruct Hsig as (? & ? & ? & ? & ? & ? & ? & ? & ? & ? & _ & _ & _ & _
                      & _ & _ & _ & Hparse' & _).
    congruence. }
  unfold authContextFrom. simpl.
  split; [|split; [|split; [|split; [|split; [|split]]]]].
  - intros values ->. simpl. split; [apply stringsOf_sublist|].
    intros p. apply stringsOf_elem.
  - intros Hnot. unfold stringList.
    destruct (jwt.Claims token !! "permissions") as [[| | | |values|]|]; try done.
    by destruct (Hnot values).
  - intros values ->. simpl. split; [apply stringsOf_sublist|].
    intros r. apply stringsOf_elem.
  - intros Hnot. unfold stringList.
    destruct (jwt.Claims token !! "roles") as [[| | | |values|]|]; try done.
    by destruct (Hnot values).
  - intros s. apply stringPtr_Some.
  - intros s. apply stringPtr_Some.
  - intros s. apply stringPtr_Some.
Qed.

Lemma VerifyToken_attributes_witness :
  (runVerifyToken Sample2.libs Sample.world_ok
     (Sample.token Sample.header_k1 Sample2.payload_full Sample.good_signature)
     Sample.client0 Sample.config).2
  = inr {| UserID := "user-7"; OrgID := Some "org-1";
           Roles := ["admin"; "editor"];
           Permissions := ["files:upload"; "files:delete"];
           Email := None; Name := Some "Ada" |}
  ∧ jwt.ParseUnverified (jwt_internals Sample2.libs)
      (Sample.token Sample.header_k1 Sample2.payload_full Sample.good_signature)
    = inr (Sample.signed Sample2.payload_full Sample2.claims_full)
  ∧ JStr <$> ["files:upload"; "files:delete"]
    `sublist_of` [JStr "files:upload"; JNull; JStr "files:delete"].
Proof.
  assert ((runVerifyToken Sample2.libs Sample.world_ok
             (Sample.token Sample.header_k1 Sample2.payload_full
                Sample.good_signature)
             Sample.client0 Sample.config).2
          = inr {| UserID := "user-7"; OrgID := Some "org-1";
                   Roles := ["admin"; "editor"];
                   Permissions := ["files:upload"; "files:delete"];
                   Email := None; Name := Some "Ada" |}) as Hrun
    by (vm_compute; reflexivity).
  assert (jwt.ParseUnverified (jwt_internals Sample2.libs)
            (Sample.token Sample.header_k1 Sample2.payload_full
               Sample.good_signature)
          = inr (Sample.signed Sample2.payload_full Sample2.claims_full))
    as Hparse by (vm_compute; reflexivity).
  assert (jwt.Claims (Sample.signed Sample2.payload_full Sample2.claims_full)
            !! "permissions"
          = Some (JArr [JStr "files:upload"; JNull; JStr "files:delete"]))
    as Hperm by (vm_compute; reflexivity).
  split; [exact Hrun|]. split; [exact Hparse|].
  exact (proj1 (proj1 (VerifyToken_attributes Sample2.libs Sample.world_ok _
                         Sample.client0 Sample.config _ _ Hrun Hparse)
                  _ Hperm)).
Defined.

(** X13.  Only tokens that declare an RSA signing method get the key: for
    a token with any other method (HMAC, ECDSA, RSA-PSS, none) the key
    function refuses, [VerifyToken] fails with the verification error that
    wraps the unexpected signing method with the [alg] of the header, and
    after the key lookup nothing is verified. *)
Theorem VerifyToken_signing_method (L : Libs) (w : World) (tokenString : string)
    (jwksClient : JWKSClient) (config : Config) (kid : string)
    (publicKey : PublicKey) (token : jwt.Token) :
  keySelected L w tokenString jwksClient kid publicKey →
  jwt.ParseUnverified (jwt_internals L) tokenString = inr token →
  (∀ alg, jwt.Method token ≠ jwt.SigningMethodRSA alg) →
  runVerifyToken L w tokenString jwksClient config
  = ((GetKeySet L w jwksClient).1.1,
     (GetKeySet L w jwksClient).1.2 ++ [EvLookupKeyID kid],
     inl (ErrVerificationFailed
            (jwt.ErrKeyfunc
               (ErrUnexpectedSigningMethod (jwt.Header token !! "alg"))))).
Proof.
  intros Hkey Hparse Hmeth.
  rewrite (runVerifyToken_keySelected L w tokenString jwksClient config kid
             publicKey Hkey).
  unfold jwt.Parse, keyFunc. rewrite Hparse. simpl.
  destruct (jwt.Method token) as [alg| | | | |] eqn:Hm;
    [by destruct (Hmeth alg)|..]; by rewrite app_nil_r.
Qed.

Lemma VerifyToken_signing_method_witness :
  keySelected Sample2.libs Sample.world_ok
    (Sample.token Sample2.header_hs Sample.payload_upload Sample.good_signature)
    Sample.client0 "k1" (RSAPublicKey 3233 17)
  ∧ runVerifyToken Sample2.libs Sample.world_ok
      (Sample.token Sample2.header_hs Sample.payload_upload Sample.good_signature)
      Sample.client0 Sample.config
    = (Sample.client1,
       [EvHttpGet (JWKSUrl Sample.config); EvLookupKeyID "k1"],
       inl (ErrVerificationFailed
              (jwt.ErrKeyfunc
                 (ErrUnexpectedSigningMethod (Some (JStr "HS256")))))).
Proof.
  assert (keySelected Sample2.libs Sample.world_ok
            (Sample.token Sample2.header_hs Sample.payload_upload
               Sample.good_signature)
            Sample.client0 "k1" (RSAPublicKey 3233 17)) as Hkey.
  { exists Sample2.header_hs, Sample.payload_upload, Sample.good_signature,
      (Sample.decoded Sample2.header_hs),
      {[ "alg" := JStr "HS256"; "kid" := JStr "k1" ]},
      [Sample.key_k1], Sample.key_k1.
    repeat split; vm_compute; reflexivity. }
  split; [exact Hkey|].
  refine (VerifyToken_signing_method Sample2.libs Sample.world_ok _
            Sample.client0 Sample.config "k1" (RSAPublicKey 3233 17)
            (Sample2.decodedToken Sample2.header_hs
               (jwt.SigningMethodHMAC "HS256") "HS256" Sample.payload_upload
               Sample.claims_upload)
            Hkey _ _).
  - vm_compute; reflexivity.
  - intros alg. discriminate.
Defined.

Section Effects.
Context (L : Libs).

Lemma Parse_events {K : Type} I now tokenString (keyFunc : jwt.Token → K + PublicKey) :
  (jwt.Parse I now tokenString keyFunc).1 = []
  ∨ ∃ key, (jwt.Parse I now tokenString keyFunc).1 = [EvVerifySignature key].
Proof.
  unfold jwt.Parse. repeat case_match; simpl; eauto.
Qed.

Lemma GetKeySet_events_cases w c :
  (GetKeySet L w c).1.2 = [] ∨ (GetKeySet L w c).1.2 = [EvHttpGet (url c)].
Proof.
  unfold GetKeySet, http.NewRequestWithContext.
  repeat case_match; simpl; simplify_eq; auto.
Qed.

End Effects.

(** The shape of what a call of [VerifyToken] does. *)
Lemma runVerifyToken_shape (L : Libs) (w : World) (tokenString : string)
    (jwksClient : JWKSClient) (config : Config) :
  (runVerifyToken L w tokenString jwksClient config).1 = (jwksClient, [])
  ∨ (runVerifyToken L w tokenString jwksClient config).1.1
      = (GetKeySet L w jwksClient).1.1
    ∧ ∃ tail,
        (runVerifyToken L w tokenString jwksClient config).1.2
          = (GetKeySet L w jwksClient).1.2 ++ tail
        ∧ (tail = []
           ∨ ∃ kid, tail = [EvLookupKeyID kid]
                    ∨ ∃ key, tail = [EvLookupKeyID kid; EvVerifySignature key]).
Proof.
  unfold runVerifyToken, VerifyToken.
    destruct (strings.Split tokenString ".")
      as [|part0 [|part1 [|part2 [|]]]]; try (by left).
    unfold try, fail, emit, callGetKeySet; unfold mbind, M_bind, mret, M_ret.
    destruct (base64.DecodeString part0) as [|headerBytes]; simpl;
      [by left|].
    destruct (json_Unmarshal L headerBytes) as [|header]; simpl; [by left|].
    destruct (header !! "kid") as [[| | |kid| |]|]; simpl; try (by left).
    right.
    destruct (GetKeySet L w jwksClient) as [[c evs] [|keySet]]; simpl.
    { split; [done|]. exists []. by rewrite app_nil_r; auto. }
    destruct (jwk.LookupKeyID keySet kid) as [key|]; simpl;
      [|split; [done|]; exists [EvLookupKeyID kid]; eauto].
    destruct (jwk.Raw key) as [|publicKey]; simpl;
      [split; [done|]; exists [EvLookupKeyID kid]; eauto|].
    pose proof (Parse_events (jwt_internals L) (now_validate w) tokenString
                  (keyFunc publicKey)) as Hevs.
    destruct (jwt.Parse _ _ _ _) as [evs' parsed]. simpl in Hevs.
    assert (∃ tail, (evs ++ [EvLookupKeyID kid]) ++ evs' = evs ++ tail
                    ∧ (tail = []
                       ∨ ∃ kid, tail = [EvLookupKeyID kid]
                                ∨ ∃ key, tail = [EvLookupKeyID kid;
                                                 EvVerifySignature key]))
      as Htail.
    { destruct Hevs as [->|[k ->]].
      - exists [EvLookupKeyID kid]. rewrite app_nil_r. eauto.
      - exists [EvLookupKeyID kid; EvVerifySignature k].
        rewrite <- app_assoc. eauto 6. }
    destruct parsed as [err|verifiedToken]; simpl; [done|].
    pose proof (authContextOf_state (jwt.Claims verifiedToken) config
                  (c, (evs ++ [EvLookupKeyID kid]) ++ evs')) as Hst.
    destruct (authContextOf _ _ _) as [st' r]. simpl in *. by subst st'.
Qed.

(** X14.  What one call of [VerifyToken] does: either nothing at all (the
    client is untouched), or it calls [GetKeySet] once (the client is then
    as [GetKeySet] leaves it) and after that looks up at most one key and,
    only after the lookup, verifies at most one signature.  So a call
    fetches at most once, looks up at most once and verifies at most
    once. *)
Theorem VerifyToken_effects (L : Libs) (w : World) (tokenString : string)
    (jwksClient : JWKSClient) (config : Config) :
  ((runVerifyToken L w tokenString jwksClient config).1 = (jwksClient, [])
   ∨ (runVerifyToken L w tokenString jwksClient config).1.1
       = (GetKeySet L w jwksClient).1.1
     ∧ ∃ tail,
         (runVerifyToken L w tokenString jwksClient config).1.2
           = (GetKeySet L w jwksClient).1.2 ++ tail
         ∧ (tail = []
            ∨ ∃ kid, tail = [EvLookupKeyID kid]
                     ∨ ∃ key, tail = [EvLookupKeyID kid; EvVerifySignature key]))
  ∧ (fetches (runVerifyToken L w tokenString jwksClient config).1.2 ≤ 1)%nat
  ∧ (lookups (runVerifyToken L w tokenString jwksClient config).1.2 ≤ 1)%nat
  ∧ (verifications (runVerifyToken L w tokenString jwksClient config).1.2 ≤ 1)%nat.
Proof.
  pose proof (runVerifyToken_shape L w tokenString jwksClient config) as Hshape.
  split; [exact Hshape|].
  destruct Hshape as [->|(_ & tail & -> & Htail)]; simpl; [lia|].
  assert (fetches tail = 0 ∧ lookups tail ≤ 1 ∧ verifications tail ≤ 1)%nat
    as (Hf & Hl & Hv).
  { destruct Htail as [->|(kid & [->|(key & ->)])]; simpl; lia. }
  pose proof (GetKeySet_fetches L w jwksClient) as Hfetch.
  assert (∀ evs1 evs2, lookups (evs1 ++ evs2)
                       = (lookups evs1 + lookups evs2)%nat) as Hlapp.
  { induction evs1 as [|[] ? IH]; intros; simpl; auto. }
  assert (∀ evs1 evs2, verifications (evs1 ++ evs2)
                       = (verifications evs1 + verifications evs2)%nat) as Hvapp.
  { induction evs1 as [|[] ? IH]; intros; simpl; auto. }
  rewrite fetches_app, Hlapp, Hvapp.
  destruct (GetKeySet_events_cases L w jwksClient) as [Hg|Hg];
    rewrite Hg in *; simpl in *; lia.
Qed.

(** X15.  What is wrong with the header is found before the key set is
    asked for: a header that is not JSON gives the header-parsing error and
    a header without a [kid] that is a string the missing-kid error, both
    with no effect at all; and when the key set cannot be retrieved, the
    error of [GetKeySet] is returned wrapped, without any key lookup. *)
Theorem VerifyToken_header_errors (L : Libs) (w : World) (tokenString : string)
    (jwksClient : JWKSClient) (config : Config) (part0 part1 part2 : string)
    (headerBytes : list byte) :
  strings.Split tokenString "." = [part0; part1; part2] →
  base64.DecodeString part0 = inr headerBytes →
  (∀ err, json_Unmarshal L headerBytes = inl err →
          runVerifyToken L w tokenString jwksClient config
          = (jwksClient, [], inl (ErrParseHeader err)))
  ∧ (∀ header, json_Unmarshal L headerBytes = inr header →
               (∀ kid, header !! "kid" ≠ Some (JStr kid)) →
               runVerifyToken L w tokenString jwksClient config
               = (jwksClient, [], inl ErrMissingKid))
  ∧ (∀ header kid err,
       json_Unmarshal L headerBytes = inr header →
       header !! "kid" = Some (JStr kid) →
       (GetKeySet L w jwksClient).2 = inl err →
       runVerifyToken L w tokenString jwksClient config
       = ((GetKeySet L w jwksClient).1.1, (GetKeySet L w jwksClient).1.2,
          inl (ErrGetJWKS err))
       ∧ Error L (ErrGetJWKS err) = "failed to get JWKS: " +:+ Error L err).
Proof.
  intros Hsplit Hdec.
  unfold runVerifyToken, VerifyToken. rewrite Hsplit.
  unfold try, fail, emit, callGetKeySet; unfold mbind, M_bind, mret, M_ret.
  rewrite Hdec. simpl. split; [|split].
  - by intros err ->.
  - intros header -> Hkid.
    destruct (header !! "kid") as [[| | |kid| |]|]; try done.
    by destruct (Hkid kid).
  - intros header kid err -> -> Herr. simpl.
    destruct (GetKeySet L w jwksClient) as [[c evs] r]. simpl in Herr.
    subst r. done.
Qed.

Lemma VerifyToken_header_errors_witness :
  strings.Split "YWJj.e30.c2ln" "." = ["YWJj"; "e30"; "c2ln"]
  ∧ base64.DecodeString "YWJj" = inr (list_byte_of_string "abc")
  ∧ runVerifyToken Sample.libs Sample.world_ok "YWJj.e30.c2ln" Sample.client0
      Sample.config
    = (Sample.client0, [], inl (ErrParseHeader "invalid character")).
Proof.
  split; [reflexivity|]. split; [reflexivity|].
  exact (proj1 (VerifyToken_header_errors Sample.libs Sample.world_ok
                  "YWJj.e30.c2ln" Sample.client0 Sample.config "YWJj" "e30"
                  "c2ln" (list_byte_of_string "abc") eq_refl eq_refl)
           "invalid character" eq_refl).
Defined.

(** ** The middlewares, continued *)

Section Gate.

Lemma HasPrefix_app (s prefix : string) :
  strings.HasPrefix s prefix = true ↔ ∃ rest, s = prefix +:+ rest.
Proof.
  revert s. induction prefix as [|p prefix IH]; intros s; simpl.
  - split; [by exists s|done].
  - destruct s as [|ch s]; simpl.
    + split; [done|]. by intros (rest & [=]).
    + destruct (Ascii.eqb_spec ch p) as [->|Hne]; simpl.
      * rewrite IH. split.
        -- intros (rest & ->). by exists rest.
        -- intros (rest & [= ->]). by exists rest.
      * split; [done|]. intros (rest & [= ? _]). done.
Qed.

Lemma Written_JSON_ne code obj c c' :
  gin.Written c' = gin.Written c → c' ≠ gin.Abort (gin.JSON code obj c).
Proof.
  intros Hw Heq. symmetry in Heq. by apply JSON_not_Next in Heq.
Qed.

Lemma Abort_JSON_inj code obj code' obj' c :
  gin.Abort (gin.JSON code obj c) = gin.Abort (gin.JSON code' obj' c) →
  code = code' ∧ obj = obj'.
Proof.
  intros Heq. apply (f_equal gin.Written) in Heq. simpl in Heq.
  apply app_inv_head in Heq. by injection Heq.
Qed.

End Gate.

(** X16.  The gate refuses, with the answer 401 and its generic message,
    without verifying anything and without touching the key-set client,
    exactly the requests whose [Authorization] header is not of the form
    [Bearer ] followed by a token (a missing header and a prefix in other
    letter case are such). *)
Theorem AuthMiddleware_header_gate (L : Libs) (w : World)
    (jwksClient : JWKSClient) (config : Config) (c : gin.Context) :
  (∀ token, gin.GetHeader c "Authorization" ≠ "Bearer " +:+ token)
  ↔ AuthMiddleware L w jwksClient config c
    = (jwksClient, [],
       gin.Abort
         (gin.JSON http.StatusUnauthorized
            {[ "error" := VString "Missing or invalid authorization header" ]} c)).
Proof.
  unfold AuthMiddleware.
  destruct (strings.HasPrefix (gin.GetHeader c "Authorization") "Bearer ")
    eqn:Hprefix.
  - apply HasPrefix_app in Hprefix as (token & Hheader).
    rewrite Hheader. destruct (bearer_header token) as (-> & _ & ->). simpl.
    split; [intros Hnot; by destruct (Hnot token)|].
    destruct (runVerifyToken L w token jwksClient config) as [[c' evs] [err|ctx]].
    + intros Heq. apply (f_equal snd) in Heq. simpl in Heq.
      apply Abort_JSON_inj in Heq as [_ Heq].
      apply (f_equal (λ m : gmap string any, m !! "error")) in Heq.
      vm_compute in Heq. discriminate.
    + intros Heq. apply (f_equal snd) in Heq. simpl in Heq.
      by apply Written_JSON_ne in Heq.
  - rewrite orb_true_r. split; [done|]. intros _ token Hheader.
    assert (strings.HasPrefix (gin.GetHeader c "Authorization") "Bearer " = true)
      as Hp by (apply HasPrefix_app; eauto).
    congruence.
Qed.

(** X17.  When the token of a bearer request verifies, the gate attaches
    the [AuthContext] under the key [auth], where [GetAuthContext] finds
    it, leaves the other keys alone, writes nothing and runs the remaining
    handlers; the key-set client and the events are those of the
    verification. *)
Theorem AuthMiddleware_accepts (L : Libs) (w : World) (jwksClient : JWKSClient)
    (config : Config) (c : gin.Context) (token : string) (ctx : AuthContext) :
  gin.GetHeader c "Authorization" = "Bearer " +:+ token →
  (runVerifyToken L w token jwksClient config).2 = inr ctx →
  AuthMiddleware L w jwksClient config c
  = ((runVerifyToken L w token jwksClient config).1,
     gin.Next (gin.Set_ "auth" (VAuthContext ctx) c))
  ∧ GetAuthContext (AuthMiddleware L w jwksClient config c).2 = Some ctx
  ∧ (∀ key, key ≠ "auth" →
            gin.Get (AuthMiddleware L w jwksClient config c).2 key = gin.Get c key)
  ∧ gin.Written (AuthMiddleware L w jwksClient config c).2 = gin.Written c
  ∧ gin.NextCalled (AuthMiddleware L w jwksClient config c).2 = true.
Proof.
  intros Hheader Hctx.
  assert (AuthMiddleware L w jwksClient config c
          = ((runVerifyToken L w token jwksClient config).1,
             gin.Next (gin.Set_ "auth" (VAuthContext ctx) c))) as ->.
  { unfold AuthMiddleware. rewrite Hheader.
    destruct (bearer_header token) as (-> & -> & ->). simpl.
    destruct (runVerifyToken L w token jwksClient config) as [[c' evs] r].
    simpl in Hctx. by subst r. }
  split; [done|]. simpl.
  unfold GetAuthContext, gin.Get. simpl.
  split; [by rewrite lookup_insert_eq|].
  split; [|done]. intros key Hkey. by rewrite lookup_insert_ne.
Qed.

Lemma AuthMiddleware_accepts_witness :
  gin.GetHeader
    (Sample.request
       ("Bearer " +:+ Sample.token Sample.header_k1 Sample.payload_upload
                        Sample.good_signature))
    "Authorization"
  = "Bearer " +:+ Sample.token Sample.header_k1 Sample.payload_upload
                    Sample.good_signature
  ∧ (runVerifyToken Sample.libs Sample.world_ok
       (Sample.token Sample.header_k1 Sample.payload_upload Sample.good_signature)
       Sample.client0 Sample.config).2 = inr Sample.uploader
  ∧ GetAuthContext
      (AuthMiddleware Sample.libs Sample.world_ok Sample.client0 Sample.config
         (Sample.request
            ("Bearer " +:+ Sample.token Sample.header_k1 Sample.payload_upload
                             Sample.good_signature))).2
    = Some Sample.uploader.
Proof.
  split; [vm_compute; reflexivity|]. split; [vm_compute; reflexivity|].
  exact (proj1 (proj2
           (AuthMiddleware_accepts Sample.libs Sample.world_ok Sample.client0
              Sample.config
              (Sample.request
                 ("Bearer " +:+ Sample.token Sample.header_k1
                                  Sample.payload_upload Sample.good_signature))
              (Sample.token Sample.header_k1 Sample.payload_upload
                 Sample.good_signature)
              Sample.uploader eq_refl eq_refl))).
Defined.

(** X18.  The gate does one of two things and never mixes them: either it
    attaches an [AuthContext] under [auth], writes nothing and runs the
    remaining handlers; or it writes exactly one answer, with status 401,
    aborts, attaches nothing and does not run the remaining handlers.  It
    never changes the request headers, and the key-set client after it is
    the given one or the one that [GetKeySet] leaves. *)
Theorem AuthMiddleware_outcomes (L : Libs) (w : World) (jwksClient : JWKSClient)
    (config : Config) (c : gin.Context) :
  gin.Request_Header (AuthMiddleware L w jwksClient config c).2
    = gin.Request_Header c
  ∧ ((AuthMiddleware L w jwksClient config c).1.1 = jwksClient
     ∨ (AuthMiddleware L w jwksClient config c).1.1
       = (GetKeySet L w jwksClient).1.1)
  ∧ ((∃ ctx,
        gin.Keys (AuthMiddleware L w jwksClient config c).2
          = <["auth" := VAuthContext ctx]> (gin.Keys c)
        ∧ gin.Written (AuthMiddleware L w jwksClient config c).2 = gin.Written c
        ∧ gin.Aborted (AuthMiddleware L w jwksClient config c).2 = gin.Aborted c
        ∧ gin.NextCalled (AuthMiddleware L w jwksClient config c).2 = true)
     ∨ (∃ body,
          gin.Written (AuthMiddleware L w jwksClient config c).2
            = gin.Written c ++ [(http.StatusUnauthorized, body)]
          ∧ gin.Keys (AuthMiddleware L w jwksClient config c).2 = gin.Keys c
          ∧ gin.Aborted (AuthMiddleware L w jwksClient config c).2 = true
          ∧ gin.NextCalled (AuthMiddleware L w jwksClient config c).2
            = gin.NextCalled c)).
Proof.
  unfold AuthMiddleware.
  destruct (_ || _); simpl.
  { split; [done|]. split; [by left|]. right. eauto. }
  pose proof (runVerifyToken_shape L w
                (strings.TrimPrefix (gin.GetHeader c "Authorization") "Bearer ")
                jwksClient config) as Hshape.
  destruct (runVerifyToken L w _ jwksClient config) as [[c' evs] [err|ctx]];
    simpl in *.
  - split; [done|]. split.
    + destruct Hshape as [[= -> _]|[-> _]]; auto.
    + right. eauto.
  - split; [done|]. split.
    + destruct Hshape as [[= -> _]|[-> _]]; auto.
    + left. eauto.
Qed.

Section PermissionCheck.

(** The permission check on a context with an [AuthContext] attached. *)
Lemma RequirePermissions_attached requiredPermissions c ctx :
  gin.Get c "auth" = Some (VAuthContext ctx) →
  RequirePermissions requiredPermissions c
  = if hasAll requiredPermissions (Permissions ctx) then gin.Next c
    else gin.Abort
           (gin.JSON http.StatusForbidden
              {[ "error" := VString "Insufficient permissions";
                 "required" := VStrings requiredPermissions;
                 "has" := VStrings (Permissions ctx) ]} c).
Proof.
  intros Hauth. unfold RequirePermissions. rewrite Hauth.
  by destruct (hasAll requiredPermissions (Permissions ctx)).
Qed.

(** The permission check proceeds only on a context with an [AuthContext]
    attached that has all the required permissions. *)
Lemma RequirePermissions_Next requiredPermissions c :
  RequirePermissions requiredPermissions c = gin.Next c
  ↔ ∃ ctx, gin.Get c "auth" = Some (VAuthContext ctx)
           ∧ hasAll requiredPermissions (Permissions ctx) = true.
Proof.
  unfold RequirePermissions.
  destruct (gin.Get c "auth") as [[| |ctx|]|] eqn:Hauth.
  1,2,4,5: split; [intros Heq; by apply JSON_not_Next in Heq
                  |intros (? & [=] & _)].
  destruct (hasAll requiredPermissions (Permissions ctx)) eqn:Hall; simpl.
  - split; [by exists ctx|done].
  - split; [intros Heq; by apply JSON_not_Next in Heq|].
    intros (ctx' & [= <-] & Hall'). congruence.
Qed.

Lemma hasAll_app required1 required2 perms :
  hasAll (required1 ++ required2) perms
  = hasAll required1 perms && hasAll required2 perms.
Proof.
  induction required1 as [|r rest IH]; simpl; [done|].
  by destruct (permissionFound perms r).
Qed.

End PermissionCheck.

(** X19.  Without an [AuthContext] attached the permission check never
    lets the request proceed, not even with an empty list of required
    permissions: it answers 401 and aborts, with the message
    [Not authenticated] when nothing is attached under [auth] and
    [Invalid auth context] when something else is. *)
Theorem RequirePermissions_unauthenticated (requiredPermissions : list string)
    (c : gin.Context) :
  (gin.Get c "auth" = None →
   RequirePermissions requiredPermissions c
   = gin.Abort
       (gin.JSON http.StatusUnauthorized
          {[ "error" := VString "Not authenticated" ]} c))
  ∧ (∀ value, gin.Get c "auth" = Some value →
              (∀ ctx, value ≠ VAuthContext ctx) →
              RequirePermissions requiredPermissions c
              = gin.Abort
                  (gin.JSON http.StatusUnauthorized
                     {[ "error" := VString "Invalid auth context" ]} c))
  ∧ (GetAuthContext c = None →
     RequirePermissions requiredPermissions c ≠ gin.Next c).
Proof.
  unfold RequirePermissions, GetAuthContext.
  split; [|split].
  - by intros ->.
  - intros value -> Hnot. destruct value as [| |ctx|]; try done.
    by destruct (Hnot ctx).
  - destruct (gin.Get c "auth") as [[| |ctx|]|]; try done.
    all: intros _; by apply JSON_not_Next.
Qed.

(** X20.  Requiring two lists of permissions at once lets a request
    proceed exactly when requiring each of them does; and a request that
    passes the check for a list passes it for every list with no other
    elements (the order and the repetitions of the required permissions do
    not matter). *)
Theorem RequirePermissions_app (required1 required2 : list string)
    (c : gin.Context) :
  (RequirePermissions (required1 ++ required2) c = gin.Next c
   ↔ RequirePermissions required1 c = gin.Next c
     ∧ RequirePermissions required2 c = gin.Next c)
  ∧ ((∀ required, required ∈ required1 → required ∈ required2) →
     RequirePermissions required2 c = gin.Next c →
     RequirePermissions required1 c = gin.Next c).
Proof.
  rewrite !RequirePermissions_Next. split.
  - split.
    + intros (ctx & Hauth & Hall). rewrite hasAll_app in Hall.
      apply andb_true_iff in Hall as [H1 H2]. split; by exists ctx.
    + intros [(ctx & Hauth & H1) (ctx' & Hauth' & H2)].
      assert (ctx' = ctx) as -> by congruence.
      exists ctx. split; [done|]. rewrite hasAll_app. by rewrite H1, H2.
  - intros Hsub (ctx & Hauth & Hall). exists ctx. split; [done|].
    apply hasAll_Forall. intros required Hin.
    by apply (proj1 (hasAll_Forall required2 (Permissions ctx)) Hall), Hsub.
Qed.

(** X21.  The permission check never changes the request headers or the
    keys of the context, so the attached [AuthContext] stays as it was;
    and it does one of two things: it writes nothing and runs the
    remaining handlers, or it writes exactly one answer, with status 401
    or 403, and aborts without running them. *)
Theorem RequirePermissions_frame (requiredPermissions : list string)
    (c : gin.Context) :
  gin.Request_Header (RequirePermissions requiredPermissions c)
    = gin.Request_Header c
  ∧ gin.Keys (RequirePermissions requiredPermissions c) = gin.Keys c
  ∧ GetAuthContext (RequirePermissions requiredPermissions c) = GetAuthContext c
  ∧ (gin.Written (RequirePermissions requiredPermissions c) = gin.Written c
     ∧ gin.Aborted (RequirePermissions requiredPermissions c) = gin.Aborted c
     ∧ gin.NextCalled (RequirePermissions requiredPermissions c) = true
     ∨ ∃ code body,
         (code = http.StatusUnauthorized ∨ code = http.StatusForbidden)
         ∧ gin.Written (RequirePermissions requiredPermissions c)
           = gin.Written c ++ [(code, body)]
         ∧ gin.Aborted (RequirePermissions requiredPermissions c) = true
         ∧ gin.NextCalled (RequirePermissions requiredPermissions c)
           = gin.NextCalled c).
Proof.
  unfold GetAuthContext, gin.Get, RequirePermissions, gin.Get.
  destruct (gin.Keys c !! "auth") as [[| |ctx|]|] eqn:Hauth; simpl;
    rewrite ?Hauth.
  1,2,4,5: repeat split; try done; right; eauto 10.
  destruct (hasAll requiredPermissions (Permissions ctx)); simpl;
    rewrite Hauth; repeat split; try done; [left|right]; eauto 10.
Qed.

(** X22.  The gate followed by the permission check: for a bearer request
    whose token verifies, the check on the context that the gate leaves
    lets the request proceed exactly when every required permission is
    among the strings of the [permissions] claim of the token, and
    otherwise answers 403 with the required list and the list held. *)
Theorem gate_then_permissions (L : Libs) (w : World) (jwksClient : JWKSClient)
    (config : Config) (c : gin.Context) (tokenString : string)
    (ctx : AuthContext) (token : jwt.Token) (requiredPermissions : list string) :
  gin.GetHeader c "Authorization" = "Bearer " +:+ tokenString →
  (runVerifyToken L w tokenString jwksClient config).2 = inr ctx →
  jwt.ParseUnverified (jwt_internals L) tokenString = inr token →
  (RequirePermissions requiredPermissions
     (AuthMiddleware L w jwksClient config c).2
   = gin.Next (AuthMiddleware L w jwksClient config c).2
   ↔ ∀ required, required ∈ requiredPermissions →
       ∃ values, jwt.Claims token !! "permissions" = Some (JArr values)
                 ∧ JStr required ∈ values)
  ∧ (RequirePermissions requiredPermissions
       (AuthMiddleware L w jwksClient config c).2
     ≠ gin.Next (AuthMiddleware L w jwksClient config c).2 →
     RequirePermissions requiredPermissions
       (AuthMiddleware L w jwksClient config c).2
     = gin.Abort
         (gin.JSON http.StatusForbidden
            {[ "error" := VString "Insufficient permissions";
               "required" := VStrings requiredPermissions;
               "has" := VStrings (Permissions ctx) ]}
            (AuthMiddleware L w jwksClient config c).2)).
Proof.
  intros Hheader Hctx Hparse.
  assert ((AuthMiddleware L w jwksClient config c).2
          = gin.Next (gin.Set_ "auth" (VAuthContext ctx) c)) as ->.
  { unfold AuthMiddleware. rewrite Hheader.
    destruct (bearer_header tokenString) as (-> & -> & ->). simpl.
    destruct (runVerifyToken L w tokenString jwksClient config) as [[c' evs] r].
    simpl in Hctx. by subst r. }
  assert (gin.Get (gin.Next (gin.Set_ "auth" (VAuthContext ctx) c)) "auth"
          = Some (VAuthContext ctx)) as Hauth.
  { unfold gin.Get. simpl. by rewrite lookup_insert_eq. }
  rewrite (RequirePermissions_attached _ _ ctx Hauth).
  assert (∀ required,
            required ∈ Permissions ctx
            ↔ ∃ values, jwt.Claims token !! "permissions" = Some (JArr values)
                        ∧ JStr required ∈ values) as Hperm.
  { destruct (runVerifyToken_accepted L w tokenString jwksClient config ctx Hctx)
      as (token' & Hsig & _ & _ & _ & _ & _ & ->).
    assert (token' = token) as ->.
    { destruct Hsig as (? & ? & ? & ? & ? & ? & ? & ? & ? & ? & _ & _ & _ & _
                        & _ & _ & _ & Hparse' & _).
      congruence. }
    intros required. unfold authContextFrom, stringList. simpl.
    destruct (jwt.Claims token !! "permissions") as [[| | | |values|]|];
      try (rewrite elem_of_nil; split; [done|by intros (? & [=] & _)]).
    rewrite stringsOf_elem. split; [by exists values|].
    by intros (values' & [= <-] & ?). }
  destruct (hasAll requiredPermissions (Permissions ctx)) eqn:Hall.
  - split; [|done]. split; [intros _|done].
    intros required Hin. apply Hperm.
    by apply (proj1 (hasAll_Forall _ _) Hall).
  - split; [|done]. split; [intros Heq; by apply JSON_not_Next in Heq|].
    intros Hreq. assert (hasAll requiredPermissions (Permissions ctx) = true);
      [|congruence].
    apply hasAll_Forall. intros required Hin. by apply Hperm, Hreq.
Qed.

Lemma gate_then_permissions_witness :
  gin.GetHeader
    (Sample.request
       ("Bearer " +:+ Sample.token Sample.header_k1 Sample.payload_upload
                        Sample.good_signature))
    "Authorization"
  = "Bearer " +:+ Sample.token Sample.header_k1 Sample.payload_upload
                    Sample.good_signature
  ∧ (runVerifyToken Sample.libs Sample.world_ok
       (Sample.token Sample.header_k1 Sample.payload_upload Sample.good_signature)
       Sample.client0 Sample.config).2 = inr Sample.uploader
  ∧ jwt.ParseUnverified (jwt_internals Sample.libs)
      (Sample.token Sample.header_k1 Sample.payload_upload Sample.good_signature)
    = inr (Sample.signed Sample.payload_upload Sample.claims_upload)
  ∧ (RequirePermissions ["files:upload"]
       (AuthMiddleware Sample.libs Sample.world_ok Sample.client0 Sample.config
          (Sample.request
             ("Bearer " +:+ Sample.token Sample.header_k1 Sample.payload_upload
                              Sample.good_signature))).2
     = gin.Next
         (AuthMiddleware Sample.libs Sample.world_ok Sample.client0
            Sample.config
            (Sample.request
               ("Bearer " +:+ Sample.token Sample.header_k1
                                Sample.payload_upload Sample.good_signature))).2
     ↔ ∀ required, required ∈ ["files:upload"] →
         ∃ values,
           jwt.Claims (Sample.signed Sample.payload_upload Sample.claims_upload)
             !! "permissions" = Some (JArr values)
           ∧ JStr required ∈ values).
Proof.
  split; [vm_compute; reflexivity|]. split; [vm_compute; reflexivity|].
  split; [vm_compute; reflexivity|].
  assert (jwt.ParseUnverified (jwt_internals Sample.libs)
            (Sample.token Sample.header_k1 Sample.payload_upload
               Sample.good_signature)
          = inr (Sample.signed Sample.payload_upload Sample.claims_upload))
    as Hparse by (vm_compute; reflexivity).
  exact (proj1 (gate_then_permissions Sample.libs Sample.world_ok
                  Sample.client0 Sample.config
                  (Sample.request
                     ("Bearer " +:+ Sample.token Sample.header_k1
                                      Sample.payload_upload
                                      Sample.good_signature))
                  (Sample.token Sample.header_k1 Sample.payload_upload
                     Sample.good_signature)
                  Sample.uploader
                  (Sample.signed Sample.payload_upload Sample.claims_upload)
                  ["files:upload"] eq_refl eq_refl Hparse)).
Defined.

(** ** Package [config] *)

Example Load_defaults :
  config.Load ∅
  = inr {| config.HTTPAddr := ":8080";
           config.StorageDir := "/var/media";
           config.PublicBaseURL := "http://localhost:8080";
           config.MaxFileSize := 10485760;
           config.Auth :=
             {| config.JWKSUrl := "http://user-service:3000/.well-known/jwks.json";
                config.Issuer := "http://user-service:3000";
                config.Audience := "backboard";
                config.JWKSCacheTTL := 900 |} |}.
Proof. vm_compute. reflexivity. Qed.

Example ParseInt_examples :
  strconv.parseInt64 "-9223372036854775808" = inr (- 2 ^ 63)
  ∧ strconv.parseInt64 "9223372036854775808" = inl strconv.ErrRange
  ∧ strconv.parseInt64 "+42" = inr 42
  ∧ strconv.parseInt64 "4_2" = inl strconv.ErrSyntax
  ∧ strconv.parseInt64 "-" = inl strconv.ErrSyntax
  ∧ strconv.parseInt64 "99999999999999999999x" = inl strconv.ErrRange
  ∧ strconv.parseInt64 "007" = inr 7.
Proof. vm_compute. repeat split; reflexivity. Qed.

Section Decimal.

Lemma digit_pretty_N_char (x : N) :
  (x < 10)%N → strconv.digit (pretty_N_char x) = Some (Z.of_N x).
Proof.
  intros Hx.
  assert (x = 0 ∨ x = 1 ∨ x = 2 ∨ x = 3 ∨ x = 4 ∨ x = 5 ∨ x = 6 ∨ x = 7
          ∨ x = 8 ∨ x = 9)%N as Hcases by lia.
  repeat (destruct Hcases as [->|Hcases]; [reflexivity|]). by subst.
Qed.

Lemma parseUintLoop_pretty_N_go (x : N) :
  ∃ k : Z,
    0 ≤ k
    ∧ ∀ n s,
        0 ≤ n →
        n * 10 ^ k + Z.of_N x ≤ strconv.maxUint64 →
        strconv.parseUintLoop (pretty_N_go x s) n
        = strconv.parseUintLoop s (n * 10 ^ k + Z.of_N x).
Proof.
  induction (N.lt_wf_0 x) as [x _ IH].
  assert (x = 0 ∨ 0 < x)%N as [->|Hpos] by lia.
  - exists 0. split; [done|]. intros n s _ _.
    rewrite pretty_N_go_0. f_equal. simpl. lia.
  - destruct (IH (x `div` 10)%N) as (k & Hk & Hgo); [by apply N.div_lt|].
    exists (k + 1). split; [lia|]. intros n s Hn Hmax.
    rewrite pretty_N_go_step by done.
    assert (Z.of_N x = Z.of_N (x `div` 10) * 10 + Z.of_N (x `mod` 10)) as Hx.
    { rewrite (N.div_mod x 10) at 1 by done. lia. }
    assert (n * 10 ^ (k + 1) + Z.of_N x
            = (n * 10 ^ k + Z.of_N (x `div` 10)) * 10 + Z.of_N (x `mod` 10))
      as Hval.
    { rewrite Z.pow_add_r by lia. lia. }
    assert (0 ≤ n * 10 ^ k) by (apply Z.mul_nonneg_nonneg; [done|lia]).
    pose proof (N2Z.is_nonneg (x `mod` 10)) as Hmod.
    pose proof (N2Z.is_nonneg (x `div` 10)) as Hdiv.
    assert (n * 10 ^ k + Z.of_N (x `div` 10) ≤ strconv.maxUint64).
    { rewrite Hval in Hmax. clear -Hmax H Hmod Hdiv.
      generalize dependent (n * 10 ^ k). generalize dependent (Z.of_N (x `mod` 10)).
      generalize dependent (Z.of_N (x `div` 10)). intros. lia. }
    rewrite Hgo by done. simpl.
    rewrite digit_pretty_N_char by (apply N.mod_lt; done).
    rewrite <- Hval.
    destruct (Z.gtb_spec (n * 10 ^ (k + 1) + Z.of_N x) strconv.maxUint64);
      [lia|done].
Qed.

Lemma pretty_N_go_digit (x : N) (s : string) :
  (0 < x)%N →
  ∃ c rest, pretty_N_go x s = String c rest ∧ is_Some (strconv.digit c).
Proof.
  revert s. induction (N.lt_wf_0 x) as [x _ IH]. intros s Hpos.
  rewrite pretty_N_go_step by done.
  destruct (N.eq_0_gt_0_cases (x `div` 10)) as [->|Hdiv].
  - rewrite pretty_N_go_0. eexists _, _. split; [done|].
    rewrite digit_pretty_N_char by (apply N.mod_lt; done). eauto.
  - apply IH; [by apply N.div_lt|done].
Qed.

Lemma ParseUint_pretty (p : positive) :
  Z.pos p ≤ strconv.maxUint64 →
  ∃ c rest,
    pretty (N.pos p) = String c rest
    ∧ is_Some (strconv.digit c)
    ∧ strconv.ParseUint (pretty (N.pos p)) = inr (Z.pos p).
Proof.
  intros Hmax. unfold pretty, pretty_N.
  destruct (decide (N.pos p = 0%N)) as [|_]; [done|].
  destruct (pretty_N_go_digit (N.pos p) EmptyString) as (c & rest & Hs & Hd);
    [done|].
  exists c, rest. split; [done|]. split; [done|].
  assert (strconv.ParseUint (pretty_N_go (N.pos p) EmptyString)
          = strconv.parseUintLoop (pretty_N_go (N.pos p) EmptyString) 0) as ->.
  { unfold strconv.ParseUint. by rewrite Hs. }
  destruct (parseUintLoop_pretty_N_go (N.pos p)) as (k & Hk & Hgo).
  rewrite Hgo by (simpl; lia). done.
Qed.

Lemma digit_not_sign c :
  is_Some (strconv.digit c) → Ascii.eqb c "+" = false ∧ Ascii.eqb c "-" = false.
Proof.
  intros [d Hd]. split.
  - destruct (Ascii.eqb_spec c "+") as [->|]; [by vm_compute in Hd|done].
  - destruct (Ascii.eqb_spec c "-") as [->|]; [by vm_compute in Hd|done].
Qed.

(** Parsing the decimal form of an int64 gives it back. *)
Lemma parseInt64_pretty (z : Z) :
  - 2 ^ 63 ≤ z < 2 ^ 63 → strconv.parseInt64 (pretty z) = inr z.
Proof.
  intros Hz. destruct z as [|p|p]; [done| |].
  - change (pretty (Z.pos p)) with (pretty (N.pos p)).
    destruct (ParseUint_pretty p) as (c & rest & Hs & Hd & Hparse);
      [unfold strconv.maxUint64; lia|].
    unfold strconv.parseInt64. rewrite Hs. cbv beta iota zeta.
    destruct (digit_not_sign c Hd) as [-> ->]. cbn [orb negb andb].
    rewrite <- Hs, Hparse.
    destruct (Z.geb_spec (Z.pos p) (2 ^ 63)); [lia|done].
  - change (pretty (Z.neg p)) with (String "-" (pretty (N.pos p))).
    destruct (ParseUint_pretty p) as (c & rest & Hs & Hd & Hparse);
      [unfold strconv.maxUint64; lia|].
    unfold strconv.parseInt64. cbv beta iota zeta.
    replace (Ascii.eqb "-" "-") with true by reflexivity.
    replace (Ascii.eqb "-" "+") with false by reflexivity.
    cbn [orb negb andb]. rewrite Hparse.
    destruct (Z.gtb_spec (Z.pos p) (2 ^ 63)); [lia|done].
Qed.

End Decimal.

Section ConfigLemmas.

Lemma parseUintLoop_range (s : string) (n m : Z) :
  0 ≤ n ≤ strconv.maxUint64 →
  strconv.parseUintLoop s n = inr m → n ≤ m ≤ strconv.maxUint64.
Proof.
  revert n. induction s as [|c rest IH]; intros n Hn; simpl.
  - intros [= <-]. lia.
  - unfold strconv.digit.
    destruct (_ && _) eqn:Hd; [|done].
    apply andb_true_iff in Hd as [Hlo Hhi].
    apply Z.leb_le in Hlo, Hhi.
    set (d := Z.of_N (N_of_ascii c) - 48) in *.
    destruct (Z.gtb_spec (n * 10 + d) strconv.maxUint64); [done|].
    intros Hm. apply IH in Hm; lia.
Qed.

Lemma parseInt64_range (s : string) (z : Z) :
  strconv.parseInt64 s = inr z → - 2 ^ 63 ≤ z < 2 ^ 63.
Proof.
  unfold strconv.parseInt64. destruct s as [|c rest]; [done|].
  assert (∀ unsigned un, strconv.ParseUint unsigned = inr un → 0 ≤ un) as Hpos.
  { intros unsigned un Hun. unfold strconv.ParseUint in Hun.
    destruct unsigned; [done|].
    apply parseUintLoop_range in Hun; [lia|]. unfold strconv.maxUint64. lia. }
  destruct (Ascii.eqb c "+"), (Ascii.eqb c "-"); cbn [orb negb andb].
  all: match goal with
       | |- context [strconv.ParseUint ?u] =>
           destruct (strconv.ParseUint u) as [[]|un] eqn:Hun; try done;
           apply Hpos in Hun
       end.
  all: try (destruct (Z.gtb_spec un (2 ^ 63)); [done|]; intros [= <-]; lia).
  all: destruct (Z.geb_spec un (2 ^ 63)); [done|]; intros [= <-]; lia.
Qed.

Lemma NewJWKSClient_nonzero (url0 : string) (cacheTTLSeconds : Z) :
  cacheTTL (NewJWKSClient url0 cacheTTLSeconds) ≠ 0.
Proof.
  unfold NewJWKSClient. simpl.
  destruct (Z.eqb_spec (time.mul cacheTTLSeconds time.Second) 0); [|done].
  vm_compute. discriminate.
Qed.

Lemma getEnv_unset env key defaultValue :
  env !! key = None ∨ env !! key = Some EmptyString →
  config.getEnv env key defaultValue = defaultValue.
Proof.
  unfold config.getEnv, os.Getenv. by intros [->| ->].
Qed.

Lemma getEnv_set env key defaultValue value :
  env !! key = Some value → value ≠ EmptyString →
  config.getEnv env key defaultValue = value.
Proof.
  unfold config.getEnv, os.Getenv. intros -> Hne. simpl.
  by destruct (String.eqb_spec value EmptyString).
Qed.

Lemma pretty_Z_nonempty (z : Z) :
  - 2 ^ 63 ≤ z < 2 ^ 63 → pretty z ≠ EmptyString.
Proof.
  intros Hz Hempty. pose proof (parseInt64_pretty z Hz) as Hp.
  by rewrite Hempty in Hp.
Qed.

(** The cache TTL that [Load] takes from the environment. *)
Lemma Load_ttl_value env cfg :
  config.Load env = inr cfg →
  config.JWKSCacheTTL (config.Auth cfg)
  = match strconv.parseInt64
            (config.getEnv env "AUTH_JWKS_CACHE_TTL" EmptyString) with
    | inr ttl => ttl
    | inl _ => 900
    end.
Proof.
  unfold config.Load.
  destruct (strconv.ParseInt _) as [|maxFileSize]; [done|].
  intros [= <-]. simpl. unfold strconv.Atoi.
  destruct (String.eqb_spec
              (config.getEnv env "AUTH_JWKS_CACHE_TTL" EmptyString) EmptyString)
    as [->|]; simpl; [done|].
  by destruct (strconv.parseInt64 _).
Qed.

End ConfigLemmas.

(** X23.  [Load] and the variable [MEDIA_MAX_FILE_SIZE]: unset or empty it
    stands for 10485760; set to the decimal form of any int64, negative
    ones included, it gives that number; the maximal size of a loaded
    configuration is an int64; and [Load] fails only when the variable is
    set to something that is not empty and that [ParseInt] refuses, with
    an error that names the value. *)
Theorem Load_max_file_size (env : os.Environ) :
  (env !! "MEDIA_MAX_FILE_SIZE" = None
   ∨ env !! "MEDIA_MAX_FILE_SIZE" = Some EmptyString →
   ∃ cfg, config.Load env = inr cfg ∧ config.MaxFileSize cfg = 10485760)
  ∧ (∀ n, - 2 ^ 63 ≤ n < 2 ^ 63 →
          env !! "MEDIA_MAX_FILE_SIZE" = Some (pretty n) →
          ∃ cfg, config.Load env = inr cfg ∧ config.MaxFileSize cfg = n)
  ∧ (∀ cfg, config.Load env = inr cfg →
            - 2 ^ 63 ≤ config.MaxFileSize cfg < 2 ^ 63)
  ∧ (∀ err, config.Load env = inl err →
            ∃ value reason,
              env !! "MEDIA_MAX_FILE_SIZE" = Some value
              ∧ value ≠ EmptyString
              ∧ strconv.parseInt64 value = inl reason
              ∧ err = config.ErrInvalidMaxFileSize
                        {| strconv.Func := "ParseInt"; strconv.Num := value;
                           strconv.Reason := reason |}).
Proof.
  unfold config.Load, strconv.ParseInt. split; [|split; [|split]].
  - intros Hunset. rewrite (getEnv_unset _ "MEDIA_MAX_FILE_SIZE") by done.
    eexists. split; [reflexivity|done].
  - intros n Hn Hset.
    rewrite (getEnv_set _ "MEDIA_MAX_FILE_SIZE" _ (pretty n))
      by auto using pretty_Z_nonempty.
    rewrite parseInt64_pretty by done. eexists. split; [reflexivity|done].
  - intros cfg.
    destruct (strconv.parseInt64 _) as [|n] eqn:Hp; [done|].
    intros [= <-]. simpl. by apply parseInt64_range in Hp.
  - intros err.
    destruct (strconv.parseInt64 _) as [reason|n] eqn:Hp; [|done].
    intros [= <-].
    destruct (env !! "MEDIA_MAX_FILE_SIZE") as [value|] eqn:Hv.
    + destruct (String.eqb_spec value EmptyString) as [->|Hne].
      * rewrite (getEnv_unset _ "MEDIA_MAX_FILE_SIZE") in Hp by auto. done.
      * rewrite (getEnv_set _ "MEDIA_MAX_FILE_SIZE" _ value) in * by done.
        by exists value, reason.
    + rewrite (getEnv_unset _ "MEDIA_MAX_FILE_SIZE") in Hp by auto. done.
Qed.

(** X24.  [Load] and the variable [AUTH_JWKS_CACHE_TTL]: whatever its
    value, it never makes [Load] fail; unset, empty, or set to something
    that [Atoi] refuses (the refusal is dropped) it stands for 900 seconds;
    set to the decimal form of an int64 it gives that number, zero and
    negative numbers included. *)
Theorem Load_cache_ttl (env : os.Environ) :
  (∀ value, (∃ err, config.Load (<["AUTH_JWKS_CACHE_TTL" := value]> env) = inl err)
            ↔ ∃ err, config.Load env = inl err)
  ∧ (∀ cfg, config.Load env = inr cfg →
       (env !! "AUTH_JWKS_CACHE_TTL" = None
        ∨ env !! "AUTH_JWKS_CACHE_TTL" = Some EmptyString →
        config.JWKSCacheTTL (config.Auth cfg) = 900)
       ∧ (∀ value reason,
            env !! "AUTH_JWKS_CACHE_TTL" = Some value →
            strconv.parseInt64 value = inl reason →
            config.JWKSCacheTTL (config.Auth cfg) = 900)
       ∧ (∀ n, - 2 ^ 63 ≤ n < 2 ^ 63 →
               env !! "AUTH_JWKS_CACHE_TTL" = Some (pretty n) →
               config.JWKSCacheTTL (config.Auth cfg) = n)).
Proof.
  split.
  - intros value. unfold config.Load.
    assert (config.getEnv (<["AUTH_JWKS_CACHE_TTL" := value]> env)
              "MEDIA_MAX_FILE_SIZE" "10485760"
            = config.getEnv env "MEDIA_MAX_FILE_SIZE" "10485760") as ->.
    { unfold config.getEnv, os.Getenv. by rewrite lookup_insert_ne. }
    destruct (strconv.ParseInt _); split; intros [err Herr]; eauto; done.
  - intros cfg Hload. rewrite (Load_ttl_value env cfg Hload).
    split; [|split].
    + intros Hunset. by rewrite (getEnv_unset _ "AUTH_JWKS_CACHE_TTL").
    + intros value reason Hset Hp.
      destruct (String.eqb_spec value EmptyString) as [->|Hne].
      * by rewrite (getEnv_unset _ "AUTH_JWKS_CACHE_TTL") by auto.
      * by rewrite (getEnv_set _ "AUTH_JWKS_CACHE_TTL" _ value), Hp.
    + intros n Hn Hset.
      rewrite (getEnv_set _ "AUTH_JWKS_CACHE_TTL" _ (pretty n))
        by auto using pretty_Z_nonempty.
      by rewrite parseInt64_pretty.
Qed.

(** X25.  The key-set client that [NewRouter] makes from a loaded
    configuration: its URL is the one of the configuration; its TTL is
    never zero; it is 15 minutes when [AUTH_JWKS_CACHE_TTL] is unset,
    empty, refused by [Atoi], or the decimal form of zero; and when the
    variable is the decimal form of another number of seconds of at most
    9223372036 in absolute value, it is that many seconds. *)
Theorem NewRouter_client_ttl (env : os.Environ) (cfg : config.Config)
    (maxFileSize : Z) :
  config.Load env = inr cfg →
  url (router.jwksClient (router.NewRouter maxFileSize cfg))
    = config.JWKSUrl (config.Auth cfg)
  ∧ cacheTTL (router.jwksClient (router.NewRouter maxFileSize cfg)) ≠ 0
  ∧ (env !! "AUTH_JWKS_CACHE_TTL" = None
     ∨ env !! "AUTH_JWKS_CACHE_TTL" = Some EmptyString
     ∨ env !! "AUTH_JWKS_CACHE_TTL" = Some "0"
     ∨ (∃ value reason, env !! "AUTH_JWKS_CACHE_TTL" = Some value
                        ∧ strconv.parseInt64 value = inl reason) →
     cacheTTL (router.jwksClient (router.NewRouter maxFileSize cfg))
     = 15 * time.Minute)
  ∧ (∀ n, n ≠ 0 → - 9223372036 ≤ n ≤ 9223372036 →
          env !! "AUTH_JWKS_CACHE_TTL" = Some (pretty n) →
          cacheTTL (router.jwksClient (router.NewRouter maxFileSize cfg))
          = n * time.Second).
Proof.
  intros Hload. unfold router.NewRouter. cbn [router.jwksClient].
  split; [done|]. split; [apply NewJWKSClient_nonzero|].
  rewrite (Load_ttl_value env cfg Hload). split.
  - intros [Hu|[Hu|[Hz|(value & reason & Hset & Hp)]]].
    + by rewrite (getEnv_unset _ "AUTH_JWKS_CACHE_TTL") by auto.
    + by rewrite (getEnv_unset _ "AUTH_JWKS_CACHE_TTL") by auto.
    + by rewrite (getEnv_set _ "AUTH_JWKS_CACHE_TTL" _ "0").
    + destruct (String.eqb_spec value EmptyString) as [->|Hne].
      * by rewrite (getEnv_unset _ "AUTH_JWKS_CACHE_TTL") by auto.
      * by rewrite (getEnv_set _ "AUTH_JWKS_CACHE_TTL" _ value), Hp.
  - intros n Hne Hn Hset.
    rewrite (getEnv_set _ "AUTH_JWKS_CACHE_TTL" _ (pretty n))
      by (auto; apply pretty_Z_nonempty; lia).
    rewrite parseInt64_pretty by lia.
    unfold NewJWKSClient, time.mul. simpl.
    rewrite wrap64_small by (unfold time.Second; lia).
    destruct (Z.eqb_spec (n * time.Second) 0) as [Hz|];
      [unfold time.Second in Hz; lia|done].
Qed.

Lemma NewRouter_client_ttl_witness :
  config.Load {[ "AUTH_JWKS_CACHE_TTL" := "0" ]}
  = inr {| config.HTTPAddr := ":8080";
           config.StorageDir := "/var/media";
           config.PublicBaseURL := "http://localhost:8080";
           config.MaxFileSize := 10485760;
           config.Auth :=
             {| config.JWKSUrl := "http://user-service:3000/.well-known/jwks.json";
                config.Issuer := "http://user-service:3000";
                config.Audience := "backboard";
                config.JWKSCacheTTL := 0 |} |}
  ∧ cacheTTL
      (router.jwksClient
         (router.NewRouter 10485760
            {| config.HTTPAddr := ":8080";
               config.StorageDir := "/var/media";
               config.PublicBaseURL := "http://localhost:8080";
               config.MaxFileSize := 10485760;
               config.Auth :=
                 {| config.JWKSUrl :=
                      "http://user-service:3000/.well-known/jwks.json";
                    config.Issuer := "http://user-service:3000";
                    config.Audience := "backboard";
                    config.JWKSCacheTTL := 0 |} |}))
    = 15 * time.Minute.
Proof.
  assert (config.Load {[ "AUTH_JWKS_CACHE_TTL" := "0" ]}
          = inr {| config.HTTPAddr := ":8080";
                   config.StorageDir := "/var/media";
                   config.PublicBaseURL := "http://localhost:8080";
                   config.MaxFileSize := 10485760;
                   config.Auth :=
                     {| config.JWKSUrl :=
                          "http://user-service:3000/.well-known/jwks.json";
                        config.Issuer := "http://user-service:3000";
                        config.Audience := "backboard";
                        config.JWKSCacheTTL := 0 |} |}) as Hload
    by (vm_compute; reflexivity).
  split; [exact Hload|].
  apply (NewRouter_client_ttl {[ "AUTH_JWKS_CACHE_TTL" := "0" ]} _ 10485760 Hload).
  right; right; left. vm_compute. reflexivity.
Defined.

(** ** The upload handler *)

Section UploadLemmas.
Context {S : Type} (st : storage.Storage S).

Lemma allowedMIME_NewUploadHandler (maxSize : Z) (contentType : string) :
  default false (handler.allowedMIME (handler.NewUploadHandler maxSize)
                   !! contentType) = true
  ↔ contentType ∈ ["image/jpeg"; "image/png"; "image/webp"].
Proof.
  unfold handler.NewUploadHandler. simpl.
  rewrite !elem_of_cons, elem_of_nil.
  destruct (decide (contentType = "image/jpeg")) as [->|];
    [split; [auto|by intros _]|].
  destruct (decide (contentType = "image/png")) as [->|];
    [split; [auto|by intros _]|].
  destruct (decide (contentType = "image/webp")) as [->|];
    [split; [auto|by intros _]|].
  rewrite !lookup_insert_ne by done. rewrite lookup_singleton_ne by done.
  simpl. split; [done|tauto].
Qed.

(** [Upload] on a part that is not too large and that opens: it saves the
    part when its content type is allowed, and refuses it otherwise. *)
Lemma Upload_opened h file src s c :
  handler.Size file ≤ handler.maxSize h →
  handler.Open file = inr src →
  handler.Upload st h (inr file) s c
  = if default false (handler.allowedMIME h !! contentTypeOf file) then
      let bytes := io.LimitReader src (time.wrap64 (handler.maxSize h + 1)) in
      match storage.Save st (saveOptionsOf file) bytes s with
      | (s', inl err) =>
          (s', [handler.Saved (saveOptionsOf file) bytes;
                handler.Log handler.Error "Failed to save file"],
           gin.JSON handler.StatusInternalServerError
             (handler.ErrorResponse "Failed to save file" EmptyString) c)
      | (s', inr fileInfo) =>
          (s', [handler.Saved (saveOptionsOf file) bytes;
                handler.Log handler.Info "File uploaded successfully"],
           gin.JSON handler.StatusOK
             (handler.UploadResponse (storage.FileInfo.ID fileInfo)
                (storage.FileInfo.URL fileInfo)
                (storage.FileInfo.ContentType fileInfo)
                (storage.FileInfo.Size fileInfo)) c)
      end
    else
      (s, [handler.Log handler.Warn "Unsupported MIME type"],
       gin.JSON handler.StatusBadRequest
         (handler.ErrorResponse "Unsupported file type"
            "Allowed types: image/jpeg, image/png, image/webp") c).
Proof.
  intros Hsize Hopen. unfold handler.Upload. rewrite Hopen.
  destruct (Z.gtb_spec (handler.Size file) (handler.maxSize h)); [lia|].
  fold (contentTypeOf file). fold (saveOptionsOf file).
  by destruct (default false (handler.allowedMIME h !! contentTypeOf file)).
Qed.

(** The calls of [storage.Save] that [Upload] makes. *)
Lemma Upload_saves_cases h form s c :
  saves (handler.Upload st h form s c).1.2 = []
  ∧ (handler.Upload st h form s c).1.1 = s
  ∧ (∀ body, (handler.Upload st h form s c).2
             ≠ gin.JSON handler.StatusOK body c)
  ∨ ∃ file src,
      form = inr file
      ∧ handler.Size file ≤ handler.maxSize h
      ∧ handler.Open file = inr src
      ∧ default false (handler.allowedMIME h !! contentTypeOf file) = true
      ∧ saves (handler.Upload st h form s c).1.2
        = [(saveOptionsOf file,
            io.LimitReader src (time.wrap64 (handler.maxSize h + 1)))]
      ∧ (handler.Upload st h form s c).1.1
        = (storage.Save st (saveOptionsOf file)
             (io.LimitReader src (time.wrap64 (handler.maxSize h + 1))) s).1.
Proof.
  assert (∀ code body body',
            code ≠ handler.StatusOK →
            gin.JSON code body c ≠ gin.JSON handler.StatusOK body' c) as Hcode.
  { intros code body body' Hne Heq. apply (f_equal gin.Written) in Heq.
    simpl in Heq. apply app_inv_head in Heq. by injection Heq. }
  destruct form as [err|file].
  { left. simpl. repeat split; try done. intros body. by apply Hcode. }
  destruct (Z.gtb_spec (handler.Size file) (handler.maxSize h)) as [Hgt|Hle].
  { left. unfold handler.Upload.
    destruct (Z.gtb_spec (handler.Size file) (handler.maxSize h)); [|lia].
    simpl. repeat split; try done. intros body. by apply Hcode. }
  destruct (handler.Open file) as [err|src] eqn:Hopen.
  { left. unfold handler.Upload. rewrite Hopen.
    destruct (Z.gtb_spec (handler.Size file) (handler.maxSize h)); [lia|].
    simpl. repeat split; try done. intros body. by apply Hcode. }
  rewrite (Upload_opened h file src s c Hle Hopen).
  destruct (default false (handler.allowedMIME h !! contentTypeOf file)) eqn:Hal.
  - right. exists file, src. simpl.
    destruct (storage.Save st _ _ s) as [s' [err|fileInfo]]; simpl; done.
  - left. simpl. repeat split; try done. intros body. by apply Hcode.
Qed.

End UploadLemmas.

(** X26.  The upload handler calls [storage.Save] at most once, and only
    for a part that is not larger than the maximal size, that opens, and
    whose content type is one of [image/jpeg], [image/png] and
    [image/webp].  It saves under the directory [avatars], with that
    content type and the name of the part, and hands over no more than the
    first [maxSize + 1] bytes of the part (for a maximal size below the
    largest int64).  Without such a call the state of the storage is
    untouched. *)
Theorem Upload_saves {S : Type} (st : storage.Storage S) (maxSize : Z)
    (form : string + handler.FileHeader) (s : S) (c : gin.Context) :
  - 2 ^ 63 ≤ maxSize < 2 ^ 63 - 1 →
  saves (handler.Upload st (handler.NewUploadHandler maxSize) form s c).1.2 = []
  ∧ (handler.Upload st (handler.NewUploadHandler maxSize) form s c).1.1 = s
  ∨ ∃ file src contentType,
      form = inr file
      ∧ handler.Size file ≤ maxSize
      ∧ handler.Open file = inr src
      ∧ contentType ∈ ["image/jpeg"; "image/png"; "image/webp"]
      ∧ saves (handler.Upload st (handler.NewUploadHandler maxSize) form s c).1.2
        = [({| storage.SaveOptions.Directory := "avatars";
               storage.SaveOptions.ContentType := contentType;
               storage.SaveOptions.OriginalName := handler.Filename file |},
            take (Z.to_nat (maxSize + 1)) src)].
Proof.
  intros Hmax.
  destruct (Upload_saves_cases st (handler.NewUploadHandler maxSize) form s c)
    as [(Hnone & Hs & _)|(file & src & -> & Hsize & Hopen & Hal & Hsaves & _)];
    [by left|].
  right. exists file, src, (contentTypeOf file).
  split; [done|]. split; [done|]. split; [done|].
  split; [by apply (allowedMIME_NewUploadHandler maxSize)|].
  rewrite Hsaves. unfold saveOptionsOf, io.LimitReader. simpl.
  by rewrite wrap64_small by lia.
Qed.

Lemma Upload_saves_witness :
  - 2 ^ 63 ≤ 1024 < 2 ^ 63 - 1
  ∧ saves (handler.Upload Sample3.memory (handler.NewUploadHandler 1024)
             (inr Sample3.photo) [] (Sample.request "Bearer t")).1.2
    = [({| storage.SaveOptions.Directory := "avatars";
           storage.SaveOptions.ContentType := "image/png";
           storage.SaveOptions.OriginalName := "photo.PNG" |},
        list_byte_of_string "bytes")].
Proof.
  assert (- 2 ^ 63 ≤ 1024 < 2 ^ 63 - 1) as Hmax by lia.
  split; [exact Hmax|].
  destruct (Upload_saves Sample3.memory 1024 (inr Sample3.photo) []
              (Sample.request "Bearer t") Hmax)
    as [(Hnone & _)|(file & src & contentType & _ & _ & _ & _ & _)].
  - vm_compute in Hnone. discriminate.
  - vm_compute. reflexivity.
Defined.

(** X27.  When a part declares a content type, that declaration alone
    decides: a part that is small enough and opens is saved, under the
    declared type, exactly when the declared type is one of the three
    allowed ones, whatever its name and its bytes are; otherwise it is
    refused with the answer 400 and the storage is not called. *)
Theorem Upload_declared_type {S : Type} (st : storage.Storage S) (maxSize : Z)
    (file : handler.FileHeader) (src : list byte) (declared : string)
    (s : S) (c : gin.Context) :
  handler.Header file !! "Content-Type" = Some declared →
  declared ≠ EmptyString →
  handler.Size file ≤ maxSize →
  handler.Open file = inr src →
  (declared ∈ ["image/jpeg"; "image/png"; "image/webp"] →
   saves (handler.Upload st (handler.NewUploadHandler maxSize) (inr file) s c).1.2
   = [({| storage.SaveOptions.Directory := "avatars";
          storage.SaveOptions.ContentType := declared;
          storage.SaveOptions.OriginalName := handler.Filename file |},
       io.LimitReader src (time.wrap64 (maxSize + 1)))])
  ∧ (declared ∉ ["image/jpeg"; "image/png"; "image/webp"] →
     handler.Upload st (handler.NewUploadHandler maxSize) (inr file) s c
     = (s, [handler.Log handler.Warn "Unsupported MIME type"],
        gin.JSON handler.StatusBadRequest
          {[ "error" := VString "Unsupported file type";
             "details" :=
               VString "Allowed types: image/jpeg, image/png, image/webp" ]} c)).
Proof.
  intros Hdeclared Hne Hsize Hopen.
  assert (contentTypeOf file = declared) as Htype.
  { unfold contentTypeOf. rewrite Hdeclared. simpl.
    by destruct (String.eqb_spec declared EmptyString). }
  rewrite (Upload_opened st (handler.NewUploadHandler maxSize) file src s c)
    by done.
  pose proof (allowedMIME_NewUploadHandler maxSize declared) as Hallowed.
  unfold saveOptionsOf. rewrite Htype.
  destruct (default false
              (handler.allowedMIME (handler.NewUploadHandler maxSize)
                 !! declared)).
  - split; [|intros Hnot; destruct Hnot; by apply Hallowed].
    intros _. simpl. by destruct (storage.Save st _ _ s) as [s' [err|info]].
  - split; [|done]. intros Hin. apply Hallowed in Hin. done.
Qed.

Lemma Upload_declared_type_witness :
  handler.Header Sample3.disguised !! "Content-Type" = Some "image/png"
  ∧ handler.Filename Sample3.disguised = "setup.exe"
  ∧ saves (handler.Upload Sample3.memory (handler.NewUploadHandler 1024)
             (inr Sample3.disguised) [] (Sample.request "Bearer t")).1.2
    = [({| storage.SaveOptions.Directory := "avatars";
           storage.SaveOptions.ContentType := "image/png";
           storage.SaveOptions.OriginalName := "setup.exe" |},
        list_byte_of_string "bytes")].
Proof.
  split; [reflexivity|]. split; [reflexivity|].
  assert ("image/png" ≠ EmptyString) as Hne by discriminate.
  assert (handler.Size Sample3.disguised ≤ 1024) as Hsize
    by (vm_compute; discriminate).
  assert ("image/png" ∈ ["image/jpeg"; "image/png"; "image/webp"]) as Hin
    by (apply elem_of_cons; right; apply elem_of_cons; by left).
  exact (proj1 (Upload_declared_type Sample3.memory 1024 Sample3.disguised
                  (list_byte_of_string "bytes") "image/png" []
                  (Sample.request "Bearer t") eq_refl Hne Hsize eq_refl) Hin).
Defined.

Section Extension.

Lemma Ext_no_dot (e : string) :
  containsByte e "." = false → filepath.Ext e = EmptyString.
Proof.
  induction e as [|ch e IH]; simpl; [done|].
  intros [Hch He]%orb_false_elim. rewrite (IH He), Hch.
  by destruct (filepath.hasSeparator e).
Qed.

(** The extension of a name that ends in a dot and a word without dots and
    slashes is that dot and word. *)
Lemma Ext_app (base e : string) :
  containsByte e "." = false →
  filepath.hasSeparator e = false →
  filepath.Ext (base +:+ String "." e) = String "." e.
Proof.
  intros Hdot Hsep. induction base as [|ch base IH].
  - change (EmptyString +:+ String "." e) with (String "." e).
    cbn [filepath.Ext]. by rewrite Hsep, (Ext_no_dot e Hdot).
  - change (String ch base +:+ String "." e)
      with (String ch (base +:+ String "." e)).
    cbn [filepath.Ext]. rewrite IH.
    by destruct (filepath.hasSeparator (base +:+ String "." e)).
Qed.

End Extension.

(** X28.  When a part declares no content type, the extension of its name
    decides, whatever the case of its letters: a part that is small
    enough and opens, and whose name ends in a dot and a word [e] without
    dots and slashes, is saved exactly when [e] in lower case is one of
    [jpg], [jpeg], [png] and [webp], under the type [image/jpeg] for the
    first two and [image/png] and [image/webp] for the others; otherwise
    it is refused with the answer 400 and the storage is not called. *)
Theorem Upload_extension {S : Type} (st : storage.Storage S) (maxSize : Z)
    (file : handler.FileHeader) (src : list byte) (base e : string)
    (s : S) (c : gin.Context) :
  default EmptyString (handler.Header file !! "Content-Type") = EmptyString →
  handler.Filename file = base +:+ String "." e →
  containsByte e "." = false →
  filepath.hasSeparator e = false →
  handler.Size file ≤ maxSize →
  handler.Open file = inr src →
  (strings_more.ToLower e ∈ ["jpg"; "jpeg"; "png"; "webp"] →
   saves (handler.Upload st (handler.NewUploadHandler maxSize) (inr file) s c).1.2
   = [({| storage.SaveOptions.Directory := "avatars";
          storage.SaveOptions.ContentType :=
            if decide (strings_more.ToLower e = "png") then "image/png"
            else if decide (strings_more.ToLower e = "webp") then "image/webp"
            else "image/jpeg";
          storage.SaveOptions.OriginalName := handler.Filename file |},
       io.LimitReader src (time.wrap64 (maxSize + 1)))])
  ∧ (strings_more.ToLower e ∉ ["jpg"; "jpeg"; "png"; "webp"] →
     handler.Upload st (handler.NewUploadHandler maxSize) (inr file) s c
     = (s, [handler.Log handler.Warn "Unsupported MIME type"],
        gin.JSON handler.StatusBadRequest
          {[ "error" := VString "Unsupported file type";
             "details" :=
               VString "Allowed types: image/jpeg, image/png, image/webp" ]} c)).
Proof.
  intros Hnone Hname Hdot Hsep Hsize Hopen.
  assert (contentTypeOf file
          = handler.typeOfExt (String "." (strings_more.ToLower e))) as Htype.
  { unfold contentTypeOf. rewrite Hnone, Hname, (Ext_app base e Hdot Hsep).
    reflexivity. }
  rewrite (Upload_opened st (handler.NewUploadHandler maxSize) file src s c)
    by done.
  unfold saveOptionsOf. rewrite Htype. unfold handler.typeOfExt.
  rewrite !elem_of_cons, elem_of_nil.
  change (String "." (strings_more.ToLower e) =? ".jpg")%string
    with (strings_more.ToLower e =? "jpg")%string.
  change (String "." (strings_more.ToLower e) =? ".jpeg")%string
    with (strings_more.ToLower e =? "jpeg")%string.
  change (String "." (strings_more.ToLower e) =? ".png")%string
    with (strings_more.ToLower e =? "png")%string.
  change (String "." (strings_more.ToLower e) =? ".webp")%string
    with (strings_more.ToLower e =? "webp")%string.
  destruct (String.eqb_spec (strings_more.ToLower e) "jpg") as [->|Hjpg].
  { split; [|intros Hnot; destruct Hnot; auto]. intros _. simpl.
    by destruct (storage.Save st _ _ s) as [s' [err|info]]. }
  destruct (String.eqb_spec (strings_more.ToLower e) "jpeg") as [->|Hjpeg].
  { split; [|intros Hnot; destruct Hnot; auto]. intros _. simpl.
    by destruct (storage.Save st _ _ s) as [s' [err|info]]. }
  destruct (String.eqb_spec (strings_more.ToLower e) "png") as [->|Hpng].
  { split; [|intros Hnot; destruct Hnot; auto]. intros _. simpl.
    by destruct (storage.Save st _ _ s) as [s' [err|info]]. }
  destruct (String.eqb_spec (strings_more.ToLower e) "webp") as [->|Hwebp].
  { split; [|intros Hnot; destruct Hnot; auto]. intros _. simpl.
    by destruct (storage.Save st _ _ s) as [s' [err|info]]. }
  simpl. split; [|done]. intros [?|[?|[?|[?|[]]]]]; done.
Qed.

Lemma Upload_extension_witness :
  handler.Filename Sample3.photo = "photo" +:+ String "." "PNG"
  ∧ saves (handler.Upload Sample3.memory (handler.NewUploadHandler 1024)
             (inr Sample3.photo) [] (Sample.request "Bearer t")).1.2
    = [({| storage.SaveOptions.Directory := "avatars";
           storage.SaveOptions.ContentType := "image/png";
           storage.SaveOptions.OriginalName := "photo.PNG" |},
        list_byte_of_string "bytes")].
Proof.
  split; [reflexivity|].
  assert (handler.Size Sample3.photo ≤ 1024) as Hsize
    by (vm_compute; discriminate).
  assert (strings_more.ToLower "PNG" ∈ ["jpg"; "jpeg"; "png"; "webp"]) as Hin.
  { change (strings_more.ToLower "PNG") with "png".
    apply elem_of_cons; right; apply elem_of_cons; right;
      apply elem_of_cons; by left. }
  exact (proj1 (Upload_extension Sample3.memory 1024 Sample3.photo
                  (list_byte_of_string "bytes") "photo" "PNG" []
                  (Sample.request "Bearer t")
                  eq_refl eq_refl eq_refl eq_refl Hsize eq_refl) Hin).
Defined.

(** X29.  The upload handler answers every request with exactly one JSON
    response, of status 200, 400, 413 or 500, and neither aborts the chain
    nor touches the keys and headers of the context.  It answers 200
    exactly when it called [storage.Save] and the call succeeded, and then
    the response reports the identifier, the URL, the content type and the
    size that the storage returned, and the state of the storage is the
    one that the call left; it answers 413 exactly when the part is larger
    than the maximal size. *)
Theorem Upload_answer {S : Type} (st : storage.Storage S)
    (h : handler.UploadHandler) (form : string + handler.FileHeader)
    (s : S) (c : gin.Context) :
  ∃ code body,
    (handler.Upload st h form s c).2 = gin.JSON code body c
    ∧ code ∈ [handler.StatusOK; handler.StatusBadRequest;
              handler.StatusRequestEntityTooLarge;
              handler.StatusInternalServerError]
    ∧ (code = handler.StatusOK
       ↔ ∃ opts bytes fileInfo,
           saves (handler.Upload st h form s c).1.2 = [(opts, bytes)]
           ∧ storage.Save st opts bytes s
             = ((handler.Upload st h form s c).1.1, inr fileInfo)
           ∧ body = {[ "fileId" := VString (storage.FileInfo.ID fileInfo);
                       "url" := VString (storage.FileInfo.URL fileInfo);
                       "contentType" :=
                         VString (storage.FileInfo.ContentType fileInfo);
                       "size" := VOther (JNum (storage.FileInfo.Size fileInfo)) ]})
    ∧ (code = handler.StatusRequestEntityTooLarge
       ↔ ∃ file, form = inr file ∧ handler.maxSize h < handler.Size file).
Proof.
  assert (∀ code,
            code ∈ [handler.StatusOK; handler.StatusBadRequest;
                    handler.StatusRequestEntityTooLarge;
                    handler.StatusInternalServerError]
            ↔ code = 200 ∨ code = 400 ∨ code = 413 ∨ code = 500) as Hcodes.
  { intros code. rewrite !elem_of_cons, elem_of_nil.
    unfold handler.StatusOK, handler.StatusBadRequest,
      handler.StatusRequestEntityTooLarge, handler.StatusInternalServerError.
    tauto. }
  destruct form as [err|file].
  { eexists _, _. split; [reflexivity|]. rewrite Hcodes.
    split; [auto|]. split.
    - split; [done|]. by intros (? & ? & ? & [=] & _).
    - split; [done|]. by intros (? & [=] & _). }
  destruct (Z.gtb_spec (handler.Size file) (handler.maxSize h)) as [Hgt|Hle].
  { unfold handler.Upload.
    destruct (Z.gtb_spec (handler.Size file) (handler.maxSize h)); [|lia].
    eexists _, _. split; [reflexivity|]. rewrite Hcodes.
    split; [auto|]. split.
    - split; [done|]. by intros (? & ? & ? & [=] & _).
    - split; [|done]. intros _. exists file. split; [done|lia]. }
  assert (¬ ∃ file', @inr string _ file = inr file'
                     ∧ handler.maxSize h < handler.Size file') as Hnot.
  { intros (file' & [= <-] & ?). lia. }
  destruct (handler.Open file) as [err|src] eqn:Hopen.
  { unfold handler.Upload. rewrite Hopen.
    destruct (Z.gtb_spec (handler.Size file) (handler.maxSize h)); [lia|].
    eexists _, _. split; [reflexivity|]. rewrite Hcodes.
    split; [auto|]. split.
    - split; [done|]. by intros (? & ? & ? & [=] & _).
    - split; [done|]. intros Hex. by destruct Hnot. }
  rewrite (Upload_opened st h file src s c Hle Hopen).
  destruct (default false (handler.allowedMIME h !! contentTypeOf file)).
  2:{ eexists _, _. split; [reflexivity|]. rewrite Hcodes.
      split; [auto|]. split.
      - split; [done|]. by intros (? & ? & ? & [=] & _).
      - split; [done|]. intros Hex. by destruct Hnot. }
  cbn zeta.
  destruct (storage.Save st (saveOptionsOf file)
              (io.LimitReader src (time.wrap64 (handler.maxSize h + 1))) s)
    as [s' [err|fileInfo]] eqn:Hsave.
  - eexists _, _. split; [reflexivity|]. rewrite Hcodes.
    split; [auto|]. split.
    + split; [done|]. simpl. intros (? & ? & ? & [= <- <-] & Hsave' & _).
      rewrite Hsave in Hsave'. done.
    + split; [done|]. intros Hex. by destruct Hnot.
  - eexists _, _. split; [reflexivity|]. rewrite Hcodes.
    split; [auto|]. split.
    + split; [|done]. intros _. simpl.
      exists (saveOptionsOf file),
        (io.LimitReader src (time.wrap64 (handler.maxSize h + 1))), fileInfo.
      by rewrite Hsave.
    + split; [done|]. intros Hex. by destruct Hnot.
Qed.

(** The handlers of [POST /files]. *)
Lemma handlersOf_upload maxFileSize cfg :
  router.handlersOf (router.routes (router.NewRouter maxFileSize cfg))
    "POST" "/files"
  = Some [router.AuthMiddleware_
            {| JWKSUrl := config.JWKSUrl (config.Auth cfg);
               Issuer := config.Issuer (config.Auth cfg);
               Audience := config.Audience (config.Auth cfg);
               JWKSCacheTTL := config.JWKSCacheTTL (config.Auth cfg) |};
          router.RequirePermissions_ ["files:upload"];
          router.Upload].
Proof. reflexivity. Qed.

(** X30.  The route [POST /files] of the router: the upload handler runs,
    and so the storage is called or its state changes, only for a request
    that carries [Bearer ] and a token which [VerifyToken] accepts, with
    the configured issuer and audience and the key-set client of the
    service, and whose [AuthContext] holds the permission [files:upload];
    the handler then runs on the context with that [AuthContext] attached.
    Every other request is aborted with exactly one answer, of status 401
    or 403, and leaves the storage and the effects of the service as they
    were. *)
Theorem upload_route_guard {S : Type} (L : Libs) (w : World)
    (st : storage.Storage S) (maxFileSize : Z) (cfg : config.Config)
    (form : string + handler.FileHeader)
    (other : router.Handler → gin.Context → gin.Context)
    (s : router.State S) (c : gin.Context) :
  gin.Aborted c = false →
  ∃ s' c',
    router.serve L w st (router.NewRouter maxFileSize cfg) form other
      "POST" "/files" s c = Some (s', c')
    ∧ ((∃ tokenString ctx,
          gin.GetHeader c "Authorization" = "Bearer " +:+ tokenString
          ∧ (runVerifyToken L w tokenString (router.client s)
               {| JWKSUrl := config.JWKSUrl (config.Auth cfg);
                  Issuer := config.Issuer (config.Auth cfg);
                  Audience := config.Audience (config.Auth cfg);
                  JWKSCacheTTL := config.JWKSCacheTTL (config.Auth cfg) |}).2
            = inr ctx
          ∧ "files:upload" ∈ Permissions ctx
          ∧ ∃ effs,
              handler.Upload st (handler.NewUploadHandler maxFileSize) form
                (router.store s)
                (gin.Next (gin.Next (gin.Set_ "auth" (VAuthContext ctx) c)))
              = (router.store s', effs, c')
              ∧ router.effects s' = router.effects s ++ effs)
       ∨ (router.store s' = router.store s
          ∧ router.effects s' = router.effects s
          ∧ gin.Aborted c' = true
          ∧ ∃ code body,
              (code = http.StatusUnauthorized ∨ code = http.StatusForbidden)
              ∧ gin.Written c' = gin.Written c ++ [(code, body)])).
Proof.
  intros Hlive. unfold router.serve. rewrite handlersOf_upload.
  cbn [router.runHandlers router.runHandler router.uploadHandler
         router.NewRouter].
  set (config := {| JWKSUrl := config.JWKSUrl (config.Auth cfg);
                    Issuer := config.Issuer (config.Auth cfg);
                    Audience := config.Audience (config.Auth cfg);
                    JWKSCacheTTL := config.JWKSCacheTTL (config.Auth cfg) |}).
  unfold AuthMiddleware.
  destruct (strings.HasPrefix (gin.GetHeader c "Authorization") "Bearer ")
    eqn:Hprefix.
  2:{ rewrite orb_true_r. simpl. eexists _, _. split; [reflexivity|].
      right. simpl. eauto 10. }
  apply HasPrefix_app in Hprefix as (tokenString & Hheader).
  rewrite Hheader. destruct (bearer_header tokenString) as (-> & _ & ->).
  simpl orb. cbn iota.
  destruct (runVerifyToken L w tokenString (router.client s) config)
    as [[client' evs] [err|ctx]] eqn:Hverify.
  { simpl. eexists _, _. split; [reflexivity|]. right. simpl. eauto 10. }
  cbn [gin.Aborted gin.Next gin.Set_]. rewrite Hlive.
  assert (gin.Get (gin.Next (gin.Set_ "auth" (VAuthContext ctx) c)) "auth"
          = Some (VAuthContext ctx)) as Hauth.
  { unfold gin.Get. simpl. by rewrite lookup_insert_eq. }
  fold (gin.Set_ "auth" (VAuthContext ctx) c).
  fold (gin.Next (gin.Set_ "auth" (VAuthContext ctx) c)).
  rewrite (RequirePermissions_attached _ _ ctx Hauth).
  destruct (hasAll ["files:upload"] (Permissions ctx)) eqn:Hall.
  2:{ simpl. eexists _, _. split; [reflexivity|]. right. simpl. eauto 10. }
  cbn [gin.Aborted gin.Next gin.Set_]. rewrite Hlive.
  fold (gin.Set_ "auth" (VAuthContext ctx) c).
  fold (gin.Next (gin.Set_ "auth" (VAuthContext ctx) c)).
  fold (gin.Next (gin.Next (gin.Set_ "auth" (VAuthContext ctx) c))).
  cbn [router.store router.client router.events router.effects].
  destruct (handler.Upload st (handler.NewUploadHandler maxFileSize) form
              (router.store s)
              (gin.Next (gin.Next (gin.Set_ "auth" (VAuthContext ctx) c))))
    as [[store' effs] c'] eqn:Hupload.
  eexists _, c'. split; [by destruct (gin.Aborted c')|].
  left. exists tokenString, ctx. split; [done|].
  split; [fold config; by rewrite Hverify|].
  split.
  - apply (proj1 (hasAll_Forall _ _) Hall), list_elem_of_here.
  - exists effs. by destruct (gin.Aborted c').
Qed.

Lemma upload_route_guard_witness :
  gin.Aborted
    (Sample.request
       ("Bearer " +:+ Sample.token Sample.header_k1 Sample.payload_upload
                        Sample.good_signature)) = false
  ∧ ∃ s' c',
      router.serve Sample.libs Sample.world_ok Sample3.memory
        (router.NewRouter 1024 Sample3.cfg) (inr Sample3.photo) (λ _ c, c)
        "POST" "/files" Sample3.state0
        (Sample.request
           ("Bearer " +:+ Sample.token Sample.header_k1 Sample.payload_upload
                            Sample.good_signature)) = Some (s', c')
      ∧ length (router.store s') = 1%nat
      ∧ gin.Written c'
        = [(200, {[ "fileId" := VString "file-0";
                    "url" := VString "http://localhost:8080/files/file-0";
                    "contentType" := VString "image/png";
                    "size" := VOther (JNum 5) ]})].
Proof.
  assert (gin.Aborted
            (Sample.request
               ("Bearer " +:+ Sample.token Sample.header_k1
                                Sample.payload_upload Sample.good_signature))
          = false) as Hlive by reflexivity.
  split; [exact Hlive|].
  destruct (upload_route_guard Sample.libs Sample.world_ok Sample3.memory 1024
              Sample3.cfg (inr Sample3.photo) (λ _ c, c) Sample3.state0 _ Hlive)
    as (s' & c' & Hserve & _).
  exists s', c'. split; [exact Hserve|].
  vm_compute in Hserve. injection Hserve as <- <-.
  split; vm_compute; reflexivity.
Defined.
